(** * DeepBug: the moderation, rate-limiting, session and access-token policy

    A shallow embedding of [src/utils/security.ts] ([SecurityUtils],
    [SessionManager]) and [src/services/chat.ts] ([ChatService]), and the
    properties of the specification that concern them; then of the rest of
    [ChatService], of the admin login and the session readers of
    [src/services/auth.ts] ([AuthService]) and of the article operations of
    [src/services/articles.ts] ([ArticleService]), with properties of
    theirs.

    Conventions of the embedding.
    - A JavaScript string is the list of its UTF-16 code units ([list N]);
      [.length] is the length of that list.  The fixed messages of the
      result objects are string literals.
    - Every reading of the clock ([Date.now()], [new Date()]) is a parameter
      of the operation that takes it, a number of milliseconds since the
      epoch ([N]).
    - The process-wide [Map] of login attempts is a [gmap]; every operation
      takes the table and returns the new one.
    - [localStorage] is a map from keys to items; the document store is a
      record of its collections, each a map from document identifiers to
      documents, with the schedule of the requests it will reject.
      [setDoc] throws on data with a field that is [undefined], as the
      store does under the default settings it is opened with.
    - Code that can throw returns a [completion]; [try]/[catch] blocks are
      written out.
    - The library functions the code calls are modelled from their
      specifications ([btoa], [atob], [parseInt], [String.prototype.split],
      [JSON.stringify] followed by [JSON.parse], the regular expressions,
      the serialization of a text node) or are parameters ([sanitizeHTML],
      [validateURL], [validator.isEmail], [toLowerCase], [bcrypt.compare],
      the conversion of strings and objects to numbers). *)

From Stdlib Require Import ZArith NArith List Lia.
From stdpp Require Import base option list gmap strings.

Local Open Scope N_scope.

(** ** JavaScript strings *)

Abbreviation jsstring := (list N).

Module Js.

(** How a block ends: with a returned value or with a thrown exception. *)
Inductive completion (A : Type) :=
| Return (a : A)
| Throw.
Arguments Return {A} a.
Arguments Throw {A}.

(** The code units of an ASCII literal. *)
Fixpoint str (s : string) : jsstring :=
  match s with
  | EmptyString => []
  | String a s' => Ascii.N_of_ascii a :: str s'
  end.
#[global] Arguments str : simpl never.

(** [s.split(sep)] for a separator of one code unit: the pieces between the
    separators, in order; the empty string gives one empty piece. *)
Fixpoint split (sep : N) (s : jsstring) : list jsstring :=
  match s with
  | [] => [[]]
  | c :: s' =>
      if c =? sep then [] :: split sep s'
      else match split sep s' with
           | p :: ps => (c :: p) :: ps
           | [] => [[c]]
           end
  end.

(** The decimal digits of [n], most significant first, before [acc]. *)
Fixpoint digits_before (fuel : nat) (n : N) (acc : jsstring) : jsstring :=
  match fuel with
  | O => acc
  | S fuel' =>
      let acc' := (48 + n mod 10) :: acc in
      if n / 10 =? 0 then acc' else digits_before fuel' (n / 10) acc'
  end.

(** [String(n)] (as in a template literal) for a non-negative integer below
    [10^21]: its decimal digits.  A number below [2^k] has at most [k]
    digits, so the fuel never runs out. *)
Definition to_decimal (n : N) : jsstring :=
  digits_before (S (N.to_nat (N.log2 n))) n [].

(** The string without its longest prefix of code units satisfying [p]. *)
Fixpoint drop_while (p : N -> bool) (s : jsstring) : jsstring :=
  match s with
  | c :: s' => if p c then drop_while p s' else s
  | [] => []
  end.

(** [StrWhiteSpaceChar]: white space and line terminators. *)
Definition is_white_space (c : N) : bool :=
  existsb (N.eqb c)
    [9; 10; 11; 12; 13; 32; 160; 5760; 8232; 8233; 8239; 8287; 12288; 65279]
  || ((8192 <=? c) && (c <=? 8202)).

(** The value of a code unit as a digit of the given radix. *)
Definition digit_val (radix c : N) : option N :=
  let v :=
    if (48 <=? c) && (c <=? 57) then Some (c - 48)
    else if (97 <=? c) && (c <=? 122) then Some (c - 87)
    else if (65 <=? c) && (c <=? 90) then Some (c - 55)
    else None in
  match v with
  | Some d => if d <? radix then Some d else None
  | None => None
  end.

(** The decimal digits ['0'] to ['9']. *)
Definition is_digit (c : N) : Prop := 48 <= c <= 57.

(** The number the longest prefix of digits denotes, after [acc]. *)
Fixpoint parse_digits (radix acc : N) (s : jsstring) : N :=
  match s with
  | [] => acc
  | c :: s' =>
      match digit_val radix c with
      | Some d => parse_digits radix (acc * radix + d) s'
      | None => acc
      end
  end.

(** The digits after the sign and the prefix: [NaN] ([None]) when there is
    none. *)
Definition parse_unsigned (radix : N) (s : jsstring) : option N :=
  match s with
  | c :: _ =>
      if is_Some_dec (digit_val radix c) then Some (parse_digits radix 0 s)
      else None
  | [] => None
  end.

(** A leading [0x] or [0X] selects radix 16. *)
Definition parse_radix (s : jsstring) : option N :=
  match s with
  | c0 :: c1 :: s' =>
      if (c0 =? 48) && ((c1 =? 120) || (c1 =? 88)) then parse_unsigned 16 s'
      else parse_unsigned 10 s
  | _ => parse_unsigned 10 s
  end.

(** [parseInt(s)] with no radix argument; [None] is [NaN]. *)
Definition parseInt (s : jsstring) : option Z :=
  match drop_while is_white_space s with
  | c :: s' =>
      if c =? 45 then (fun n => (- Z.of_N n)%Z) <$> parse_radix s'
      else if c =? 43 then Z.of_N <$> parse_radix s'
      else Z.of_N <$> parse_radix (c :: s')
  | [] => None
  end.

End Js.

(** ** [btoa] and [atob] *)

Module Base64.

(** The character of a sextet in the base64 alphabet. *)
Definition b64char (n : N) : N :=
  if n <? 26 then 65 + n
  else if n <? 52 then 97 + (n - 26)
  else if n <? 62 then 48 + (n - 52)
  else if n =? 62 then 43
  else 47.

(** The sextet of a character of the alphabet. *)
Definition sextet_of (c : N) : option N :=
  if (65 <=? c) && (c <=? 90) then Some (c - 65)
  else if (97 <=? c) && (c <=? 122) then Some (c - 97 + 26)
  else if (48 <=? c) && (c <=? 57) then Some (c - 48 + 52)
  else if c =? 43 then Some 62
  else if c =? 47 then Some 63
  else None.

Definition pad : N := 61.

(** Three bytes give four characters; one or two trailing bytes give two or
    three characters and the padding. *)
Fixpoint encode (l : list N) : list N :=
  match l with
  | [] => []
  | [a] =>
      [b64char (N.shiftr a 2); b64char (N.shiftl (N.land a 3) 4); pad; pad]
  | [a; b] =>
      [b64char (N.shiftr a 2);
       b64char (N.lor (N.shiftl (N.land a 3) 4) (N.shiftr b 4));
       b64char (N.shiftl (N.land b 15) 2); pad]
  | a :: b :: c :: rest =>
      b64char (N.shiftr a 2)
      :: b64char (N.lor (N.shiftl (N.land a 3) 4) (N.shiftr b 4))
      :: b64char (N.lor (N.shiftl (N.land b 15) 2) (N.shiftr c 6))
      :: b64char (N.land c 63)
      :: encode rest
  end.

(** The sextets of the bytes, without the characters and the padding. *)
Fixpoint sextets (l : list N) : list N :=
  match l with
  | [] => []
  | [a] => [N.shiftr a 2; N.shiftl (N.land a 3) 4]
  | [a; b] =>
      [N.shiftr a 2;
       N.lor (N.shiftl (N.land a 3) 4) (N.shiftr b 4);
       N.shiftl (N.land b 15) 2]
  | a :: b :: c :: rest =>
      N.shiftr a 2
      :: N.lor (N.shiftl (N.land a 3) 4) (N.shiftr b 4)
      :: N.lor (N.shiftl (N.land b 15) 2) (N.shiftr c 6)
      :: N.land c 63
      :: sextets rest
  end.

(** The numbers below [k], to check a property of bytes or sextets on all of
    them. *)
Definition below (k : nat) : list N := map N.of_nat (seq 0 k).

(** Strings [btoa] accepts: every code unit is at most [0xFF]. *)
Definition latin1 (s : jsstring) : Prop := Forall (fun c => c <= 255) s.

(** [btoa(s)]: throws ([None]) when a code unit is above [0xFF]. *)
Definition btoa (s : jsstring) : option jsstring :=
  if existsb (fun c => 255 <? c) s then None else Some (encode s).

Definition is_ascii_whitespace (c : N) : bool :=
  existsb (N.eqb c) [9; 10; 12; 13; 32].

(** The data without its one or two final padding characters. *)
Definition strip_padding (l : list N) : list N :=
  match rev l with
  | a :: b :: r =>
      if a =? pad then (if b =? pad then rev r else rev (b :: r)) else l
  | [a] => if a =? pad then [] else l
  | [] => l
  end.

(** Four sextets give three bytes; the bits left over by two or three final
    sextets are dropped. *)
Fixpoint decode (l : list N) : list N :=
  match l with
  | a :: b :: c :: d :: rest =>
      N.lor (N.shiftl a 2) (N.shiftr b 4)
      :: N.lor (N.shiftl (N.land b 15) 4) (N.shiftr c 2)
      :: N.lor (N.shiftl (N.land c 3) 6) d
      :: decode rest
  | [a; b; c] =>
      [N.lor (N.shiftl a 2) (N.shiftr b 4);
       N.lor (N.shiftl (N.land b 15) 4) (N.shiftr c 2)]
  | [a; b] => [N.lor (N.shiftl a 2) (N.shiftr b 4)]
  | _ => []
  end.

(** [atob(data)], the forgiving base64 decoding: white space is skipped, the
    padding of data whose length is a multiple of four is removed, and the
    call throws ([None]) on a length of [4k+1] or a character outside the
    alphabet. *)
Definition atob (data : jsstring) : option jsstring :=
  let data := List.filter (fun c => negb (is_ascii_whitespace c)) data in
  let data :=
    if (length data mod 4 =? 0)%nat then strip_padding data else data in
  if (length data mod 4 =? 1)%nat then None
  else decode <$> mapM sextet_of data.

End Base64.

(** ** [SecurityUtils]: configuration, validation and the rate limiter *)

Module SecurityUtils.

Definition MAX_LOGIN_ATTEMPTS : N := 5.
Definition LOCKOUT_DURATION : N := 15 * 60 * 1000.
Definition MAX_MESSAGE_LENGTH : N := 1000.
Definition SESSION_TIMEOUT : N := 24 * 60 * 60 * 1000.

(** [validateMessage]: [!message] holds of the empty string only. *)
Definition validateMessage (message : jsstring) : bool :=
  if bool_decide (message = []) || (MAX_MESSAGE_LENGTH <? N.of_nat (length message))
  then false
  else true.

(** A value of the [loginAttempts] map: [lockedUntil] is an optional field. *)
Record attempts := Attempts {
  count : N;
  lastAttempt : N;
  lockedUntil : option N
}.

(** The result object [{ allowed, remainingTime? }]. *)
Record rate_result := RateResult {
  allowed : bool;
  remainingTime : option N
}.

(** Truthiness of an optional number field: [undefined] and [0] are falsy. *)
Definition truthy (o : option N) : bool :=
  match o with
  | Some n => negb (n =? 0)
  | None => false
  end.

(** The number read from a field known to be truthy. *)
Definition value_of (o : option N) : N := default 0 o.

(** [Math.ceil(a / b)] for non-negative integers [a] and a positive integer
    [b].  (The float quotient is exact enough for the ceiling to be the
    integer one on millisecond clocks.) *)
Definition ceil_div (a b : N) : N := (a + (b - 1)) / b.

Definition checkRateLimit (identifier : jsstring) (now : N)
    (loginAttempts : gmap jsstring attempts)
  : rate_result * gmap jsstring attempts :=
  match loginAttempts !! identifier with
  | None =>
      (RateResult true None,
       <[identifier := Attempts 1 now None]> loginAttempts)
  | Some a =>
      (* Check if user is currently locked out *)
      if truthy (lockedUntil a) && (now <? value_of (lockedUntil a)) then
        (RateResult false
           (Some (ceil_div (value_of (lockedUntil a) - now) 1000)),
         loginAttempts)
      (* Reset attempts if lockout period has passed *)
      else if truthy (lockedUntil a) && (value_of (lockedUntil a) <=? now) then
        (RateResult true None,
         <[identifier := Attempts 1 now None]> loginAttempts)
      (* Check if max attempts reached *)
      else if MAX_LOGIN_ATTEMPTS <=? count a then
        let lockedUntil' := now + LOCKOUT_DURATION in
        (RateResult false (Some (ceil_div LOCKOUT_DURATION 1000)),
         <[identifier := Attempts (count a) (lastAttempt a) (Some lockedUntil')]>
           loginAttempts)
      (* Increment attempts *)
      else
        (RateResult true None,
         <[identifier := Attempts (count a + 1) now None]> loginAttempts)
  end.

Definition resetRateLimit (identifier : jsstring)
    (loginAttempts : gmap jsstring attempts) : gmap jsstring attempts :=
  delete identifier loginAttempts.

(** The table after a run of [checkRateLimit] calls on one identifier, at the
    given times, from the given table. *)
Definition check_many (identifier : jsstring) (times : list N)
    (loginAttempts : gmap jsstring attempts) : gmap jsstring attempts :=
  foldl (fun m t => snd (checkRateLimit identifier t m)) loginAttempts times.

(** One call of the limiter's interface. *)
Inductive call :=
| CallCheck (identifier : jsstring) (now : N)
| CallReset (identifier : jsstring).

Definition run_call (c : call) (m : gmap jsstring attempts)
  : gmap jsstring attempts :=
  match c with
  | CallCheck i now => snd (checkRateLimit i now m)
  | CallReset i => resetRateLimit i m
  end.

(** The tables the process can hold: the empty one it starts with, and what
    any call makes of a table it can hold. *)
Inductive reachable : gmap jsstring attempts -> Prop :=
| reachable_init : reachable ∅
| reachable_step c m : reachable m -> reachable (run_call c m).

(** *** Access tokens *)

Definition colon : N := 58.

(** [generateAccessToken]: [None] when [btoa] throws. *)
Definition generateAccessToken (userId resource : jsstring) (now : N)
  : option jsstring :=
  let timestamp := now in
  let data := userId ++ [colon] ++ resource ++ [colon] ++ Js.to_decimal timestamp in
  Base64.btoa data.

(** [parseInt] of an element of a destructured array: [undefined] reads as the
    string ["undefined"]. *)
Definition parseInt_elem (o : option jsstring) : option Z :=
  Js.parseInt (default (Js.str "undefined") o).

Definition validateAccessToken (token userId resource : jsstring) (now : N)
  : bool :=
  match Base64.atob token with
  | None => false                                   (* catch *)
  | Some decoded =>
      let parts := Js.split colon decoded in
      let tokenUserId := parts !! 0%nat in
      let tokenResource := parts !! 1%nat in
      let timestamp := parts !! 2%nat in
      if negb (bool_decide (tokenUserId = Some userId))
         || negb (bool_decide (tokenResource = Some resource))
      then false
      else
        (* Check if token is not expired (24 hours) *)
        match parseInt_elem timestamp with
        | Some t =>
            let tokenAge := (Z.of_N now - t)%Z in
            (tokenAge <? Z.of_N SESSION_TIMEOUT)%Z
        | None => false                             (* NaN < n *)
        end
  end.

End SecurityUtils.

(** ** JavaScript values and JSON *)

Module JsValue.

(** Numbers: the integers and [NaN] (every number the program computes is a
    count of milliseconds). *)
Inductive number :=
| NaN
| Num (z : Z).

(** Values: the primitives, arrays, and plain objects as the list of their
    own properties in property order. *)
#[local] Set Warnings "-register-all".
Inductive value :=
| VUndefined
| VNull
| VBool (b : bool)
| VNumber (n : number)
| VString (s : jsstring)
| VArray (items : list value)
| VObject (fields : list (jsstring * value)).

(** What [JSON.parse(JSON.stringify(v))] is, when [JSON.stringify(v)] is a
    string ([None]: it is [undefined]).  [NaN] is written [null]; an
    [undefined] array item is written [null]; a property whose value is
    [undefined] is left out. *)
Fixpoint json_roundtrip (v : value) : option value :=
  match v with
  | VUndefined => None
  | VNull => Some VNull
  | VBool b => Some (VBool b)
  | VNumber NaN => Some VNull
  | VNumber (Num z) => Some (VNumber (Num z))
  | VString s => Some (VString s)
  | VArray items =>
      Some (VArray (map (fun x => default VNull (json_roundtrip x)) items))
  | VObject fields =>
      Some (VObject
              (omap (fun kv => pair (fst kv) <$> json_roundtrip (snd kv)) fields))
  end.

(** The values [JSON.stringify] and [JSON.parse] carry unchanged. *)
Fixpoint json_clean (v : value) : bool :=
  match v with
  | VUndefined => false
  | VNumber NaN => false
  | VArray items => forallb json_clean items
  | VObject fields => forallb (fun kv => json_clean (snd kv)) fields
  | _ => true
  end.

(** Induction on values, through the items of arrays and the properties of
    objects. *)
Section ValueInd.

Variable P : value -> Prop.
Hypothesis Hundefined : P VUndefined.
Hypothesis Hnull : P VNull.
Hypothesis Hbool : forall b, P (VBool b).
Hypothesis Hnumber : forall n, P (VNumber n).
Hypothesis Hstring : forall s, P (VString s).
Hypothesis Harray : forall items, Forall P items -> P (VArray items).
Hypothesis Hobject :
  forall fields, Forall (fun kv => P (snd kv)) fields -> P (VObject fields).

Fixpoint value_ind' (v : value) : P v :=
  match v with
  | VUndefined => Hundefined
  | VNull => Hnull
  | VBool b => Hbool b
  | VNumber n => Hnumber n
  | VString s => Hstring s
  | VArray items =>
      Harray items
        ((fix go (l : list value) : Forall P l :=
            match l with
            | [] => @List.Forall_nil _ P
            | x :: l' => @List.Forall_cons _ P x l' (value_ind' x) (go l')
            end) items)
  | VObject fields =>
      Hobject fields
        ((fix go (l : list (jsstring * value))
            : Forall (fun kv => P (snd kv)) l :=
            match l with
            | [] => @List.Forall_nil _ _
            | kv :: l' =>
                @List.Forall_cons _ (fun kv => P (snd kv)) kv l'
                  (value_ind' (snd kv)) (go l')
            end) fields)
  end.

End ValueInd.

(** The own property [key] of an object: [undefined] when there is none. *)
Fixpoint own_property (key : jsstring) (fields : list (jsstring * value))
  : value :=
  match fields with
  | [] => VUndefined
  | (k, v) :: fields' =>
      if bool_decide (k = key) then v else own_property key fields'
  end.

(** [v.key] for a key that is no index and that no prototype defines: a
    [TypeError] ([None]) on [undefined] and [null], [undefined] on the other
    primitives and on arrays. *)
Definition member (v : value) (key : jsstring) : option value :=
  match v with
  | VUndefined | VNull => None
  | VObject fields => Some (own_property key fields)
  | _ => Some VUndefined
  end.

Section ToNumber.

(** The number a string denotes ([StringToNumber] of the language), and the
    number an array or a plain object converts to through its [valueOf] and
    [toString] ([None]: the conversion throws a [TypeError]). *)
Variable StringToNumber : jsstring -> number.
Variable ObjectToNumber : value -> option number.

(** [ToNumber(v)]. *)
Definition to_number (v : value) : option number :=
  match v with
  | VUndefined => Some NaN
  | VNull => Some (Num 0)
  | VBool b => Some (Num (if b then 1 else 0))
  | VNumber n => Some n
  | VString s => Some (StringToNumber s)
  | VArray _ | VObject _ => ObjectToNumber v
  end.

(** [n > v] for a number [n]: false when [v] converts to [NaN]. *)
Definition number_gt (n : N) (v : value) : option bool :=
  match to_number v with
  | Some NaN => Some false
  | Some (Num z) => Some (z <? Z.of_N n)%Z
  | None => None
  end.

End ToNumber.

End JsValue.

(** ** [SessionManager] *)

Module SessionManager.

Import Js JsValue.

(** What [localStorage] holds under a key, as far as [JSON.parse] and a
    truthiness test tell: the empty string, a string [JSON.parse] rejects, or
    the JSON text of a value. *)
Inductive item :=
| EmptyText
| Malformed
| Document (v : value).

Abbreviation storage := (gmap jsstring item).

Definition SESSION_KEY : jsstring := Js.str "deepbug_session".
Definition ADMIN_SESSION_KEY : jsstring := Js.str "deepbug_admin_session".

(** [localStorage.setItem(key, JSON.stringify(v))]; [JSON.stringify] of an
    object is always a string. *)
Definition setItem_json (key : jsstring) (v : value) (st : storage) : storage :=
  match json_roundtrip v with
  | Some j => <[key := Document j]> st
  | None => <[key := Malformed]> st           (* the text "undefined" *)
  end.

(** The two clock readings are those of [timestamp] and of [expires]. *)
Definition setUserSession (userId : jsstring) (userData : value)
    (now1 now2 : N) (st : storage) : storage :=
  let session :=
    VObject [ (Js.str "userId", VString userId);
              (Js.str "userData", userData);
              (Js.str "timestamp", VNumber (Num (Z.of_N now1)));
              (Js.str "expires",
               VNumber (Num (Z.of_N (now2 + SecurityUtils.SESSION_TIMEOUT)))) ] in
  setItem_json SESSION_KEY session st.

Definition setAdminSession (adminId : jsstring) (adminData : value)
    (now1 now2 : N) (st : storage) : storage :=
  let session :=
    VObject [ (Js.str "adminId", VString adminId);
              (Js.str "adminData", adminData);
              (Js.str "timestamp", VNumber (Num (Z.of_N now1)));
              (Js.str "expires",
               VNumber (Num (Z.of_N (now2 + SecurityUtils.SESSION_TIMEOUT)))) ] in
  setItem_json ADMIN_SESSION_KEY session st.

Definition clearUserSession (st : storage) : storage := delete SESSION_KEY st.
Definition clearAdminSession (st : storage) : storage :=
  delete ADMIN_SESSION_KEY st.

(** [try { body } catch { return null; }] *)
Definition catch_null (body : completion value * storage)
  : completion value * storage :=
  match body with
  | (Throw, st) => (Return VNull, st)
  | r => r
  end.

Section Getters.

Variable StringToNumber : jsstring -> number.
Variable ObjectToNumber : value -> option number.

(** The block inside [try] of [getUserSession] and [getAdminSession], for the
    key the getter reads and the function it clears the session with. *)
Definition get_body (key : jsstring) (clear : storage -> storage) (now : N)
    (st : storage)
  : completion value * storage :=
  match st !! key with
  | None | Some EmptyText => (Return VNull, st)      (* if (!session) *)
  | Some Malformed => (Throw, st)                    (* JSON.parse throws *)
  | Some (Document parsed) =>
      match member parsed (Js.str "expires") with
      | None => (Throw, st)                          (* TypeError *)
      | Some expires =>
          match number_gt StringToNumber ObjectToNumber now expires with
          | None => (Throw, st)                      (* TypeError *)
          | Some true => (Return VNull, clear st)
          | Some false => (Return parsed, st)
          end
      end
  end.

Definition getUserSession (now : N) (st : storage)
  : completion value * storage :=
  catch_null (get_body SESSION_KEY clearUserSession now st).

Definition getAdminSession (now : N) (st : storage)
  : completion value * storage :=
  catch_null (get_body ADMIN_SESSION_KEY clearAdminSession now st).

Definition isValidSession (now : N) (st : storage) : bool :=
  match fst (getUserSession now st) with
  | Return VNull => false
  | _ => true
  end.

Definition isValidAdminSession (now : N) (st : storage) : bool :=
  match fst (getAdminSession now st) with
  | Return VNull => false
  | _ => true
  end.

End Getters.

End SessionManager.

(** ** [ChatService] over the document store *)

Module ChatService.

Import Js.

Abbreviation docid := jsstring.

Variant message_type := TypeText | TypeImage | TypeFile.

(** The documents of the collections [chat], [chatSessions] and
    [bannedUsers], without their [id], which is the key they are stored
    under.  A field written as [serverTimestamp()] holds the time the server
    assigned; an optional field is [None] in a document that has no such
    property. *)
Record ChatMessage := {
  msg_userId : jsstring;
  msg_userName : jsstring;
  msg_userAvatar : option jsstring;
  msg_message : jsstring;
  msg_timestamp : N;
  msg_isDeleted : bool;
  msg_deletedBy : option jsstring;
  msg_type : message_type;
  msg_isAdmin : bool
}.

Record ChatSession := {
  isOpen : bool;
  openedBy : option jsstring;
  closedBy : option jsstring;
  openedAt : option N;
  closedAt : option N;
  participants : list jsstring;
  messageCount : N
}.

Record BannedUser := {
  ban_userId : jsstring;
  bannedBy : jsstring;
  reason : jsstring;
  bannedAt : N;
  expiresAt : option Z;
  isActive : bool
}.

(** The store, and the fate of the requests to come: the head of [faults]
    tells whether the next request is rejected (no entry: it is served). *)
Record world := {
  chat : gmap docid ChatMessage;
  chatSessions : gmap docid ChatSession;
  bannedUsers : gmap docid BannedUser;
  faults : list bool
}.

Definition with_faults (fs : list bool) (w : world) : world :=
  {| chat := chat w; chatSessions := chatSessions w;
     bannedUsers := bannedUsers w; faults := fs |}.

Definition with_chat (c : gmap docid ChatMessage) (w : world) : world :=
  {| chat := c; chatSessions := chatSessions w;
     bannedUsers := bannedUsers w; faults := faults w |}.

Definition with_chatSessions (c : gmap docid ChatSession) (w : world) : world :=
  {| chat := chat w; chatSessions := c;
     bannedUsers := bannedUsers w; faults := faults w |}.

Definition with_bannedUsers (b : gmap docid BannedUser) (w : world) : world :=
  {| chat := chat w; chatSessions := chatSessions w;
     bannedUsers := b; faults := faults w |}.

(** *** Asynchronous code: a state and exception monad *)

Definition M (A : Type) : Type := world -> completion A * world.

Definition ret {A} (a : A) : M A := fun w => (Return a, w).

Definition bind {A B} (m : M A) (k : A -> M B) : M B :=
  fun w =>
    match m w with
    | (Return a, w') => k a w'
    | (Throw, w') => (Throw, w')
    end.

(** [try { body } catch (error) { handler }] *)
Definition try_catch {A} (body handler : M A) : M A :=
  fun w =>
    match body w with
    | (Throw, w') => handler w'
    | r => r
    end.

Notation "'let*' x ':=' m 'in' k" := (bind m (fun x => k))
  (at level 10, x name, m at level 100, k at level 200).
Notation "m ';;' k" := (bind m (fun _ => k))
  (at level 100, k at level 200, right associativity).

(** *** The requests to the store *)

(** A request is served or rejected. *)
Definition request : M unit :=
  fun w =>
    match faults w with
    | true :: fs => (Throw, with_faults fs w)
    | false :: fs => (Return tt, with_faults fs w)
    | [] => (Return tt, w)
    end.

(** The next [n] requests are served. *)
Definition served (n : nat) (w : world) : Prop :=
  Forall (fun rejected => rejected = false) (take n (faults w)).

(** The documents a query returns, in the order of the store. *)
Definition active_bans (userId : jsstring) (bans : gmap docid BannedUser)
  : list (docid * BannedUser) :=
  List.filter
    (fun d => bool_decide (ban_userId (snd d) = userId)
              && bool_decide (isActive (snd d) = true))
    (map_to_list bans).

Definition open_sessions (sessions : gmap docid ChatSession)
  : list (docid * ChatSession) :=
  take 1 (List.filter (fun d => bool_decide (isOpen (snd d) = true))
                      (map_to_list sessions)).

(** [getDocs(query(collection(db, 'bannedUsers'), where('userId', '==',
    userId), where('isActive', '==', true)))] *)
Definition getDocs_activeBans (userId : jsstring)
  : M (list (docid * BannedUser)) :=
  request ;; fun w => (Return (active_bans userId (bannedUsers w)), w).

(** [getDocs(query(collection(db, 'chatSessions'), where('isOpen', '==',
    true), limit(1)))] *)
Definition getDocs_openSessions : M (list (docid * ChatSession)) :=
  request ;; fun w => (Return (open_sessions (chatSessions w)), w).

(** [updateDoc] changes a document that exists and is rejected otherwise. *)
Definition updateDoc_ban (id : docid) (f : BannedUser -> BannedUser) : M unit :=
  request ;;
  fun w =>
    match bannedUsers w !! id with
    | Some d => (Return tt, with_bannedUsers (<[id := f d]> (bannedUsers w)) w)
    | None => (Throw, w)
    end.

Definition updateDoc_session (id : docid) (f : ChatSession -> ChatSession)
  : M unit :=
  request ;;
  fun w =>
    match chatSessions w !! id with
    | Some d => (Return tt, with_chatSessions (<[id := f d]> (chatSessions w)) w)
    | None => (Throw, w)
    end.

(** [setDoc] writes the document under the given identifier.  The store is
    opened with the default settings ([getFirestore(app)] in
    [config/firebase.ts]), under which [setDoc] throws, before any request
    is made, when a field of the data is [undefined].  The object [banUser]
    writes always has the property [expiresAt] and the object [sendMessage]
    writes always has the property [userAvatar]: [None] there is
    [undefined], not an absent property. *)
Definition setDoc_ban (id : docid) (d : BannedUser) : M unit :=
  match expiresAt d with
  | None => fun w => (Throw, w)                  (* expiresAt: undefined *)
  | Some _ =>
      request ;;
      fun w => (Return tt, with_bannedUsers (<[id := d]> (bannedUsers w)) w)
  end.

Definition setDoc_message (id : docid) (d : ChatMessage) : M unit :=
  match msg_userAvatar d with
  | None => fun w => (Throw, w)                  (* userAvatar: undefined *)
  | Some _ =>
      request ;;
      fun w => (Return tt, with_chat (<[id := d]> (chat w)) w)
  end.

(** *** The service *)

(** The result object [{ success, message }]. *)
Record result := Result {
  success : bool;
  message : string
}.

Definition isChatOpen : M bool :=
  try_catch
    (let* snapshot := getDocs_openSessions in
     ret (negb (bool_decide (snapshot = []))))
    (ret false).

(** [{ isActive: false }] merged into a ban. *)
Definition deactivate (b : BannedUser) : BannedUser :=
  {| ban_userId := ban_userId b; bannedBy := bannedBy b; reason := reason b;
     bannedAt := bannedAt b; expiresAt := expiresAt b; isActive := false |}.

(** [banData.expiresAt && banData.expiresAt.toDate() < new Date()] *)
Definition expired (banData : BannedUser) (now : N) : bool :=
  match expiresAt banData with
  | Some e => (e <? Z.of_N now)%Z
  | None => false
  end.

(** [now] is the reading of [new Date()]. *)
Definition isUserBanned (userId : jsstring) (now : N) : M bool :=
  try_catch
    (let* snapshot := getDocs_activeBans userId in
     match snapshot with
     | [] => ret false
     | (banId, banData) :: _ =>
         (* Check if ban has expired *)
         if expired banData now then
           (* Automatically deactivate expired ban *)
           updateDoc_ban banId deactivate ;;
           ret false
         else ret true
     end)
    (ret false).

(** [{ participants: [...sessionData.participants, userId], messageCount:
    sessionData.messageCount + 1 }] merged into a session. *)
Definition add_participant (userId : jsstring) (sessionData s : ChatSession)
  : ChatSession :=
  {| isOpen := isOpen s; openedBy := openedBy s; closedBy := closedBy s;
     openedAt := openedAt s; closedAt := closedAt s;
     participants := participants sessionData ++ [userId];
     messageCount := messageCount sessionData + 1 |}.

(** [{ messageCount: sessionData.messageCount + 1 }] merged into a session. *)
Definition count_message (sessionData s : ChatSession) : ChatSession :=
  {| isOpen := isOpen s; openedBy := openedBy s; closedBy := closedBy s;
     openedAt := openedAt s; closedAt := closedAt s;
     participants := participants s;
     messageCount := messageCount sessionData + 1 |}.

Definition updateSessionParticipants (userId : jsstring) : M unit :=
  try_catch
    (let* snapshot := getDocs_openSessions in
     match snapshot with
     | (sessionId, sessionData) :: _ =>
         if negb (bool_decide (userId ∈ participants sessionData)) then
           updateDoc_session sessionId (add_participant userId sessionData)
         else
           updateDoc_session sessionId (count_message sessionData)
     | [] => ret tt
     end)
    (ret tt).

Section Sanitized.

(** [SecurityUtils.sanitizeHTML], the sanitizer of the DOMPurify library. *)
Variable sanitizeHTML : jsstring -> jsstring.

(** [now] is the clock reading of the ban check, [messageId] the identifier
    [doc(collection(db, 'chat'))] generates, and [serverTime] the value the
    server gives [serverTimestamp()]. *)
Definition sendMessage (userId userName message : jsstring)
    (userAvatar : option jsstring) (isAdmin : bool)
    (now : N) (messageId : docid) (serverTime : N) : M result :=
  try_catch
    ((* Validate message *)
     if negb (SecurityUtils.validateMessage message) then
       ret (Result false "الرسالة غير صالحة أو طويلة جداً.")
     else
       (* Check if user is banned *)
       let* isBanned := isUserBanned userId now in
       if isBanned then ret (Result false "تم حظرك من الدردشة.")
       else
         (* Check if chat is open *)
         let* chatOpen := isChatOpen in
         if negb chatOpen then ret (Result false "الدردشة مغلقة حالياً.")
         else
           (* Sanitize message *)
           let sanitizedMessage := sanitizeHTML message in
           let messageData :=
             {| msg_userId := userId;
                msg_userName := sanitizeHTML userName;
                msg_userAvatar := userAvatar;
                msg_message := sanitizedMessage;
                msg_timestamp := serverTime;
                msg_isDeleted := false;
                msg_deletedBy := None;
                msg_type := TypeText;
                msg_isAdmin := isAdmin |} in
           (* Create message document *)
           setDoc_message messageId messageData ;;
           (* Update session participant list and message count *)
           updateSessionParticipants userId ;;
           ret (Result true "تم إرسال الرسالة بنجاح."))
    (ret (Result false "خطأ في إرسال الرسالة.")).

(** [duration ? new Date(Date.now() + duration) : undefined]: a number is
    truthy unless it is [0]. *)
Definition expiry_of (duration : option Z) (now : N) : option Z :=
  match duration with
  | Some d => if (d =? 0)%Z then None else Some (Z.of_N now + d)%Z
  | None => None
  end.

(** [checkNow] is the clock reading of the ban check, [now] that of
    [Date.now()], [banId] the identifier [doc(collection(db, 'bannedUsers'))]
    generates, and [serverTime] the value the server gives
    [serverTimestamp()]. *)
Definition banUser (userId adminId reason' : jsstring) (duration : option Z)
    (checkNow now : N) (banId : docid) (serverTime : N) : M result :=
  try_catch
    ((* Check if user is already banned *)
     let* existingBan := isUserBanned userId checkNow in
     if existingBan then ret (Result false "المستخدم محظور بالفعل.")
     else
       let banData :=
         {| ban_userId := userId;
            bannedBy := adminId;
            reason := sanitizeHTML reason';
            bannedAt := serverTime;
            expiresAt := expiry_of duration now;
            isActive := true |} in
       setDoc_ban banId banData ;;
       ret (Result true "تم حظر المستخدم بنجاح."))
    (ret (Result false "خطأ في حظر المستخدم.")).

End Sanitized.

(** The worlds that hold the same documents. *)
Definition same_store (w w' : world) : Prop :=
  chat w' = chat w /\ chatSessions w' = chatSessions w
  /\ bannedUsers w' = bannedUsers w.

(** *** Stores for the examples *)

(** A store with no document, that serves every request. *)
Definition empty_world : world :=
  {| chat := ∅; chatSessions := ∅; bannedUsers := ∅; faults := [] |}.

(** A ban that expired at time 50, found at time 60. *)
Definition expired_ban_world : world :=
  {| chat := ∅; chatSessions := ∅;
     bannedUsers :=
       {[ str "ban1" :=
            {| ban_userId := str "u1"; bannedBy := str "admin";
               reason := str "spam"; bannedAt := 10;
               expiresAt := Some 50%Z; isActive := true |} ]};
     faults := [] |}.

(** A store with no open chat session and a permanent ban of [u1]. *)
Definition closed_chat_world : world :=
  {| chat := ∅; chatSessions := ∅;
     bannedUsers :=
       {[ str "ban1" :=
            {| ban_userId := str "u1"; bannedBy := str "admin";
               reason := str "spam"; bannedAt := 10;
               expiresAt := None; isActive := true |} ]};
     faults := [] |}.

End ChatService.

(** ** [SecurityUtils]: the validators of names and passwords, and
    [escapeHTML] *)

Module Validation.

Definition MAX_NAME_LENGTH : N := 50.
Definition MIN_PASSWORD_LENGTH : N := 8.

Definition in_range (lo hi c : N) : bool := (lo <=? c) && (c <=? hi).

(** The class of [nameRegex]: the ASCII letters and digits, the code units
    from [0x0600] to [0x06FF], [\s] (the white space and the line terminators
    of the language), and the characters [-], [_] and [.]. *)
Definition name_char (c : N) : bool :=
  in_range 97 122 c || in_range 65 90 c || in_range 48 57 c
  || in_range 1536 1791 c || Js.is_white_space c
  || (c =? 45) || (c =? 95) || (c =? 46).

(** [/^[...]+$/.test(s)]: one or more characters, all of the class, up to
    the end of the string. *)
Definition test_all_in_class (class : N -> bool) (s : jsstring) : bool :=
  negb (bool_decide (s = [])) && forallb class s.

Definition validateName (name : jsstring) : bool :=
  if bool_decide (name = [])
     || (MAX_NAME_LENGTH <? N.of_nat (length name))
     || (N.of_nat (length name) <? 2)
  then false
  else
    (* Allow only letters, numbers, spaces, and basic punctuation *)
    test_all_in_class name_char name.

(** [.] of a regular expression without the [s] flag: any code unit but a
    line terminator. *)
Definition is_line_terminator (c : N) : bool :=
  existsb (N.eqb c) [10; 13; 8232; 8233].

(** [(?=.*[class])] at the start of [s]: some character of the class stands
    after a run of characters that are no line terminators. *)
Fixpoint lookahead_dots_then (class : N -> bool) (s : jsstring) : bool :=
  match s with
  | [] => false
  | c :: s' =>
      class c || (negb (is_line_terminator c) && lookahead_dots_then class s')
  end.

Definition letter (c : N) : bool := in_range 65 90 c || in_range 97 122 c.
Definition digit (c : N) : bool := in_range 48 57 c.

(** The class [[A-Za-z\d@$!%*#?&]] of [passwordRegex]. *)
Definition password_char (c : N) : bool :=
  letter c || digit c || existsb (N.eqb c) [64; 36; 33; 37; 42; 35; 63; 38].

(** [/^(?=.*[A-Za-z])(?=.*\d)[A-Za-z\d@$!%*#?&]{8,}$/.test(s)] *)
Definition test_password (s : jsstring) : bool :=
  lookahead_dots_then letter s
  && lookahead_dots_then digit s
  && (forallb password_char s && (8 <=? length s)%nat).

Definition validatePassword (password : jsstring) : bool :=
  if bool_decide (password = [])
     || (N.of_nat (length password) <? MIN_PASSWORD_LENGTH)
  then false
  else
    (* Require at least one letter and one number *)
    test_password password.

(** The serialization of a text node, which [div.innerHTML] is after
    [div.textContent = text]: [&], the no-break space, [<] and [>] are
    written as character references. *)
Definition escape_char (c : N) : jsstring :=
  if c =? 38 then [38; 97; 109; 112; 59]             (* &amp; *)
  else if c =? 160 then [38; 110; 98; 115; 112; 59]  (* &nbsp; *)
  else if c =? 60 then [38; 108; 116; 59]            (* &lt; *)
  else if c =? 62 then [38; 103; 116; 59]            (* &gt; *)
  else [c].

Definition escapeHTML (text : jsstring) : jsstring :=
  flat_map escape_char text.

End Validation.

(** ** [AuthService]: the parts that use the rate limiter and the sessions *)

Module AuthService.

Import Js JsValue SessionManager.

(** The identifier [`admin_${email}`] that [loginAdmin] counts attempts
    under; [registerUser] and [loginUser] count under [email] itself. *)
Definition admin_identifier (email : jsstring) : jsstring :=
  str "admin_" ++ email.

(** Truthiness of a value. *)
Definition truthy_value (v : value) : bool :=
  match v with
  | VUndefined | VNull => false
  | VBool b => b
  | VNumber NaN => false
  | VNumber (Num z) => negb (z =? 0)%Z
  | VString s => negb (bool_decide (s = []))
  | VArray _ | VObject _ => true
  end.

Section Getters.

Variable StringToNumber : jsstring -> number.
Variable ObjectToNumber : value -> option number.

(** [session ? session[key] : null] on what a session getter returned. *)
Definition data_of (key : jsstring) (r : completion value * storage)
  : completion value * storage :=
  match r with
  | (Return session, st) =>
      if truthy_value session then
        match member session key with
        | Some data => (Return data, st)
        | None => (Throw, st)                        (* TypeError *)
        end
      else (Return VNull, st)
  | (Throw, st) => (Throw, st)
  end.

Definition getCurrentUser (now : N) (st : storage)
  : completion value * storage :=
  data_of (str "userData")
    (getUserSession StringToNumber ObjectToNumber now st).

Definition getCurrentAdmin (now : N) (st : storage)
  : completion value * storage :=
  data_of (str "adminData")
    (getAdminSession StringToNumber ObjectToNumber now st).

Definition isAuthenticated (now : N) (st : storage) : bool :=
  isValidSession StringToNumber ObjectToNumber now st.

Definition isAdminAuthenticated (now : N) (st : storage) : bool :=
  isValidAdminSession StringToNumber ObjectToNumber now st.

End Getters.

(** [logout], for the way [signOut(auth)] ends: when it throws, the [catch]
    block logs the error and the sessions are not cleared. *)
Definition logout (signOut : completion unit) (st : storage) : storage :=
  match signOut with
  | Return _ => clearAdminSession (clearUserSession st)
  | Throw => st
  end.

End AuthService.

(** ** [ChatService]: opening and closing the chat, deleting messages,
    lifting bans *)

Module Moderation.

Import Js ChatService.

(** *** More requests to the store *)

Definition setDoc_session (id : docid) (d : ChatSession) : M unit :=
  request ;;
  fun w => (Return tt, with_chatSessions (<[id := d]> (chatSessions w)) w).

(** [getDoc(doc(db, 'chat', id))]: [None] when [exists()] is false. *)
Definition getDoc_message (id : docid) : M (option ChatMessage) :=
  request ;; fun w => (Return (chat w !! id), w).

Definition updateDoc_message (id : docid) (f : ChatMessage -> ChatMessage)
  : M unit :=
  request ;;
  fun w =>
    match chat w !! id with
    | Some d => (Return tt, with_chat (<[id := f d]> (chat w)) w)
    | None => (Throw, w)
    end.

(** [getDocs(query(collection(db, 'chat')))] *)
Definition getDocs_messages : M (list (docid * ChatMessage)) :=
  request ;; fun w => (Return (map_to_list (chat w)), w).

(** *** The service *)

(** [sessionId] is the identifier [doc(collection(db, 'chatSessions'))]
    generates and [serverTime] the value the server gives
    [serverTimestamp()]. *)
Definition openChat (adminId : jsstring) (sessionId : docid) (serverTime : N)
  : M result :=
  try_catch
    ((* Check if chat is already open *)
     let* isOpen' := isChatOpen in
     if isOpen' then ret (Result false "الدردشة مفتوحة بالفعل.")
     else
       let sessionData :=
         {| isOpen := true;
            openedBy := Some adminId;
            closedBy := None;
            openedAt := Some serverTime;
            closedAt := None;
            participants := [];
            messageCount := 0 |} in
       setDoc_session sessionId sessionData ;;
       ret (Result true "تم فتح الدردشة بنجاح."))
    (ret (Result false "خطأ في فتح الدردشة.")).

(** [{ isOpen: false, closedBy: adminId, closedAt: serverTimestamp() }]
    merged into a session. *)
Definition close_session (adminId : jsstring) (serverTime : N)
    (s : ChatSession) : ChatSession :=
  {| isOpen := false; openedBy := openedBy s; closedBy := Some adminId;
     openedAt := openedAt s; closedAt := Some serverTime;
     participants := participants s; messageCount := messageCount s |}.

Definition closeChat (adminId : jsstring) (serverTime : N) : M result :=
  try_catch
    (let* snapshot := getDocs_openSessions in
     match snapshot with
     | [] => ret (Result false "لا توجد جلسة دردشة مفتوحة.")
     | (sessionId, _) :: _ =>
         updateDoc_session sessionId (close_session adminId serverTime) ;;
         ret (Result true "تم إغلاق الدردشة بنجاح.")
     end)
    (ret (Result false "خطأ في إغلاق الدردشة.")).

(** [{ isDeleted: true, deletedBy: adminId }] merged into a message. *)
Definition mark_deleted (adminId : jsstring) (m : ChatMessage) : ChatMessage :=
  {| msg_userId := msg_userId m; msg_userName := msg_userName m;
     msg_userAvatar := msg_userAvatar m; msg_message := msg_message m;
     msg_timestamp := msg_timestamp m; msg_isDeleted := true;
     msg_deletedBy := Some adminId; msg_type := msg_type m;
     msg_isAdmin := msg_isAdmin m |}.

Definition deleteMessage (messageId : docid) (adminId : jsstring) : M result :=
  try_catch
    (let* messageDoc := getDoc_message messageId in
     match messageDoc with
     | None => ret (Result false "الرسالة غير موجودة.")
     | Some _ =>
         updateDoc_message messageId (mark_deleted adminId) ;;
         ret (Result true "تم حذف الرسالة بنجاح.")
     end)
    (ret (Result false "خطأ في حذف الرسالة.")).

Definition unbanUser (userId : jsstring) : M result :=
  try_catch
    (let* snapshot := getDocs_activeBans userId in
     match snapshot with
     | [] => ret (Result false "المستخدم غير محظور.")
     | (banId, _) :: _ =>
         updateDoc_ban banId deactivate ;;
         ret (Result true "تم إلغاء حظر المستخدم بنجاح.")
     end)
    (ret (Result false "خطأ في إلغاء حظر المستخدم.")).

(** [Promise.all(docs.map(doc => updateDoc(doc.ref, ...)))]: every update is
    requested, in the order of the documents, and the whole is rejected when
    one of them is. *)
Fixpoint updateDoc_all (adminId : jsstring) (docs : list (docid * ChatMessage))
  : M unit :=
  match docs with
  | [] => ret tt
  | (id, _) :: docs' =>
      fun w =>
        let (c, w1) := updateDoc_message id (mark_deleted adminId) w in
        let (c', w2) := updateDoc_all adminId docs' w1 in
        (match c with
         | Throw => Throw
         | Return _ => c'
         end, w2)
  end.

Definition clearAllMessages (adminId : jsstring) : M result :=
  try_catch
    (let* snapshot := getDocs_messages in
     updateDoc_all adminId snapshot ;;
     ret (Result true "تم مسح جميع الرسائل بنجاح."))
    (ret (Result false "خطأ في مسح الرسائل.")).

(** *** What the service writes *)

(** The session [openChat] writes. *)
Definition opened_session (adminId : jsstring) (serverTime : N) : ChatSession :=
  {| isOpen := true; openedBy := Some adminId; closedBy := None;
     openedAt := Some serverTime; closedAt := None;
     participants := []; messageCount := 0 |}.

(** The message [sendMessage] writes. *)
Definition sent_message (sanitizeHTML : jsstring -> jsstring)
    (userId userName message : jsstring)
    (userAvatar : option jsstring) (isAdmin : bool) (serverTime : N)
  : ChatMessage :=
  {| msg_userId := userId;
     msg_userName := sanitizeHTML userName;
     msg_userAvatar := userAvatar;
     msg_message := sanitizeHTML message;
     msg_timestamp := serverTime;
     msg_isDeleted := false;
     msg_deletedBy := None;
     msg_type := TypeText;
     msg_isAdmin := isAdmin |}.

(** The sessions after an update that opens none. *)
Definition sessions_weakened (s s' : gmap docid ChatSession) : Prop :=
  s' = s \/
  exists id d d',
    s !! id = Some d /\ (isOpen d' = true -> isOpen d = true)
    /\ s' = <[id := d']> s.

(** At most one chat session is open. *)
Definition at_most_one_open (sessions : gmap docid ChatSession) : Prop :=
  forall i j si sj,
    sessions !! i = Some si -> sessions !! j = Some sj ->
    isOpen si = true -> isOpen sj = true -> i = j.

(** *** Stores for the examples *)

(** A store with one open chat session, that serves every request. *)
Definition open_chat_world : world :=
  {| chat := ∅;
     chatSessions :=
       {[ str "s1" :=
            {| isOpen := true; openedBy := Some (str "admin");
               closedBy := None; openedAt := Some 5; closedAt := None;
               participants := []; messageCount := 0 |} ]};
     bannedUsers := ∅;
     faults := [] |}.

(** The same with a permanent ban of [u1]. *)
Definition banned_open_world : world :=
  with_bannedUsers (bannedUsers closed_chat_world) open_chat_world.

(** A store with one message, that serves every request. *)
Definition one_message_world : world :=
  {| chat :=
       {[ str "m1" :=
            {| msg_userId := str "u1"; msg_userName := str "Ann";
               msg_userAvatar := None; msg_message := str "hello";
               msg_timestamp := 7; msg_isDeleted := false;
               msg_deletedBy := None; msg_type := TypeText;
               msg_isAdmin := false |} ]};
     chatSessions := ∅;
     bannedUsers := ∅;
     faults := [] |}.

End Moderation.

(** ** [AuthService.loginAdmin]: the rate limiter, the store and the session
    in one call *)

From Stdlib Require Import DecimalString.

Module AdminLogin.

Import Js JsValue SecurityUtils SessionManager AuthService.

Definition MAX_EMAIL_LENGTH : N := 100.

(** A document of the collection [admins], with the fields
    [initializeAdmin] gives it, without its [id].  [lastLogin] is [null]
    or the time the server assigned. *)
Record AdminDoc := {
  admin_name : jsstring;
  admin_email : jsstring;
  admin_password : jsstring;
  admin_role : jsstring;
  admin_isActive : bool;
  admin_createdAt : value;
  admin_lastLogin : option N
}.

(** What [loginAdmin] reads and writes: the [loginAttempts] map of the
    module, the collection [admins], [localStorage], and the fate of the
    requests to come (the head of [login_faults] tells whether the next
    request to the store is rejected; no entry: it is served). *)
Record login_world := {
  loginAttempts : gmap jsstring attempts;
  admins : gmap jsstring AdminDoc;
  localStorage : storage;
  login_faults : list bool
}.

Definition with_loginAttempts (t : gmap jsstring attempts) (w : login_world)
  : login_world :=
  {| loginAttempts := t; admins := admins w;
     localStorage := localStorage w; login_faults := login_faults w |}.

Definition with_admins (a : gmap jsstring AdminDoc) (w : login_world)
  : login_world :=
  {| loginAttempts := loginAttempts w; admins := a;
     localStorage := localStorage w; login_faults := login_faults w |}.

Definition with_localStorage (st : storage) (w : login_world) : login_world :=
  {| loginAttempts := loginAttempts w; admins := admins w;
     localStorage := st; login_faults := login_faults w |}.

Definition with_login_faults (fs : list bool) (w : login_world) : login_world :=
  {| loginAttempts := loginAttempts w; admins := admins w;
     localStorage := localStorage w; login_faults := fs |}.

(** A request to the store is served or rejected. *)
Definition login_request (w : login_world) : completion unit * login_world :=
  match login_faults w with
  | true :: fs => (Throw, with_login_faults fs w)
  | false :: fs => (Return tt, with_login_faults fs w)
  | [] => (Return tt, w)
  end.

(** The next [n] requests are served. *)
Definition login_served (n : nat) (w : login_world) : Prop :=
  Forall (fun rejected => rejected = false) (take n (login_faults w)).

(** [query(collection(db, 'admins'), where('email', '==', email),
    where('isActive', '==', true))], in the order of the store. *)
Definition active_admins (email : jsstring) (docs : gmap jsstring AdminDoc)
  : list (jsstring * AdminDoc) :=
  List.filter
    (fun d => bool_decide (admin_email (snd d) = email)
              && bool_decide (admin_isActive (snd d) = true))
    (map_to_list docs).

(** [{ lastLogin: serverTimestamp() }] merged into an admin document. *)
Definition touch (serverTime : N) (d : AdminDoc) : AdminDoc :=
  {| admin_name := admin_name d; admin_email := admin_email d;
     admin_password := admin_password d; admin_role := admin_role d;
     admin_isActive := admin_isActive d; admin_createdAt := admin_createdAt d;
     admin_lastLogin := Some serverTime |}.

(** The result object [{ success, message, admin? }]. *)
Record login_result := LoginResult {
  success : bool;
  message : string;
  admin : option value
}.

(** [Math.ceil(rateLimit.remainingTime! / 60)] in the template string: a
    missing [remainingTime] gives [NaN]. *)
Definition minutes_text (remainingTime : option N) : string :=
  match remainingTime with
  | Some seconds => NilEmpty.string_of_uint (N.to_uint (ceil_div seconds 60))
  | None => "NaN"
  end.

Definition lockout_message (remainingTime : option N) : string :=
  String.append "تم تجاوز عدد المحاولات المسموح. حاول مرة أخرى بعد "
    (String.append (minutes_text remainingTime) " دقيقة.").

Section Libraries.

(** [validator.isEmail], [String.prototype.toLowerCase], [bcrypt.compare]
    on a password and a hash, and the sentinel [serverTimestamp()] returns,
    as [JSON.stringify] sees it. *)
Variable isEmail : jsstring -> bool.
Variable toLowerCase : jsstring -> jsstring.
Variable bcrypt_compare : jsstring -> jsstring -> bool.
Variable serverTimestamp : value.

(** [SecurityUtils.validateEmail]: [!email] holds of the empty string
    only. *)
Definition validateEmail (email : jsstring) : bool :=
  if bool_decide (email = []) || (MAX_EMAIL_LENGTH <? N.of_nat (length email))
  then false
  else isEmail email.

(** The object [admin] of [loginAdmin]. *)
Definition admin_object (adminId : jsstring) (adminData : AdminDoc) : value :=
  VObject [ (str "id", VString adminId);
            (str "name", VString (admin_name adminData));
            (str "email", VString (admin_email adminData));
            (str "role", VString (str "admin"));
            (str "isActive", VBool (admin_isActive adminData));
            (str "createdAt", admin_createdAt adminData);
            (str "lastLogin", serverTimestamp) ].

(** [now] is the clock reading of [checkRateLimit], [now1] and [now2] are
    those of [setAdminSession], and [serverTime] is the value the server
    gives [serverTimestamp()].  Every exception inside [try] ends in the
    result of the [catch] block. *)
Definition loginAdmin (email password : jsstring) (now now1 now2 serverTime : N)
    (w : login_world) : login_result * login_world :=
  let caught := LoginResult false "خطأ في تسجيل دخول الإدارة." None in
  (* Validate inputs *)
  if negb (validateEmail email) then
    (LoginResult false "بريد إلكتروني غير صالح." None, w)
  else
    (* Check rate limiting with stricter limits for admin *)
    let (rateLimit, table) :=
      checkRateLimit (admin_identifier email) now (loginAttempts w) in
    let w1 := with_loginAttempts table w in
    if negb (allowed rateLimit) then
      (LoginResult false (lockout_message (remainingTime rateLimit)) None, w1)
    else
      (* Query admin collection *)
      match login_request w1 with
      | (Throw, w2) => (caught, w2)
      | (Return _, w2) =>
          match active_admins (toLowerCase email) (admins w2) with
          | [] => (LoginResult false "بيانات الدخول غير صحيحة." None, w2)
          | (adminId, adminData) :: _ =>
              (* Verify password *)
              if negb (bcrypt_compare password (admin_password adminData)) then
                (LoginResult false "بيانات الدخول غير صحيحة." None, w2)
              else
                (* Update last login *)
                match login_request w2 with
                | (Throw, w3) => (caught, w3)
                | (Return _, w3) =>
                    match admins w3 !! adminId with
                    | None => (caught, w3)
                    | Some d =>
                        let w4 :=
                          with_admins
                            (<[adminId := touch serverTime d]> (admins w3)) w3 in
                        let admin' := admin_object adminId adminData in
                        (* Set admin session *)
                        let w5 :=
                          with_localStorage
                            (setAdminSession adminId admin' now1 now2
                               (localStorage w4)) w4 in
                        let w6 :=
                          with_loginAttempts
                            (resetRateLimit (admin_identifier email)
                               (loginAttempts w5)) w5 in
                        (LoginResult true "تم تسجيل دخول الإدارة بنجاح."
                           (Some admin'), w6)
                    end
                end
          end
      end.

(** A run of [loginAdmin] calls for one address, each with its password
    and the clock reading of its [checkRateLimit]; the readings of
    [setAdminSession] and the server time, which only a successful call
    uses, are taken to be the same. *)
Fixpoint login_run (email : jsstring) (calls : list (jsstring * N))
    (w : login_world) : login_world :=
  match calls with
  | [] => w
  | (password, now) :: calls' =>
      login_run email calls' (snd (loginAdmin email password now now now now w))
  end.

(** The password is not that of the admin [loginAdmin] finds for the
    address, if it finds one. *)
Definition wrong_password (email password : jsstring) (w : login_world)
  : Prop :=
  match active_admins (toLowerCase email) (admins w) with
  | [] => True
  | (_, adminData) :: _ =>
      bcrypt_compare password (admin_password adminData) = false
  end.

End Libraries.

(** ASCII lower case, for the examples. *)
Definition ascii_lower (s : jsstring) : jsstring :=
  map (fun c => if (65 <=? c) && (c <=? 90) then c + 32 else c) s.

(** A store with one active admin, that serves every request. *)
Definition one_admin_world : login_world :=
  {| loginAttempts := ∅;
     admins :=
       {[ str "a1" :=
            {| admin_name := str "Admin"; admin_email := str "admin@x.io";
               admin_password := str "hash"; admin_role := str "admin";
               admin_isActive := true; admin_createdAt := VNull;
               admin_lastLogin := None |} ]};
     localStorage := ∅;
     login_faults := [] |}.

(** The document of that admin. *)
Definition the_admin : AdminDoc :=
  {| admin_name := str "Admin"; admin_email := str "admin@x.io";
     admin_password := str "hash"; admin_role := str "admin";
     admin_isActive := true; admin_createdAt := VNull;
     admin_lastLogin := None |}.

(** Five calls with wrong passwords. *)
Definition five_wrong : list (jsstring * N) :=
  [ (str "a", 1000); (str "b", 2000); (str "c", 3000); (str "d", 4000);
    (str "e", 5000) ].

End AdminLogin.
(** ** [ArticleService]: creating, reading, counting and deleting articles *)

Module ArticleService.

Import Js.

Variant category := Programming | Cybersecurity | News | Projects.
Variant status := Draft | Published.

(** The argument of [createArticle]: an [Article] without [id], [views],
    [likes], [createdAt] and [updatedAt]. *)
Record ArticleData := {
  data_title : jsstring;
  data_description : jsstring;
  data_content : jsstring;
  data_cardImage : option jsstring;
  data_externalImages : list jsstring;
  data_category : category;
  data_status : status;
  data_authorId : jsstring;
  data_authorName : jsstring;
  data_publishedAt : option N;
  data_tags : list jsstring;
  data_featured : bool
}.

(** A document of the collection [articles], without its [id].  A field
    written as [serverTimestamp()] holds the time the server assigned;
    [publishedAt] is that or [null]. *)
Record Article := {
  art_title : jsstring;
  art_description : jsstring;
  art_content : jsstring;
  art_cardImage : option jsstring;
  art_externalImages : list jsstring;
  art_category : category;
  art_status : status;
  art_authorId : jsstring;
  art_authorName : jsstring;
  art_views : Z;
  art_likes : Z;
  art_createdAt : N;
  art_updatedAt : N;
  art_publishedAt : option N;
  art_tags : list jsstring;
  art_featured : bool
}.

(** The store, and the fate of the requests to come, as for the chat. *)
Record article_world := {
  articles : gmap jsstring Article;
  article_faults : list bool
}.

Definition with_articles (a : gmap jsstring Article) (w : article_world)
  : article_world :=
  {| articles := a; article_faults := article_faults w |}.

Definition article_request (w : article_world)
  : completion unit * article_world :=
  match article_faults w with
  | true :: fs => (Throw, {| articles := articles w; article_faults := fs |})
  | false :: fs =>
      (Return tt, {| articles := articles w; article_faults := fs |})
  | [] => (Return tt, w)
  end.

(** The next [n] requests are served. *)
Definition article_served (n : nat) (w : article_world) : Prop :=
  Forall (fun rejected => rejected = false) (take n (article_faults w)).

(** The result object [{ success, message, articleId? }]. *)
Record article_result := ArticleResult {
  success : bool;
  message : string;
  articleId : option jsstring
}.

(** [views: increment(n)] and [likes: increment(n)] merged into an
    article. *)
Definition add_views (n : Z) (a : Article) : Article :=
  {| art_title := art_title a; art_description := art_description a;
     art_content := art_content a; art_cardImage := art_cardImage a;
     art_externalImages := art_externalImages a;
     art_category := art_category a; art_status := art_status a;
     art_authorId := art_authorId a; art_authorName := art_authorName a;
     art_views := (art_views a + n)%Z; art_likes := art_likes a;
     art_createdAt := art_createdAt a; art_updatedAt := art_updatedAt a;
     art_publishedAt := art_publishedAt a; art_tags := art_tags a;
     art_featured := art_featured a |}.

Definition add_likes (n : Z) (a : Article) : Article :=
  {| art_title := art_title a; art_description := art_description a;
     art_content := art_content a; art_cardImage := art_cardImage a;
     art_externalImages := art_externalImages a;
     art_category := art_category a; art_status := art_status a;
     art_authorId := art_authorId a; art_authorName := art_authorName a;
     art_views := art_views a; art_likes := (art_likes a + n)%Z;
     art_createdAt := art_createdAt a; art_updatedAt := art_updatedAt a;
     art_publishedAt := art_publishedAt a; art_tags := art_tags a;
     art_featured := art_featured a |}.

(** [updateDoc(articleRef, ...)]: rejected when the store rejects the
    request or holds no such document. *)
Definition updateDoc_article (id : jsstring) (f : Article -> Article)
    (w : article_world) : completion unit * article_world :=
  match article_request w with
  | (Throw, w') => (Throw, w')
  | (Return _, w') =>
      match articles w' !! id with
      | Some d => (Return tt, with_articles (<[id := f d]> (articles w')) w')
      | None => (Throw, w')
      end
  end.

Section Libraries.

(** [SecurityUtils.validateURL] and [SecurityUtils.sanitizeHTML], which
    rest on the [validator] and [DOMPurify] libraries. *)
Variable validateURL : jsstring -> bool.
Variable sanitizeHTML : jsstring -> jsstring.

(** The document [createArticle] writes. *)
Definition sanitizedArticle (articleData : ArticleData) (serverTime : N)
  : Article :=
  {| art_title := sanitizeHTML (data_title articleData);
     art_description := sanitizeHTML (data_description articleData);
     art_content := sanitizeHTML (data_content articleData);
     art_cardImage := data_cardImage articleData;
     art_externalImages := data_externalImages articleData;
     art_category := data_category articleData;
     art_status := data_status articleData;
     art_authorId := data_authorId articleData;
     art_authorName := data_authorName articleData;
     art_views := 0;
     art_likes := 0;
     art_createdAt := serverTime;
     art_updatedAt := serverTime;
     art_publishedAt :=
       match data_status articleData with
       | Published => Some serverTime
       | Draft => None
       end;
     art_tags := data_tags articleData;
     art_featured := data_featured articleData |}.

(** [articleData.cardImage && !validateURL(articleData.cardImage)]: an
    absent or empty card image is not validated. *)
Definition bad_cardImage (cardImage : option jsstring) : bool :=
  match cardImage with
  | None | Some [] => false
  | Some url => negb (validateURL url)
  end.

(** [id] is the identifier [doc(collection(db, 'articles'))] generates and
    [serverTime] the value the server gives [serverTimestamp()]. *)
Definition createArticle (articleData : ArticleData) (id : jsstring)
    (serverTime : N) (w : article_world) : article_result * article_world :=
  let title := data_title articleData in
  let description := data_description articleData in
  let content := data_content articleData in
  (* Validate inputs *)
  if bool_decide (title = []) || (N.of_nat (length title) <? 5)
     || (200 <? N.of_nat (length title)) then
    (ArticleResult false "عنوان المقال يجب أن يكون بين 5-200 حرف." None, w)
  else if bool_decide (description = [])
          || (N.of_nat (length description) <? 10) then
    (ArticleResult false "وصف المقال يجب أن يكون 10 أحرف على الأقل." None, w)
  else if bool_decide (content = []) || (N.of_nat (length content) <? 50) then
    (ArticleResult false "محتوى المقال يجب أن يكون 50 حرف على الأقل." None, w)
  (* Validate external images URLs *)
  else if negb (forallb validateURL (data_externalImages articleData)) then
    (ArticleResult false "رابط صورة غير صالح." None, w)
  (* Validate card image URL if provided *)
  else if bad_cardImage (data_cardImage articleData) then
    (ArticleResult false "رابط صورة البطاقة غير صالح." None, w)
  else
    (* Create article document *)
    match article_request w with
    | (Throw, w') => (ArticleResult false "خطأ في إنشاء المقال." None, w')
    | (Return _, w') =>
        (ArticleResult true "تم إنشاء المقال بنجاح." (Some id),
         with_articles
           (<[id := sanitizedArticle articleData serverTime]> (articles w')) w')
    end.

End Libraries.

Definition deleteArticle (id : jsstring) (w : article_world)
  : article_result * article_world :=
  let caught := ArticleResult false "خطأ في حذف المقال." None in
  match article_request w with
  | (Throw, w1) => (caught, w1)
  | (Return _, w1) =>
      match articles w1 !! id with
      | None => (ArticleResult false "المقال غير موجود." None, w1)
      | Some _ =>
          match article_request w1 with
          | (Throw, w2) => (caught, w2)
          | (Return _, w2) =>
              (ArticleResult true "تم حذف المقال بنجاح." None,
               with_articles (delete id (articles w2)) w2)
          end
      end
  end.

(** [getArticle]: the article with its [id], or [null]. *)
Definition getArticle (id : jsstring) (w : article_world)
  : option (jsstring * Article) * article_world :=
  match article_request w with
  | (Throw, w1) => (None, w1)
  | (Return _, w1) =>
      match articles w1 !! id with
      | None => (None, w1)
      | Some d => (Some (id, d), w1)
      end
  end.

(** The [catch] blocks of [incrementViews] and [toggleLike] log the error
    and return. *)
Definition incrementViews (id : jsstring) (w : article_world) : article_world :=
  snd (updateDoc_article id (add_views 1) w).

Definition toggleLike (id : jsstring) (shouldIncrement : bool)
    (w : article_world) : article_world :=
  snd (updateDoc_article id
         (add_likes (if shouldIncrement then 1 else -1)%Z) w).

(** A run of [incrementViews] calls. *)
Fixpoint incrementViews_many (id : jsstring) (n : nat) (w : article_world)
  : article_world :=
  match n with
  | O => w
  | S n' => incrementViews_many id n' (incrementViews id w)
  end.

(** An article for the examples, and a store with no article that serves
    every request. *)
Definition draft_article : ArticleData :=
  {| data_title := str "Hello world";
     data_description := str "A first article";
     data_content :=
       str "Fifty characters of content are needed to pass the check.";
     data_cardImage := None; data_externalImages := [];
     data_category := News; data_status := Draft;
     data_authorId := str "admin"; data_authorName := str "Admin";
     data_publishedAt := None;
     data_tags := []; data_featured := false |}.

Definition no_article_world : article_world :=
  {| articles := ∅; article_faults := [] |}.

End ArticleService.
(** * Properties *)



(** ** [atob] inverts [btoa] *)

Module Base64Proofs.

Import Base64.

(** Checking a property of small numbers by running it on all of them. *)
Lemma elem_below (k : nat) (n : N) : n < N.of_nat k -> In n (below k).
Proof.
  intros H. unfold below. apply in_map_iff. exists (N.to_nat n).
  split; [lia | apply in_seq; lia].
Qed.

Lemma check1 (P : N -> bool) (k : nat) :
  forallb P (below k) = true -> forall n, n < N.of_nat k -> P n = true.
Proof.
  intros H n Hn. rewrite forallb_forall in H. by apply H, elem_below.
Qed.

Lemma check2 (P : N -> N -> bool) (k : nat) :
  forallb (fun a => forallb (P a) (below k)) (below k) = true ->
  forall a b, a < N.of_nat k -> b < N.of_nat k -> P a b = true.
Proof.
  intros H a b Ha Hb.
  apply (check1 (P a) k); [| done].
  by apply (check1 (fun a => forallb (P a) (below k)) k).
Qed.

(** Induction on a list three elements at a time. *)
Lemma list_ind3 {A} (P : list A -> Prop) :
  P [] -> (forall a, P [a]) -> (forall a b, P [a; b]) ->
  (forall a b c l, P l -> P (a :: b :: c :: l)) ->
  forall l, P l.
Proof.
  intros H0 H1 H2 H3 l.
  assert (H : P l /\ (forall a, P (a :: l)) /\ (forall a b, P (a :: b :: l))).
  { induction l as [|x l (IH0 & IH1 & IH2)]; [by auto |].
    split; [apply IH1 |]. split; [intros a; apply IH2 |].
    intros a b. by apply H3. }
  apply H.
Qed.

(** The alphabet. *)
Lemma b64char_range (n : N) :
  let c := b64char n in
  (65 <= c <= 90) \/ (97 <= c <= 122) \/ (48 <= c <= 57) \/ c = 43 \/ c = 47.
Proof.
  unfold b64char. cbv zeta.
  destruct (n <? 26) eqn:H1; [apply N.ltb_lt in H1; lia |].
  destruct (n <? 52) eqn:H2;
    [apply N.ltb_lt in H2; apply N.ltb_ge in H1; lia |].
  destruct (n <? 62) eqn:H3;
    [apply N.ltb_lt in H3; apply N.ltb_ge in H2; lia |].
  destruct (n =? 62); lia.
Qed.

Lemma b64char_not_pad (n : N) : (b64char n =? pad) = false.
Proof.
  apply N.eqb_neq. pose proof (b64char_range n) as H. cbv zeta in H.
  unfold pad. lia.
Qed.

Lemma b64char_not_whitespace (n : N) : is_ascii_whitespace (b64char n) = false.
Proof.
  pose proof (b64char_range n) as H. cbv zeta in H.
  unfold is_ascii_whitespace. simpl.
  repeat (apply orb_false_intro; [apply N.eqb_neq; lia |]). done.
Qed.

Lemma sextet_of_b64char (n : N) : n < 64 -> sextet_of (b64char n) = Some n.
Proof.
  intros Hn.
  assert (H : bool_decide (sextet_of (b64char n) = Some n) = true).
  { revert n Hn. apply (check1 _ 64). by vm_compute. }
  by apply bool_decide_eq_true in H.
Qed.

(** The arithmetic of the sextets of bytes. *)
Lemma sextet_hi (a : N) : a < 256 -> N.shiftr a 2 < 64.
Proof.
  intros Ha. apply N.ltb_lt. revert a Ha. apply (check1 _ 256). by vm_compute.
Qed.

Lemma sextet_mid1 (a b : N) :
  a < 256 -> b < 256 ->
  N.lor (N.shiftl (N.land a 3) 4) (N.shiftr b 4) < 64.
Proof.
  intros Ha Hb. apply N.ltb_lt. revert a b Ha Hb.
  apply (check2 _ 256). by vm_compute.
Qed.

Lemma sextet_mid2 (b c : N) :
  b < 256 -> c < 256 ->
  N.lor (N.shiftl (N.land b 15) 2) (N.shiftr c 6) < 64.
Proof.
  intros Hb Hc. apply N.ltb_lt. revert b c Hb Hc.
  apply (check2 _ 256). by vm_compute.
Qed.

Lemma sextet_lo (c : N) : N.land c 63 < 64.
Proof.
  pose proof (N.land_spec c 63). apply N.lt_le_trans with (2 ^ 6); [| done].
  destruct (N.land c 63) eqn:E; [done |].
  apply N.log2_lt_pow2; [done |].
  rewrite <- E. eapply N.le_lt_trans; [apply N.log2_land | ].
  apply N.min_lt_iff. right. by vm_compute.
Qed.

Lemma byte1 (a b : N) :
  a < 256 -> b < 256 ->
  N.lor (N.shiftl (N.shiftr a 2) 2)
        (N.shiftr (N.lor (N.shiftl (N.land a 3) 4) (N.shiftr b 4)) 4) = a.
Proof.
  intros Ha Hb. apply N.eqb_eq. revert a b Ha Hb.
  apply (check2 _ 256). by vm_compute.
Qed.

Lemma byte2_left (a b : N) :
  a < 256 -> b < 256 ->
  N.shiftl (N.land (N.lor (N.shiftl (N.land a 3) 4) (N.shiftr b 4)) 15) 4
  = N.shiftl (N.shiftr b 4) 4.
Proof.
  intros Ha Hb. apply N.eqb_eq. revert a b Ha Hb.
  apply (check2 _ 256). by vm_compute.
Qed.

Lemma byte2_right (b c : N) :
  b < 256 -> c < 256 ->
  N.shiftr (N.lor (N.shiftl (N.land b 15) 2) (N.shiftr c 6)) 2 = N.land b 15.
Proof.
  intros Hb Hc. apply N.eqb_eq. revert b c Hb Hc.
  apply (check2 _ 256). by vm_compute.
Qed.

Lemma byte2_join (b : N) :
  b < 256 -> N.lor (N.shiftl (N.shiftr b 4) 4) (N.land b 15) = b.
Proof.
  intros Hb. apply N.eqb_eq. revert b Hb. apply (check1 _ 256). by vm_compute.
Qed.

Lemma byte3 (b c : N) :
  b < 256 -> c < 256 ->
  N.lor (N.shiftl (N.land (N.lor (N.shiftl (N.land b 15) 2) (N.shiftr c 6)) 3) 6)
        (N.land c 63) = c.
Proof.
  intros Hb Hc. apply N.eqb_eq. revert b c Hb Hc.
  apply (check2 _ 256). by vm_compute.
Qed.

(** The stages of [atob] on the output of [encode]. *)

Lemma filter_all {A} (f : A -> bool) (l : list A) :
  Forall (fun x => f x = true) l -> List.filter f l = l.
Proof.
  induction 1 as [|x l Hx _ IH]; [done |]. simpl. by rewrite Hx, IH.
Qed.

Lemma encode_no_whitespace (l : list N) :
  List.filter (fun c => negb (is_ascii_whitespace c)) (encode l) = encode l.
Proof.
  apply filter_all.
  induction l as [| a | a b | a b c l IH] using list_ind3; cbn [encode];
    repeat (constructor; [by rewrite ?b64char_not_whitespace |]);
    first [by constructor | by apply IH].
Qed.

Lemma length_encode (l : list N) : (length (encode l) mod 4 = 0)%nat.
Proof.
  assert (H : exists k, length (encode l) = (k * 4)%nat).
  { induction l as [| a | a b | a b c l [k IH]] using list_ind3.
    - by exists 0%nat.
    - by exists 1%nat.
    - by exists 1%nat.
    - exists (S k). cbn [encode length]. rewrite IH. lia. }
  destruct H as [k ->]. apply Nat.Div0.mod_mul.
Qed.

Lemma length_sextets (l : list N) : (length (sextets l) mod 4 <> 1)%nat.
Proof.
  assert (H : exists k r, length (sextets l) = (r + k * 4)%nat
                           /\ (r = 0 \/ r = 2 \/ r = 3)%nat).
  { induction l as [| a | a b | a b c l (k & r & IH & Hr)] using list_ind3.
    - exists 0%nat, 0%nat. auto.
    - exists 0%nat, 2%nat. auto.
    - exists 0%nat, 3%nat. auto.
    - exists (S k), r. cbn [sextets length]. rewrite IH. split; [lia | done]. }
  destruct H as (k & r & -> & Hr). rewrite Nat.Div0.mod_add.
  destruct Hr as [-> | [-> | ->]]; by compute.
Qed.

Lemma strip_padding_app (l1 l2 : list N) :
  (2 <= length l2)%nat ->
  strip_padding (l1 ++ l2) = l1 ++ strip_padding l2.
Proof.
  intros Hlen. unfold strip_padding. rewrite rev_app_distr.
  pose proof (length_rev l2) as Hrev.
  destruct (rev l2) as [|a [|b r]] eqn:E; simpl in Hrev; try lia.
  simpl. destruct (a =? pad); [| done].
  destruct (b =? pad).
  - by rewrite rev_app_distr, rev_involutive.
  - by rewrite rev_app_distr, rev_involutive, <- app_assoc.
Qed.

Lemma length_encode_cons (a : N) (l : list N) :
  (2 <= length (encode (a :: l)))%nat.
Proof. destruct l as [|b [|c l]]; simpl; lia. Qed.

Lemma strip_padding_encode (l : list N) :
  strip_padding (encode l) = map b64char (sextets l).
Proof.
  induction l as [| a | a b | a b c l IH] using list_ind3.
  - done.
  - unfold strip_padding. cbn [encode sextets map rev app].
    by rewrite !N.eqb_refl.
  - unfold strip_padding. cbn [encode sextets map rev app].
    by rewrite N.eqb_refl, b64char_not_pad.
  - cbn [encode sextets map]. destruct l as [|d l].
    + unfold strip_padding. cbn [encode sextets map rev app].
      by rewrite b64char_not_pad.
    + set (q0 := b64char _). set (q1 := b64char _). set (q2 := b64char _).
      set (q3 := b64char _).
      change (q0 :: q1 :: q2 :: q3 :: encode (d :: l))
        with ([q0; q1; q2; q3] ++ encode (d :: l)).
      rewrite strip_padding_app by apply length_encode_cons.
      by rewrite IH.
Qed.

Lemma sextets_below (l : list N) :
  Forall (fun c => c < 256) l -> Forall (fun s => s < 64) (sextets l).
Proof.
  induction l as [| a | a b | a b c l IH] using list_ind3; intros Hl.
  - constructor.
  - apply Forall_cons in Hl as [Ha _]. cbn [sextets].
    repeat constructor; [by apply sextet_hi |].
    pose proof (sextet_mid1 a 0 Ha eq_refl) as H.
    by rewrite N.shiftr_0_l, N.lor_0_r in H.
  - apply Forall_cons in Hl as [Ha Hl]. apply Forall_cons in Hl as [Hb _].
    cbn [sextets]. repeat constructor;
      [by apply sextet_hi | by apply sextet_mid1 |].
    pose proof (sextet_mid2 b 0 Hb eq_refl) as H.
    by rewrite N.shiftr_0_l, N.lor_0_r in H.
  - apply Forall_cons in Hl as [Ha Hl]. apply Forall_cons in Hl as [Hb Hl].
    apply Forall_cons in Hl as [Hc Hl]. cbn [sextets].
    repeat (constructor;
            [first [by apply sextet_hi | by apply sextet_mid1
                   | by apply sextet_mid2 | apply sextet_lo] |]).
    by apply IH.
Qed.

Lemma sextets_of_chars (ss : list N) :
  Forall (fun s => s < 64) ss -> mapM sextet_of (map b64char ss) = Some ss.
Proof.
  intros H. apply mapM_Some. apply Forall2_fmap_l.
  induction H as [|s ss Hs _ IH]; constructor; [by apply sextet_of_b64char | done].
Qed.

Lemma decode_sextets (l : list N) :
  Forall (fun c => c < 256) l -> decode (sextets l) = l.
Proof.
  induction l as [| a | a b | a b c l IH] using list_ind3; intros Hl.
  - done.
  - apply Forall_cons in Hl as [Ha _]. cbn [sextets decode].
    f_equal. pose proof (byte1 a 0 Ha eq_refl) as H.
    by rewrite N.shiftr_0_l, N.lor_0_r in H.
  - apply Forall_cons in Hl as [Ha Hl]. apply Forall_cons in Hl as [Hb _].
    cbn [sextets decode]. f_equal; [by apply byte1 |]. f_equal.
    rewrite (byte2_left a b Ha Hb).
    pose proof (byte2_right b 0 Hb eq_refl) as H.
    rewrite N.shiftr_0_l, N.lor_0_r in H. rewrite H. by apply byte2_join.
  - apply Forall_cons in Hl as [Ha Hl]. apply Forall_cons in Hl as [Hb Hl].
    apply Forall_cons in Hl as [Hc Hl]. cbn [sextets decode].
    f_equal; [by apply byte1 |]. f_equal.
    { rewrite (byte2_left a b Ha Hb), (byte2_right b c Hb Hc).
      by apply byte2_join. }
    f_equal; [by apply byte3 |]. by apply IH.
Qed.

(** [atob(btoa(s))] is [s], for every string [btoa] accepts. *)
Lemma atob_encode (l : list N) :
  Forall (fun c => c < 256) l -> atob (encode l) = Some l.
Proof.
  intros Hl. unfold atob. cbv zeta.
  rewrite encode_no_whitespace.
  rewrite (proj2 (Nat.eqb_eq _ _) (length_encode l)).
  rewrite strip_padding_encode, length_map.
  rewrite (proj2 (Nat.eqb_neq _ _) (length_sextets l)).
  rewrite (sextets_of_chars _ (sextets_below l Hl)). simpl.
  by rewrite (decode_sextets l Hl).
Qed.

Lemma btoa_latin1 (s : jsstring) : latin1 s -> btoa s = Some (encode s).
Proof.
  intros H. unfold btoa.
  assert (E : existsb (fun c => 255 <? c) s = false).
  { induction H as [|c s Hc _ IH]; [done |]. simpl. rewrite IH.
    by rewrite (proj2 (N.ltb_ge _ _) Hc). }
  by rewrite E.
Qed.

Lemma atob_btoa (s : jsstring) :
  latin1 s -> exists t, btoa s = Some t /\ atob t = Some s.
Proof.
  intros H. exists (encode s). split; [by apply btoa_latin1 |].
  apply atob_encode. eapply Forall_impl; [exact H |]. simpl. intros c Hc. lia.
Qed.

End Base64Proofs.
(** ** Access tokens *)

Module TokenProofs.

Import Js Base64 Base64Proofs SecurityUtils.

(** [split] on strings without the separator. *)
Lemma split_no_sep (sep : N) (s : jsstring) :
  sep ∉ s -> split sep s = [s].
Proof.
  induction s as [|c s IH]; intros Hs; [done |].
  apply not_elem_of_cons in Hs as [Hc Hs]. simpl.
  rewrite (proj2 (N.eqb_neq c sep)) by done. by rewrite IH.
Qed.

Lemma split_app (sep : N) (p rest : jsstring) :
  sep ∉ p -> split sep (p ++ sep :: rest) = p :: split sep rest.
Proof.
  induction p as [|c p IH]; intros Hp; simpl.
  - by rewrite N.eqb_refl.
  - apply not_elem_of_cons in Hp as [Hc Hp].
    rewrite (proj2 (N.eqb_neq c sep)) by done. by rewrite IH.
Qed.

(** Decimal digits. *)
Lemma digit_val_digit (d : N) : d < 10 -> digit_val 10 (48 + d) = Some d.
Proof.
  intros Hd.
  assert (H : bool_decide (digit_val 10 (48 + d) = Some d) = true).
  { revert d Hd. apply (check1 _ 10). by vm_compute. }
  by apply bool_decide_eq_true in H.
Qed.

Lemma digit_val_is_digit (c : N) : is_digit c -> is_Some (digit_val 10 c).
Proof.
  intros [H1 H2]. replace c with (48 + (c - 48)) by lia.
  rewrite digit_val_digit by lia. by eexists.
Qed.

Lemma is_digit_not_white_space (c : N) : is_digit c -> is_white_space c = false.
Proof.
  intros [H1 H2].
  assert (H : (c <? 48) || negb (is_white_space c) = true).
  { apply (check1 (fun c => (c <? 48) || negb (is_white_space c)) 58);
      [by vm_compute | lia]. }
  apply orb_true_iff in H as [H | H].
  - apply N.ltb_lt in H. lia.
  - by apply negb_true_iff in H.
Qed.

Lemma digits_before_digits (fuel : nat) (n : N) (acc : jsstring) :
  Forall is_digit acc -> Forall is_digit (digits_before fuel n acc).
Proof.
  revert n acc. induction fuel as [|fuel IH]; intros n acc Hacc; [done |].
  cbn [digits_before].
  assert (Hd : is_digit (48 + n mod 10)).
  { pose proof (N.mod_lt n 10 ltac:(done)). unfold is_digit.
    remember (n mod 10) as d. lia. }
  destruct (n / 10 =? 0); [by constructor |]. apply IH. by constructor.
Qed.

Lemma digits_before_nonempty (fuel : nat) (n : N) (acc : jsstring) :
  acc <> [] \/ fuel <> O -> digits_before fuel n acc <> [].
Proof.
  revert n acc. induction fuel as [|fuel IH]; intros n acc H.
  - simpl. by destruct H.
  - cbn [digits_before]. destruct (n / 10 =? 0); [done |]. apply IH. by left.
Qed.

Lemma parse_digits_before (fuel : nat) (n : N) (acc : jsstring) :
  n < 2 ^ N.of_nat fuel ->
  parse_digits 10 0 (digits_before fuel n acc) = parse_digits 10 n acc.
Proof.
  revert n acc. induction fuel as [|fuel IH]; intros n acc Hn.
  - simpl in *. by replace n with 0 by lia.
  - cbn [digits_before].
    pose proof (N.div_mod n 10 ltac:(done)) as Hdm.
    pose proof (N.mod_lt n 10 ltac:(done)) as Hmod.
    remember (n mod 10) as d. remember (n / 10) as q.
    destruct (q =? 0) eqn:Hq.
    + apply N.eqb_eq in Hq. cbn [parse_digits].
      rewrite digit_val_digit by done. f_equal. lia.
    + rewrite IH.
      * cbn [parse_digits]. rewrite digit_val_digit by done. f_equal. lia.
      * rewrite Nat2N.inj_succ, N.pow_succ_r' in Hn. lia.
Qed.

Lemma to_decimal_digits (n : N) : Forall is_digit (to_decimal n).
Proof. by apply digits_before_digits. Qed.

Lemma to_decimal_nonempty (n : N) : to_decimal n <> [].
Proof. apply digits_before_nonempty. by right. Qed.

Lemma parse_to_decimal (n : N) : parse_digits 10 0 (to_decimal n) = n.
Proof.
  unfold to_decimal. rewrite parse_digits_before; [done |].
  rewrite Nat2N.inj_succ, N2Nat.id.
  destruct n as [|p]; [done |]. by apply N.log2_spec.
Qed.

(** [parseInt(String(n))] is [n]. *)
Lemma parseInt_to_decimal (n : N) : parseInt (to_decimal n) = Some (Z.of_N n).
Proof.
  pose proof (to_decimal_digits n) as Hd.
  pose proof (to_decimal_nonempty n) as Hne.
  pose proof (parse_to_decimal n) as Hp.
  destruct (to_decimal n) as [|c s]; [done |].
  apply Forall_cons in Hd as [Hc Hs].
  unfold parseInt. cbn [drop_while].
  rewrite (is_digit_not_white_space c Hc).
  assert (H45 : (c =? 45) = false) by (apply N.eqb_neq; unfold is_digit in Hc; lia).
  assert (H43 : (c =? 43) = false) by (apply N.eqb_neq; unfold is_digit in Hc; lia).
  rewrite H45, H43.
  assert (Hr : parse_radix (c :: s) = parse_unsigned 10 (c :: s)).
  { unfold parse_radix. destruct s as [|c1 s]; [done |].
    apply Forall_cons in Hs as [Hc1 _].
    assert (H120 : (c1 =? 120) = false)
      by (apply N.eqb_neq; unfold is_digit in Hc1; lia).
    assert (H88 : (c1 =? 88) = false)
      by (apply N.eqb_neq; unfold is_digit in Hc1; lia).
    by rewrite H120, H88, andb_false_r. }
  rewrite Hr. unfold parse_unsigned.
  destruct (is_Some_dec (digit_val 10 c)) as [_ | Hn].
  - by rewrite Hp.
  - exfalso. by apply Hn, digit_val_is_digit.
Qed.

Lemma to_decimal_latin1 (n : N) : latin1 (to_decimal n).
Proof.
  eapply Forall_impl; [apply to_decimal_digits |].
  intros c [_ Hc]. simpl. lia.
Qed.

Lemma to_decimal_no_colon (n : N) : colon ∉ to_decimal n.
Proof.
  intros Hin. pose proof (to_decimal_digits n) as Hd.
  rewrite Forall_forall in Hd. apply Hd in Hin. unfold is_digit, colon in Hin. lia.
Qed.

(** What a token of [generateAccessToken] decodes to. *)
Lemma generate_decodes (u r : jsstring) (issued : N) :
  latin1 u -> latin1 r ->
  exists token,
    generateAccessToken u r issued = Some token /\
    atob token = Some (u ++ [colon] ++ r ++ [colon] ++ to_decimal issued).
Proof.
  intros Hu Hr. apply atob_btoa. unfold latin1 in *.
  repeat (apply Forall_app; split); try done.
  - by repeat constructor.
  - by repeat constructor.
  - apply to_decimal_latin1.
Qed.

Lemma split_token (u r : jsstring) (issued : N) :
  colon ∉ u -> colon ∉ r ->
  split colon (u ++ [colon] ++ r ++ [colon] ++ to_decimal issued)
  = [u; r; to_decimal issued].
Proof.
  intros Hu Hr. simpl.
  rewrite (split_app colon u) by done.
  rewrite (split_app colon r) by done.
  by rewrite (split_no_sep colon _ (to_decimal_no_colon issued)).
Qed.

(** C3 (as amended).  For every subject [u] and resource [r] that [btoa]
    accepts (code units up to [0xFF]) and that hold no [':'],
    [generateAccessToken u r] at time [issued] returns a token that
    [validateAccessToken] accepts for [u] and [r] at every time before
    [issued + SESSION_TIMEOUT] (the generation time included), rejects from
    that time on, and rejects at all times for every other resource. *)
Theorem access_token_roundtrip (u r : jsstring) (issued : N) :
  latin1 u -> latin1 r -> colon ∉ u -> colon ∉ r ->
  exists token,
    generateAccessToken u r issued = Some token /\
    (forall now, now < issued + SESSION_TIMEOUT ->
       validateAccessToken token u r now = true) /\
    (forall now, issued + SESSION_TIMEOUT <= now ->
       validateAccessToken token u r now = false) /\
    (forall now r', r' <> r -> validateAccessToken token u r' now = false).
Proof.
  intros Lu Lr Cu Cr.
  destruct (generate_decodes u r issued Lu Lr) as (token & Hgen & Hdec).
  exists token. split; [done |].
  assert (Hval : forall now r',
            validateAccessToken token u r' now
            = if bool_decide (r = r')
              then (Z.of_N now - Z.of_N issued <? Z.of_N SESSION_TIMEOUT)%Z
              else false).
  { intros now r'. unfold validateAccessToken.
    rewrite Hdec, (split_token u r issued Cu Cr). cbn [lookup list_lookup].
    rewrite (bool_decide_eq_true_2 (Some u = Some u)) by done.
    destruct (decide (r = r')) as [<- | Hne].
    - rewrite (bool_decide_eq_true_2 (r = r)) by done.
      rewrite (bool_decide_eq_true_2 (Some r = Some r)) by done.
      cbn [negb orb].
      change (parseInt_elem (Some (to_decimal issued)))
        with (parseInt (to_decimal issued)).
      by rewrite parseInt_to_decimal.
    - rewrite (bool_decide_eq_false_2 (r = r')) by done.
      rewrite (bool_decide_eq_false_2 (Some r = Some r')) by congruence.
      done. }
  split; [| split].
  - intros now Hnow. rewrite Hval, bool_decide_eq_true_2 by done.
    apply Z.ltb_lt. lia.
  - intros now Hnow. rewrite Hval, bool_decide_eq_true_2 by done.
    apply Z.ltb_ge. lia.
  - intros now r' Hne. rewrite Hval. by rewrite bool_decide_eq_false_2.
Qed.

Lemma access_token_roundtrip_witness :
  (fun token =>
     validateAccessToken token (str "uid42") (str "article-7") 1700000000000)
  <$> generateAccessToken (str "uid42") (str "article-7") 1700000000000
  = Some true.
Proof.
  destruct (access_token_roundtrip (str "uid42") (str "article-7") 1700000000000)
    as (token & Hgen & Hfresh & _).
  - unfold latin1. apply (bool_decide_unpack _); by vm_compute.
  - unfold latin1. apply (bool_decide_unpack _); by vm_compute.
  - apply (bool_decide_unpack _); by vm_compute.
  - apply (bool_decide_unpack _); by vm_compute.
  - rewrite Hgen. cbn [fmap option_fmap option_map]. f_equal.
    apply Hfresh. by vm_compute.
Defined.

(** C3 as stated fails outside these strings.  For a subject that holds a
    [':'] the token generated for it is rejected for the very subject and
    resource, at the generation time; for a resource that holds a [':'] the
    token can pass for another resource; and a code unit above [0xFF] makes
    [generateAccessToken] throw. *)
Lemma access_token_counterexample :
  (fun token =>
     validateAccessToken token (str "a:b") (str "x") 1700000000000)
  <$> generateAccessToken (str "a:b") (str "x") 1700000000000
  = Some false /\
  (fun token => validateAccessToken token (str "u") (str "x") 1700000000000)
  <$> generateAccessToken (str "u") (str "x:9999999999999") 1700000000000
  = Some true /\
  generateAccessToken [1605; 1602] (str "x") 1700000000000 = None.
Proof. split; [| split]; vm_compute; reflexivity. Qed.

End TokenProofs.


(** ** The rate limiter *)

Module RateLimitProofs.

Import SecurityUtils.

Implicit Types (m : gmap jsstring attempts) (i : jsstring) (a : attempts).

Lemma ceil_div_bounds (x b : N) :
  0 < b -> x <= ceil_div x b * b /\ ceil_div x b * b < x + b.
Proof.
  intros Hb. unfold ceil_div.
  pose proof (N.div_mod (x + (b - 1)) b ltac:(lia)) as Hdm.
  pose proof (N.mod_lt (x + (b - 1)) b ltac:(lia)) as Hlt.
  rewrite (N.mul_comm _ b).
  remember ((x + (b - 1)) / b) as q. remember ((x + (b - 1)) mod b) as r.
  split; lia.
Qed.

Lemma lockout_seconds : ceil_div LOCKOUT_DURATION 1000 = 900.
Proof. reflexivity. Qed.

(** The four ways through [checkRateLimit], by the record it finds. *)

Lemma check_fresh i now m :
  m !! i = None ->
  checkRateLimit i now m
  = (RateResult true None, <[i := Attempts 1 now None]> m).
Proof. intros H. unfold checkRateLimit. by rewrite H. Qed.

Lemma check_locked i now m a l :
  m !! i = Some a -> lockedUntil a = Some l -> now < l ->
  checkRateLimit i now m
  = (RateResult false (Some (ceil_div (l - now) 1000)), m).
Proof.
  intros Hm Hl Hlt. unfold checkRateLimit. rewrite Hm, Hl. simpl.
  assert (Hnz : (l =? 0) = false) by (apply N.eqb_neq; lia).
  assert (Hb : (now <? l) = true) by (apply N.ltb_lt; lia).
  by rewrite Hnz, Hb.
Qed.

Lemma check_lock_passed i now m a l :
  m !! i = Some a -> lockedUntil a = Some l -> l <> 0 -> l <= now ->
  checkRateLimit i now m
  = (RateResult true None, <[i := Attempts 1 now None]> m).
Proof.
  intros Hm Hl Hnz Hle. unfold checkRateLimit. rewrite Hm, Hl. simpl.
  assert (Hz : (l =? 0) = false) by (by apply N.eqb_neq).
  assert (Hb : (now <? l) = false) by (apply N.ltb_ge; lia).
  assert (Hc : (l <=? now) = true) by (apply N.leb_le; lia).
  by rewrite Hz, Hb, Hc.
Qed.

Lemma check_unlocked i now m a :
  m !! i = Some a -> truthy (lockedUntil a) = false ->
  checkRateLimit i now m
  = if MAX_LOGIN_ATTEMPTS <=? count a
    then (RateResult false (Some 900),
          <[i := Attempts (count a) (lastAttempt a)
                   (Some (now + LOCKOUT_DURATION))]> m)
    else (RateResult true None, <[i := Attempts (count a + 1) now None]> m).
Proof. intros Hm Ht. unfold checkRateLimit. rewrite Hm, Ht. reflexivity. Qed.

(** What a call leaves under the identifier it was made for. *)
Lemma check_post i now m a' :
  snd (checkRateLimit i now m) !! i = Some a' ->
  (forall l, lockedUntil a' = Some l -> now < l) /\
  ((forall a, m !! i = Some a -> 1 <= count a <= MAX_LOGIN_ATTEMPTS) ->
   1 <= count a' <= MAX_LOGIN_ATTEMPTS).
Proof.
  unfold checkRateLimit.
  destruct (m !! i) as [a|] eqn:Hm; simpl.
  - destruct (truthy (lockedUntil a) && (now <? value_of (lockedUntil a)))
      eqn:H1; simpl.
    + rewrite Hm. intros [= <-]. split.
      * intros l Hl. rewrite Hl in H1. simpl in H1.
        apply andb_true_iff in H1 as [_ H1]. by apply N.ltb_lt in H1.
      * intros Hinv. by apply Hinv.
    + destruct (truthy (lockedUntil a) && (value_of (lockedUntil a) <=? now));
        simpl.
      * rewrite lookup_insert_eq. intros [= <-]. simpl.
        split; [discriminate | unfold MAX_LOGIN_ATTEMPTS; lia].
      * destruct (MAX_LOGIN_ATTEMPTS <=? count a) eqn:H3; simpl;
          rewrite lookup_insert_eq; intros [= <-]; simpl.
        -- split.
           ++ intros l [= <-]. unfold LOCKOUT_DURATION. lia.
           ++ intros Hinv. by apply Hinv.
        -- apply N.leb_gt in H3. split; [discriminate |].
           intros Hinv. specialize (Hinv a eq_refl).
           unfold MAX_LOGIN_ATTEMPTS in *. lia.
  - rewrite lookup_insert_eq. intros [= <-]. simpl.
    split; [discriminate | unfold MAX_LOGIN_ATTEMPTS; lia].
Qed.

(** A call changes no other identifier's record. *)
Lemma check_other i j now m :
  i <> j -> snd (checkRateLimit i now m) !! j = m !! j.
Proof.
  intros Hne. unfold checkRateLimit.
  destruct (m !! i) as [a|]; simpl.
  - repeat (match goal with |- context [if ?b then _ else _] => destruct b end;
            simpl); try done; by rewrite lookup_insert_ne.
  - by rewrite lookup_insert_ne.
Qed.

(** The record after [k] calls on a fresh identifier, [1 <= k <= 5]. *)
Lemma check_many_counts i (times : list N) t m :
  m !! i = None -> (length times < 5)%nat ->
  check_many i (t :: times) m !! i
  = Some (Attempts (N.of_nat (S (length times))) (List.last times t) None).
Proof.
  intros Hm. revert t. induction times as [|u times IH] using rev_ind; intros t Hlen.
  - unfold check_many. simpl. rewrite (check_fresh _ _ _ Hm). simpl.
    by rewrite lookup_insert_eq.
  - rewrite length_app in Hlen. simpl in Hlen.
    unfold check_many in *. rewrite app_comm_cons, foldl_app. simpl.
    specialize (IH t ltac:(lia)).
    rewrite (check_unlocked _ _ _ _ IH eq_refl). simpl.
    assert (Hc : (MAX_LOGIN_ATTEMPTS <=? N.of_nat (S (length times))) = false)
      by (apply N.leb_gt; unfold MAX_LOGIN_ATTEMPTS; lia).
    rewrite Hc. simpl. rewrite lookup_insert_eq.
    rewrite last_last, length_app. simpl.
    do 2 f_equal. f_equal. lia.
Qed.

(** Each of the first five calls on a fresh identifier is allowed. *)
Lemma check_many_allowed i (times : list N) t u m :
  m !! i = None -> (length times < 4)%nat ->
  fst (checkRateLimit i u (check_many i (t :: times) m)) = RateResult true None.
Proof.
  intros Hm Hlen.
  pose proof (check_many_counts i times t m Hm ltac:(lia)) as Hrec.
  rewrite (check_unlocked _ _ _ _ Hrec eq_refl). simpl.
  assert (Hc : (MAX_LOGIN_ATTEMPTS <=? N.of_nat (S (length times))) = false)
    by (apply N.leb_gt; unfold MAX_LOGIN_ATTEMPTS; lia).
  by rewrite Hc.
Qed.

(** C2.  From no record for an identifier, each of the first
    [MAX_LOGIN_ATTEMPTS] (5) consecutive [checkRateLimit] calls is allowed,
    and the sixth call, at time [now], returns not-allowed with
    [remainingTime] 900 (the 15 minutes of [LOCKOUT_DURATION] in seconds),
    keeps the count and the time of the fifth call, and sets [lockedUntil]
    to [now + LOCKOUT_DURATION]. *)
Theorem lockout_after_max_attempts i (times : list N) (now : N) m :
  m !! i = None ->
  length times = N.to_nat MAX_LOGIN_ATTEMPTS ->
  (forall k, (k < 5)%nat ->
     fst (checkRateLimit i (nth k times 0) (check_many i (take k times) m))
     = RateResult true None) /\
  checkRateLimit i now (check_many i times m)
  = (RateResult false (Some 900),
     <[i := Attempts 5 (List.last times 0) (Some (now + 15 * 60 * 1000))]>
       (check_many i times m)).
Proof.
  intros Hm Hlen.
  destruct times as [|t1 [|t2 [|t3 [|t4 [|t5 [|]]]]]]; try discriminate Hlen.
  split.
  - intros k Hk.
    destruct k as [|k]; [by rewrite (check_fresh _ _ _ Hm) |].
    change (take (S k) [t1; t2; t3; t4; t5]) with (t1 :: take k [t2; t3; t4; t5]).
    apply check_many_allowed; [done |].
    rewrite length_take. simpl. lia.
  - pose proof (check_many_counts i [t2; t3; t4; t5] t1 m Hm ltac:(simpl; lia))
      as Hrec.
    by rewrite (check_unlocked _ _ _ _ Hrec eq_refl).
Qed.

Lemma lockout_after_max_attempts_witness :
  fst (checkRateLimit (Js.str "a@b.c") 6000
         (check_many (Js.str "a@b.c") [1000; 2000; 3000; 4000; 5000] ∅))
  = RateResult false (Some 900).
Proof.
  destruct (lockout_after_max_attempts (Js.str "a@b.c")
              [1000; 2000; 3000; 4000; 5000] 6000 ∅ (lookup_empty _) eq_refl)
    as [_ H].
  rewrite H. reflexivity.
Defined.

(** C6.  In every table reachable from the empty one by [checkRateLimit]
    and [resetRateLimit] calls, every record has a count of at most
    [MAX_LOGIN_ATTEMPTS] (and at least 1); and the [lockedUntil] a record
    carries when a [checkRateLimit] call returns, which is in particular the
    one that call has set, is strictly later than the time of the call. *)
Theorem rate_table_invariant m :
  reachable m ->
  (forall i a, m !! i = Some a -> 1 <= count a <= MAX_LOGIN_ATTEMPTS) /\
  (forall i now a' l,
     snd (checkRateLimit i now m) !! i = Some a' ->
     lockedUntil a' = Some l -> now < l).
Proof.
  intros Hreach. split.
  - induction Hreach as [|c m Hreach IH]; intros i a Hi.
    + by rewrite lookup_empty in Hi.
    + destruct c as [j now|j]; simpl in Hi.
      * destruct (decide (j = i)) as [->|Hne].
        -- apply (check_post i now m a Hi). apply IH.
        -- rewrite (check_other _ _ _ _ Hne) in Hi. by apply (IH i).
      * unfold resetRateLimit in Hi.
        apply lookup_delete_Some in Hi as [_ Hi]. by apply (IH i).
  - intros i now a' l Hi Hl. by apply (check_post i now m a' Hi).
Qed.

Lemma rate_table_invariant_witness :
  reachable (run_call (CallCheck (Js.str "a@b.c") 1000) ∅) /\
  (forall a,
     run_call (CallCheck (Js.str "a@b.c") 1000) ∅ !! Js.str "a@b.c" = Some a ->
     1 <= count a <= MAX_LOGIN_ATTEMPTS).
Proof.
  assert (Hr : reachable (run_call (CallCheck (Js.str "a@b.c") 1000) ∅))
    by (apply reachable_step, reachable_init).
  split; [exact Hr |].
  intros a. apply (proj1 (rate_table_invariant _ Hr)).
Defined.

(** C8.  Whatever the table holds for an identifier, [resetRateLimit] and
    then [checkRateLimit] on it give what a first call gives on a table with
    no record for it: the call is allowed, with no remaining time, and the
    record is a count of 1 at the time of the call, with no lockout; the
    records of the other identifiers are untouched. *)
Theorem reset_then_check_is_first_attempt i (now : N) m m0 :
  m0 !! i = None ->
  let after := checkRateLimit i now (resetRateLimit i m) in
  let first := checkRateLimit i now m0 in
  fst after = fst first /\
  fst after = RateResult true None /\
  snd after !! i = snd first !! i /\
  snd after !! i = Some (Attempts 1 now None) /\
  snd after = <[i := Attempts 1 now None]> m.
Proof.
  intros Hm0. simpl.
  assert (Hd : resetRateLimit i m !! i = None) by apply lookup_delete_eq.
  rewrite (check_fresh _ _ _ Hd), (check_fresh _ _ _ Hm0). simpl.
  rewrite !lookup_insert_eq. unfold resetRateLimit.
  by rewrite insert_delete_eq.
Qed.

Lemma reset_then_check_is_first_attempt_witness :
  fst (checkRateLimit (Js.str "a@b.c") 7000
         (resetRateLimit (Js.str "a@b.c")
            {[ Js.str "a@b.c" := Attempts 5 5000 (Some 906000) ]}))
  = RateResult true None.
Proof.
  exact (proj1 (proj2 (reset_then_check_is_first_attempt (Js.str "a@b.c") 7000
           {[ Js.str "a@b.c" := Attempts 5 5000 (Some 906000) ]} ∅
           (lookup_empty _)))).
Defined.

(** C9.  When the record of an identifier has [lockedUntil] strictly after
    [now], [checkRateLimit] returns not-allowed with [remainingTime] the
    ceiling of [(lockedUntil - now) / 1000] and leaves the whole table, hence
    the record's count, last attempt and deadline, unchanged; so does any
    run of calls made before the deadline. *)
Theorem locked_out_check_is_frame i (now : N) m a l :
  m !! i = Some a -> lockedUntil a = Some l -> now < l ->
  checkRateLimit i now m
  = (RateResult false (Some (ceil_div (l - now) 1000)), m) /\
  (l - now <= ceil_div (l - now) 1000 * 1000 < l - now + 1000) /\
  (forall times : list N,
     Forall (fun t => t < l) times -> check_many i times m = m).
Proof.
  intros Hm Hl Hlt. split; [by apply (check_locked i now m a l) |].
  split; [by apply ceil_div_bounds |].
  intros times Htimes. unfold check_many.
  induction Htimes as [|t times Ht _ IH]; [done |].
  simpl. by rewrite (check_locked i t m a l Hm Hl Ht).
Qed.

Lemma locked_out_check_is_frame_witness :
  checkRateLimit (Js.str "a@b.c") 6500
    {[ Js.str "a@b.c" := Attempts 5 5000 (Some 906000) ]}
  = (RateResult false (Some 900),
     {[ Js.str "a@b.c" := Attempts 5 5000 (Some 906000) ]}).
Proof.
  exact (proj1 (locked_out_check_is_frame (Js.str "a@b.c") 6500
           {[ Js.str "a@b.c" := Attempts 5 5000 (Some 906000) ]}
           (Attempts 5 5000 (Some 906000)) 906000
           (lookup_singleton_eq _ _) eq_refl eq_refl)).
Defined.

End RateLimitProofs.
(** ** Sessions *)

Module SessionProofs.

Import Js JsValue SessionManager.

(** [JSON.stringify] and [JSON.parse] carry a clean value unchanged. *)
Lemma json_roundtrip_clean (v : value) :
  json_clean v = true -> json_roundtrip v = Some v.
Proof.
  induction v as [| | b | [|z] | s | items IH | fields IH] using value_ind';
    try done.
  - cbn [json_clean json_roundtrip]. intros Hc. do 2 f_equal.
    induction IH as [|x items Hx _ IHitems]; [done |].
    cbn [forallb] in Hc. apply andb_true_iff in Hc as [Hcx Hc].
    cbn [map]. by rewrite (Hx Hcx), IHitems.
  - cbn [json_clean json_roundtrip]. intros Hc. do 2 f_equal.
    induction IH as [|[k x] fields Hx _ IHfields]; [done |].
    cbn [forallb] in Hc. apply andb_true_iff in Hc as [Hcx Hc].
    cbn [omap list_omap]. simpl in Hx, Hcx. cbn [fst snd].
    rewrite (Hx Hcx). cbn [fmap option_fmap option_map].
    f_equal. by apply IHfields.
Qed.

Section Sessions.

Variable StringToNumber : jsstring -> number.
Variable ObjectToNumber : value -> option number.

(** What [setUserSession] stores: the record without the [userData]
    property when [JSON.stringify] leaves it out. *)
Lemma setUserSession_stored (userId : jsstring) (userData : value)
    (now1 now2 : N) (st : storage) :
  setUserSession userId userData now1 now2 st
  = <[SESSION_KEY :=
        Document
          (VObject
             ((str "userId", VString userId)
              :: match json_roundtrip userData with
                 | Some j => [(str "userData", j)]
                 | None => []
                 end
              ++ [(str "timestamp", VNumber (Num (Z.of_N now1)));
                  (str "expires",
                   VNumber (Num (Z.of_N (now2 + SecurityUtils.SESSION_TIMEOUT))))]))]>
      st.
Proof.
  unfold setUserSession, setItem_json.
  cbn [json_roundtrip omap list_omap fst snd fmap option_fmap option_map].
  by destruct (json_roundtrip userData).
Qed.

(** C5 (as amended).  After [setUserSession userId userData], with
    [expires] 24 hours after the clock reading taken for it: a
    [getUserSession] at any time not past [expires] returns the stored
    record, which carries [userId], the two times, and what JSON makes of
    [userData] (that is [userData] itself when it is null, a boolean, an
    integer, a string, or an array or plain object of such); a
    [getUserSession] at a time past [expires] returns [null] and removes the
    item, after which every [getUserSession] returns [null]. *)
Theorem user_session_lifecycle (userId : jsstring) (userData : value)
    (now1 now2 : N) (st : storage) :
  let st1 := setUserSession userId userData now1 now2 st in
  let expires := now2 + SecurityUtils.SESSION_TIMEOUT in
  (forall now, now <= expires ->
     exists session,
       getUserSession StringToNumber ObjectToNumber now st1
       = (Return session, st1) /\
       member session (str "userId") = Some (VString userId) /\
       member session (str "userData")
       = Some (default VUndefined (json_roundtrip userData)) /\
       member session (str "timestamp") = Some (VNumber (Num (Z.of_N now1))) /\
       member session (str "expires") = Some (VNumber (Num (Z.of_N expires)))) /\
  (json_clean userData = true ->
     default VUndefined (json_roundtrip userData) = userData) /\
  (forall now, expires < now ->
     getUserSession StringToNumber ObjectToNumber now st1
     = (Return VNull, clearUserSession st1) /\
     forall now',
       getUserSession StringToNumber ObjectToNumber now' (clearUserSession st1)
       = (Return VNull, clearUserSession st1)).
Proof.
  cbv zeta. rewrite setUserSession_stored.
  set (session := VObject _). set (st1 := <[SESSION_KEY := _]> st).
  assert (Hexp : member session (str "expires")
                 = Some (VNumber (Num (Z.of_N (now2 + SecurityUtils.SESSION_TIMEOUT))))).
  { subst session. by destruct (json_roundtrip userData). }
  assert (Hget : forall now,
            getUserSession StringToNumber ObjectToNumber now st1
            = if (Z.of_N (now2 + SecurityUtils.SESSION_TIMEOUT) <? Z.of_N now)%Z
              then (Return VNull, clearUserSession st1)
              else (Return session, st1)).
  { intros now. unfold getUserSession, get_body. subst st1.
    rewrite lookup_insert_eq. rewrite Hexp.
    unfold number_gt, to_number.
    by destruct (Z.of_N (now2 + SecurityUtils.SESSION_TIMEOUT) <? Z.of_N now)%Z. }
  split; [| split].
  - intros now Hnow. exists session. rewrite Hget.
    rewrite (proj2 (Z.ltb_ge _ _)) by lia.
    split; [done |]. subst session.
    by destruct (json_roundtrip userData).
  - intros Hclean. by rewrite (json_roundtrip_clean _ Hclean).
  - intros now Hnow. rewrite Hget. rewrite (proj2 (Z.ltb_lt _ _)) by lia.
    split; [done |]. intros now'.
    unfold getUserSession, get_body, clearUserSession.
    by rewrite lookup_delete_eq.
Qed.

(** C10.  [getUserSession] and [getAdminSession] return ([Return]) whatever
    the storage holds and never end in an exception; and they return [null],
    leaving the storage as it is, when their item is absent, is the empty
    string, is a string [JSON.parse] rejects, or is the JSON text [null]. *)
Theorem getters_never_throw (now : N) (st : storage) :
  let unreadable o :=
    o = None \/ o = Some EmptyText \/ o = Some Malformed
    \/ o = Some (Document VNull) in
  (exists v st', getUserSession StringToNumber ObjectToNumber now st
                 = (Return v, st')) /\
  (exists v st', getAdminSession StringToNumber ObjectToNumber now st
                 = (Return v, st')) /\
  (unreadable (st !! SESSION_KEY) ->
   getUserSession StringToNumber ObjectToNumber now st = (Return VNull, st)) /\
  (unreadable (st !! ADMIN_SESSION_KEY) ->
   getAdminSession StringToNumber ObjectToNumber now st = (Return VNull, st)).
Proof.
  cbv zeta. unfold getUserSession, getAdminSession, get_body.
  split; [| split; [| split]].
  - destruct (st !! SESSION_KEY) as [[| |parsed]|]; simpl; eauto.
    destruct (member parsed (str "expires")) as [expires|]; simpl; eauto.
    destruct (number_gt StringToNumber ObjectToNumber now expires) as [[|]|];
      simpl; eauto.
  - destruct (st !! ADMIN_SESSION_KEY) as [[| |parsed]|]; simpl; eauto.
    destruct (member parsed (str "expires")) as [expires|]; simpl; eauto.
    destruct (number_gt StringToNumber ObjectToNumber now expires) as [[|]|];
      simpl; eauto.
  - by intros [-> | [-> | [-> | ->]]].
  - by intros [-> | [-> | [-> | ->]]].
Qed.

End Sessions.

(** C5 as stated fails for data that JSON does not carry unchanged: the
    number [NaN] comes back as [null], and an object comes back without the
    properties whose value is [undefined]. *)
Lemma session_data_counterexample :
  fst (getUserSession (fun _ => NaN) (fun _ => None) 2000
         (setUserSession (str "u1") (VNumber NaN) 1000 1000 ∅))
  = Return (VObject [ (str "userId", VString (str "u1"));
                      (str "userData", VNull);
                      (str "timestamp", VNumber (Num 1000));
                      (str "expires", VNumber (Num 86401000)) ])
  /\ VNull <> VNumber NaN
  /\ fst (getUserSession (fun _ => NaN) (fun _ => None) 2000
            (setUserSession (str "u1")
               (VObject [ (str "name", VString (str "A"));
                          (str "avatar", VUndefined) ])
               1000 1000 ∅))
     = Return (VObject [ (str "userId", VString (str "u1"));
                         (str "userData",
                          VObject [ (str "name", VString (str "A")) ]);
                         (str "timestamp", VNumber (Num 1000));
                         (str "expires", VNumber (Num 86401000)) ]).
Proof. split; [| split]; [vm_compute; reflexivity | discriminate | vm_compute; reflexivity]. Qed.

End SessionProofs.
(** ** Moderation *)

Module ChatProofs.

Import Js ChatService.

Lemma same_store_refl w : same_store w w.
Proof. by repeat split. Qed.

(** A request changes no document; it is served when no fault is due. *)
Lemma request_cases (w : world) :
  exists c w', request w = (c, w') /\ same_store w w'
               /\ faults w' = tail (faults w).
Proof.
  unfold request. destruct (faults w) as [|[|] fs] eqn:Hf;
    eexists _, _; (split; [reflexivity |]); split;
    try apply same_store_refl; try by repeat split.
Qed.

Lemma request_served (n : nat) (w : world) :
  served (S n) w ->
  exists w', request w = (Return tt, w') /\ same_store w w' /\ served n w'.
Proof.
  unfold served, request. intros Hs.
  destruct (faults w) as [|[|] fs] eqn:Hf.
  - exists w. rewrite Hf. repeat split. by rewrite take_nil.
  - cbn [take] in Hs. by apply Forall_cons in Hs as [? _].
  - cbn [take] in Hs. apply Forall_cons in Hs as [_ Hs].
    eexists. split; [reflexivity |]. by repeat split.
Qed.

(** The first document of the query for the active bans of a user is a ban
    of that user, active, stored under its identifier. *)
Lemma active_bans_head (userId : jsstring) (bans : gmap docid BannedUser)
    (banId : docid) (b : BannedUser) rest :
  active_bans userId bans = (banId, b) :: rest ->
  bans !! banId = Some b /\ ban_userId b = userId /\ isActive b = true.
Proof.
  intros H.
  assert (Hin : In (banId, b) (active_bans userId bans))
    by (rewrite H; by left).
  unfold active_bans in Hin. apply filter_In in Hin as [Hin Hf].
  apply andb_true_iff in Hf as [H1 H2].
  apply bool_decide_eq_true in H1, H2. simpl in H1, H2.
  split; [| done].
  apply elem_of_map_to_list. by apply list_elem_of_In.
Qed.

(** [isChatOpen] returns a boolean and changes no document. *)
Lemma isChatOpen_frame (w : world) :
  exists b w', isChatOpen w = (Return b, w') /\ same_store w w'.
Proof.
  destruct (request_cases w) as (c & w1 & Hreq & Hsame & _).
  unfold isChatOpen, getDocs_openSessions, try_catch, bind, ret.
  rewrite Hreq. destruct c; eauto.
Qed.

(** [isUserBanned] returns a boolean and changes no message and no chat
    session; when it returns [true] it has changed no document at all. *)
Lemma isUserBanned_frame (userId : jsstring) (now : N) (w : world) :
  exists b w',
    isUserBanned userId now w = (Return b, w') /\
    chat w' = chat w /\ chatSessions w' = chatSessions w /\
    (b = true -> bannedUsers w' = bannedUsers w).
Proof.
  destruct (request_cases w) as (c & w1 & Hreq & (Hc1 & Hs1 & Hb1) & _).
  unfold isUserBanned, getDocs_activeBans, try_catch, bind, ret.
  rewrite Hreq. destruct c as [[]|]; [| by eauto 10].
  destruct (active_bans userId (bannedUsers w1)) as [|[banId banData] rest];
    [by eauto 10 |].
  destruct (expired banData now); [| by eauto 10].
  destruct (request_cases w1) as (c2 & w2 & Hreq2 & (Hc2 & Hs2 & Hb2) & _).
  unfold updateDoc_ban, bind. rewrite Hreq2.
  destruct c2 as [[]|].
  - destruct (bannedUsers w2 !! banId).
    + eexists _, _. split; [reflexivity |]. simpl.
      repeat split; [congruence | congruence | done].
    + eexists _, _. split; [reflexivity |].
      repeat split; [congruence | congruence | done].
  - eexists _, _. split; [reflexivity |].
    repeat split; [congruence | congruence | done].
Qed.

(** C4.  When the first active ban the query finds for a user carries an
    [expiresAt] before [now], [isUserBanned] returns [false], whether or not
    the store serves its requests, and when it serves the two requests (the
    query and the update) that ban is stored with [isActive] false, the
    other documents being as they were; when the ban found has no
    [expiresAt], or one that is not before [now], and the query is served,
    [isUserBanned] returns [true] and changes no document. *)
Theorem isUserBanned_expiry (userId : jsstring) (now : N) (w : world)
    (banId : docid) (banData : BannedUser) (rest : list (docid * BannedUser)) :
  active_bans userId (bannedUsers w) = (banId, banData) :: rest ->
  (forall e, expiresAt banData = Some e -> (e < Z.of_N now)%Z ->
     fst (isUserBanned userId now w) = Return false /\
     (served 2 w ->
      bannedUsers (snd (isUserBanned userId now w))
      = <[banId := deactivate banData]> (bannedUsers w) /\
      isActive (deactivate banData) = false /\
      chat (snd (isUserBanned userId now w)) = chat w /\
      chatSessions (snd (isUserBanned userId now w)) = chatSessions w)) /\
  ((expiresAt banData = None
    \/ exists e, expiresAt banData = Some e /\ (Z.of_N now <= e)%Z) ->
   served 1 w ->
   fst (isUserBanned userId now w) = Return true /\
   same_store w (snd (isUserBanned userId now w))).
Proof.
  intros Hfound.
  destruct (active_bans_head _ _ _ _ _ Hfound) as (Hstored & _ & _).
  split.
  - intros e He Hlt.
    assert (Hexp : expired banData now = true)
      by (unfold expired; rewrite He; by apply Z.ltb_lt).
    split.
    + destruct (isUserBanned_frame userId now w) as (b & w' & Hrun & _ & _ & Hb).
      rewrite Hrun. simpl. destruct b; [| done]. exfalso.
      (* a [true] would come from a ban that has not expired *)
      revert Hrun.
      unfold isUserBanned, getDocs_activeBans, updateDoc_ban, try_catch, bind, ret.
      destruct (request_cases w) as (c & w1 & Hreq & (_ & _ & Hb1) & _).
      rewrite Hreq. destruct c as [[]|]; [| by intros [=]].
      rewrite Hb1, Hfound, Hexp.
      destruct (request w1) as [[[]|] w2]; [| by intros [=]].
      by destruct (bannedUsers w2 !! banId); intros [=].
    + intros Hserved.
      destruct (request_served 1 w Hserved) as (w1 & Hreq & (Hc1 & Hs1 & Hb1) & Hs).
      destruct (request_served 0 w1 Hs) as (w2 & Hreq2 & (Hc2 & Hs2 & Hb2) & _).
      unfold isUserBanned, getDocs_activeBans, updateDoc_ban, try_catch, bind, ret.
      rewrite Hreq, Hb1, Hfound, Hexp, Hreq2, Hb2, Hb1, Hstored. simpl.
      repeat split; congruence.
  - intros Hnot Hserved.
    assert (Hexp : expired banData now = false).
    { unfold expired. destruct Hnot as [-> | (e & -> & Hle)]; [done |].
      by apply Z.ltb_ge. }
    destruct (request_served 0 w Hserved) as (w1 & Hreq & (Hc1 & Hs1 & Hb1) & _).
    unfold isUserBanned, getDocs_activeBans, try_catch, bind, ret.
    rewrite Hreq, Hb1, Hfound, Hexp. simpl. by repeat split.
Qed.

Lemma isUserBanned_expiry_witness :
  fst (isUserBanned (str "u1") 60 expired_ban_world) = Return false /\
  (isActive <$> bannedUsers (snd (isUserBanned (str "u1") 60 expired_ban_world))
                !! str "ban1")
  = Some false.
Proof.
  destruct (isUserBanned_expiry (str "u1") 60 expired_ban_world (str "ban1")
              {| ban_userId := str "u1"; bannedBy := str "admin";
                 reason := str "spam"; bannedAt := 10;
                 expiresAt := Some 50%Z; isActive := true |} [])
    as [H _]; [vm_compute; reflexivity |].
  destruct (H 50%Z eq_refl eq_refl) as [Hret Hflip].
  split; [exact Hret |].
  destruct (Hflip ltac:(constructor)) as (Hbans & _).
  rewrite Hbans. by rewrite lookup_insert_eq.
Defined.

Section Sanitized.

Variable sanitizeHTML : jsstring -> jsstring.

(** C1.  [sendMessage] tries its guards in the order [validateMessage],
    [isUserBanned], [isChatOpen]: a message [validateMessage] rejects gives
    the invalid-message failure, whatever the other two would say, and
    leaves the world as it is; a valid message of a user [isUserBanned]
    reports banned gives the banned failure, whatever [isChatOpen] would
    say; a valid message of a user not reported banned, when [isChatOpen]
    then reports the chat closed, gives the closed-chat failure.  In the
    three cases the call ends with the failed guard (the world is the one
    that guard leaves), no message document is written and no chat session
    is changed. *)
Theorem sendMessage_guards (userId userName message : jsstring)
    (userAvatar : option jsstring) (isAdmin : bool) (now : N)
    (messageId : docid) (serverTime : N) (w : world) :
  let res := sendMessage sanitizeHTML userId userName message userAvatar
               isAdmin now messageId serverTime w in
  let banned := isUserBanned userId now w in
  let opened := isChatOpen (snd banned) in
  let unchanged :=
    chat (snd res) = chat w /\ chatSessions (snd res) = chatSessions w in
  (SecurityUtils.validateMessage message = false ->
   fst res = Return (Result false "الرسالة غير صالحة أو طويلة جداً.")
   /\ snd res = w) /\
  (SecurityUtils.validateMessage message = true ->
   fst banned = Return true ->
   fst res = Return (Result false "تم حظرك من الدردشة.")
   /\ snd res = snd banned /\ unchanged) /\
  (SecurityUtils.validateMessage message = true ->
   fst banned = Return false ->
   fst opened = Return false ->
   fst res = Return (Result false "الدردشة مغلقة حالياً.")
   /\ snd res = snd opened /\ unchanged).
Proof.
  cbv zeta.
  destruct (isUserBanned_frame userId now w) as (b & w1 & Hban & Hc1 & Hs1 & _).
  destruct (isChatOpen_frame w1) as (o & w2 & Hopen & Hc2 & Hs2 & _).
  unfold sendMessage, try_catch, bind, ret.
  destruct (SecurityUtils.validateMessage message); simpl.
  - rewrite Hban. simpl. split; [by intros [=] |]. split.
    + intros _ [= ->]. simpl. by repeat split.
    + intros _ [= ->]. rewrite Hopen. simpl. intros [= ->]. simpl.
      repeat split; congruence.
  - split; [done |]. by split; intros [=].
Qed.

(** C7.  [banUser] does not create the permanent ban of the specification.
    With no duration, or a duration of 0, the ban it builds carries
    [expiresAt: undefined], on which [setDoc] throws: the call ends where
    [isUserBanned] left it, with no request for the write and no ban
    stored, and it returns its error result when [isUserBanned] reported
    the user not banned (as it does for a user with no active ban) and the
    already-banned result otherwise.  So [banUser] never succeeds without a
    duration other than 0. *)
Theorem banUser_without_expiry_fails (userId adminId reason' : jsstring)
    (duration : option Z) (checkNow now : N) (banId : docid) (serverTime : N)
    (w : world) :
  duration = None \/ duration = Some 0%Z ->
  let banned := isUserBanned userId checkNow w in
  let res := banUser sanitizeHTML userId adminId reason' duration checkNow now
               banId serverTime w in
  snd res = snd banned /\
  (fst banned = Return false ->
   fst res = Return (Result false "خطأ في حظر المستخدم.")) /\
  (fst banned = Return true ->
   fst res = Return (Result false "المستخدم محظور بالفعل.")) /\
  (active_bans userId (bannedUsers w) = [] ->
   fst res = Return (Result false "خطأ في حظر المستخدم.")
   /\ same_store w (snd res)) /\
  (exists text, fst res = Return (Result false text)).
Proof.
  intros Hduration. cbv zeta.
  assert (Hexp : expiry_of duration now = None)
    by (by destruct Hduration as [-> | ->]).
  destruct (isUserBanned_frame userId checkNow w)
    as (b & w1 & Hban & Hc & Hs & Hb).
  assert (Hres : banUser sanitizeHTML userId adminId reason' duration checkNow
                   now banId serverTime w
                 = (Return (Result false
                              (if b then "المستخدم محظور بالفعل."
                               else "خطأ في حظر المستخدم.")), w1)).
  { unfold banUser, try_catch, bind, ret. rewrite Hban.
    destruct b; [done |]. unfold setDoc_ban. cbn [expiresAt].
    by rewrite Hexp. }
  rewrite Hres, Hban. simpl.
  split; [done |]. split; [by intros [= ->] |]. split; [by intros [= ->] |].
  split; [| by eauto].
  intros Hnone.
  destruct (request_cases w) as (c & w0 & Hreq & (Hc0 & Hs0 & Hb0) & _).
  revert Hban. unfold isUserBanned, getDocs_activeBans, try_catch, bind, ret.
  rewrite Hreq.
  destruct c as [[]|]; [rewrite Hb0, Hnone |]; intros [= <- <-];
    by repeat split.
Qed.

End Sanitized.

Lemma banUser_without_expiry_fails_witness :
  active_bans (str "u1") (bannedUsers empty_world) = [] /\
  banUser (fun s => s) (str "u1") (str "admin") (str "spam") None 90 100
    (str "ban2") 101 empty_world
  = (Return (Result false "خطأ في حظر المستخدم."), empty_world).
Proof.
  split; [by vm_compute |].
  destruct (banUser_without_expiry_fails (fun s => s) (str "u1") (str "admin")
              (str "spam") None 90 100 (str "ban2") 101 empty_world
              (or_introl eq_refl))
    as (Hworld & Hresult & _).
  rewrite (surjective_pairing (banUser _ _ _ _ _ _ _ _ _ _)).
  rewrite Hworld, (Hresult eq_refl). reflexivity.
Defined.

(** The guards of [sendMessage] on [closed_chat_world]: an empty message is
    reported invalid, a valid message of the banned sender is reported
    banned, and a valid message of another sender is reported closed; no
    message is stored. *)
Lemma sendMessage_guard_order :
  let send userId message :=
    sendMessage (fun s => s) userId (str "Ahmed") message None false 60
      (str "msg1") 61 closed_chat_world in
  fst (send (str "u1") [])
  = Return (Result false "الرسالة غير صالحة أو طويلة جداً.") /\
  fst (send (str "u1") (str "hello")) = Return (Result false "تم حظرك من الدردشة.") /\
  fst (send (str "u2") (str "hello")) = Return (Result false "الدردشة مغلقة حالياً.") /\
  chat (snd (send (str "u2") (str "hello"))) = ∅.
Proof. cbv zeta. repeat split; vm_compute; reflexivity. Qed.

End ChatProofs.
(** ** Validation and escaping *)

Module ValidationProofs.

Import Js Validation.

Lemma in_range_spec (lo hi c : N) : in_range lo hi c = true <-> lo <= c <= hi.
Proof.
  unfold in_range. rewrite andb_true_iff, !N.leb_le. tauto.
Qed.

Example validateName_examples :
  validateName (str "Ahmed_01") = true /\
  validateName [1571; 1581; 1605; 1583] = true /\
  validateName (str "A") = false /\
  validateName (str "a<b") = false.
Proof. repeat split; vm_compute; reflexivity. Qed.

Example validatePassword_examples :
  validatePassword (str "password") = false /\
  validatePassword (str "12345678") = false /\
  validatePassword (str "abc12345") = true.
Proof. repeat split; vm_compute; reflexivity. Qed.

Example escapeHTML_example :
  escapeHTML (str "<b>hi</b>") = str "&lt;b&gt;hi&lt;/b&gt;".
Proof. vm_compute. reflexivity. Qed.

(** X1.  A name [validateName] accepts has between 2 and 50 code units, all
    of the class of [nameRegex]; so it holds none of the characters [<], [>],
    [&], the double quote and the apostrophe that markup is written with. *)
Theorem validateName_no_markup (name : jsstring) :
  validateName name = true ->
  (2 <= length name <= 50)%nat /\
  (forall c, c ∈ name -> name_char c = true) /\
  (forall c, c ∈ name -> c <> 60 /\ c <> 62 /\ c <> 38 /\ c <> 34 /\ c <> 39).
Proof.
  unfold validateName, test_all_in_class, MAX_NAME_LENGTH. intros H.
  destruct (bool_decide (name = []) || (50 <? N.of_nat (length name))
            || (N.of_nat (length name) <? 2)) eqn:Hguard; [done |].
  apply orb_false_iff in Hguard as [Hguard Hlo].
  apply orb_false_iff in Hguard as [_ Hhi].
  apply N.ltb_ge in Hlo, Hhi.
  apply andb_true_iff in H as [_ Hall].
  rewrite forallb_forall in Hall.
  assert (Hclass : forall c, c ∈ name -> name_char c = true)
    by (intros c Hc; by apply Hall, list_elem_of_In).
  split; [lia |]. split; [done |].
  intros c Hc. specialize (Hclass c Hc).
  repeat split; intros ->; by vm_compute in Hclass.
Qed.

Lemma validateName_no_markup_witness :
  (2 <= length (str "Ahmed_01") <= 50)%nat.
Proof.
  exact (proj1 (validateName_no_markup (str "Ahmed_01") eq_refl)).
Defined.

(** The class of [passwordRegex] holds no line terminator, so the two
    lookaheads see the whole password. *)
Lemma password_char_not_terminator (c : N) :
  password_char c = true -> is_line_terminator c = false.
Proof.
  intros Hc. destruct (is_line_terminator c) eqn:Ht; [| done].
  unfold is_line_terminator in Ht. cbn [existsb] in Ht.
  repeat (apply orb_true_iff in Ht as [Ht | Ht];
          [apply N.eqb_eq in Ht; subst c; by vm_compute in Hc |]).
  done.
Qed.

Lemma lookahead_exists (class : N -> bool) (s : jsstring) :
  forallb password_char s = true ->
  lookahead_dots_then class s = existsb class s.
Proof.
  induction s as [|c s IH]; [done |]. cbn [forallb lookahead_dots_then existsb].
  intros H. apply andb_true_iff in H as [Hc Hs].
  by rewrite (password_char_not_terminator c Hc), IH.
Qed.

(** X2.  [validatePassword] accepts exactly the passwords of at least 8 code
    units, all among the ASCII letters, the digits and [@$!%*#?&], that hold
    at least one letter and at least one digit. *)
Theorem validatePassword_spec (password : jsstring) :
  validatePassword password = true <->
  (8 <= length password)%nat /\
  (forall c, c ∈ password -> password_char c = true) /\
  (exists c, c ∈ password /\ letter c = true) /\
  (exists c, c ∈ password /\ digit c = true).
Proof.
  unfold validatePassword, test_password, MIN_PASSWORD_LENGTH. split.
  - intros H.
    destruct (bool_decide (password = [])
              || (N.of_nat (length password) <? 8)); [done |].
    apply andb_true_iff in H as [H Hmain].
    apply andb_true_iff in Hmain as [Hall Hlen].
    apply andb_true_iff in H as [Hl Hd].
    rewrite (lookahead_exists letter _ Hall) in Hl.
    rewrite (lookahead_exists digit _ Hall) in Hd.
    apply existsb_exists in Hl as (cl & Hcl & Hl).
    apply existsb_exists in Hd as (cd & Hcd & Hd).
    apply Nat.leb_le in Hlen. rewrite forallb_forall in Hall.
    split; [done |]. split; [| split].
    + intros c Hc. by apply Hall, list_elem_of_In.
    + exists cl. split; [by apply list_elem_of_In | done].
    + exists cd. split; [by apply list_elem_of_In | done].
  - intros (Hlen & Hall & (cl & Hcl & Hl) & (cd & Hcd & Hd)).
    assert (Hne : bool_decide (password = []) = false).
    { apply bool_decide_eq_false. intros ->. simpl in Hlen. lia. }
    assert (Hlo : (N.of_nat (length password) <? 8) = false)
      by (apply N.ltb_ge; lia).
    rewrite Hne, Hlo. cbn [orb].
    assert (Hall' : forallb password_char password = true).
    { apply forallb_forall. intros c Hc. by apply Hall, list_elem_of_In. }
    rewrite (lookahead_exists letter _ Hall'), (lookahead_exists digit _ Hall').
    rewrite Hall'.
    rewrite (proj2 (Nat.leb_le _ _) Hlen).
    assert (El : existsb letter password = true).
    { apply existsb_exists. exists cl. split; [by apply list_elem_of_In | done]. }
    assert (Ed : existsb digit password = true).
    { apply existsb_exists. exists cd. split; [by apply list_elem_of_In | done]. }
    by rewrite El, Ed.
Qed.

(** The text of one escaped character starts with [&] exactly when the
    character is one of the four that are written as references. *)
Lemma escape_char_cases (c : N) :
  (c = 38 /\ escape_char c = [38; 97; 109; 112; 59]) \/
  (c = 160 /\ escape_char c = [38; 110; 98; 115; 112; 59]) \/
  (c = 60 /\ escape_char c = [38; 108; 116; 59]) \/
  (c = 62 /\ escape_char c = [38; 103; 116; 59]) \/
  (c <> 38 /\ c <> 160 /\ c <> 60 /\ c <> 62 /\ escape_char c = [c]).
Proof.
  unfold escape_char.
  destruct (c =? 38) eqn:H1; [apply N.eqb_eq in H1; auto |].
  destruct (c =? 160) eqn:H2; [apply N.eqb_eq in H2; auto |].
  destruct (c =? 60) eqn:H3; [apply N.eqb_eq in H3; auto 6 |].
  destruct (c =? 62) eqn:H4; [apply N.eqb_eq in H4; auto 6 |].
  apply N.eqb_neq in H1, H2, H3, H4. auto 10.
Qed.

(** X3.  The text [escapeHTML] returns holds no [<] and no [>], and a text
    without [&], [<], [>] and the no-break space is returned as it is. *)
Theorem escapeHTML_no_tags (text : jsstring) :
  (60 ∉ escapeHTML text) /\ (62 ∉ escapeHTML text) /\
  ((forall c, c ∈ text -> c <> 38 /\ c <> 160 /\ c <> 60 /\ c <> 62) ->
   escapeHTML text = text).
Proof.
  unfold escapeHTML.
  induction text as [|c text (IH1 & IH2 & IH3)];
    [by repeat split; try apply not_elem_of_nil |].
  cbn [flat_map].
  destruct (escape_char_cases c)
    as [[-> ->] | [[-> ->] | [[-> ->] | [[-> ->] | (? & ? & ? & ? & ->)]]]];
    (split; [| split]);
    try (rewrite elem_of_app; intros [Hin | Hin]; [| done];
         repeat (apply elem_of_cons in Hin as [Hin | Hin]; [done |]);
         by apply elem_of_nil in Hin);
    intros Hplain.
  1-4: by destruct (Hplain _ (list_elem_of_here _ _)) as (? & ? & ? & ?).
  cbn [app]. f_equal. apply IH3. intros c' Hc'. apply Hplain. by right.
Qed.

(** X4.  [escapeHTML] loses nothing: two texts with the same escaped text
    are the same text. *)
Theorem escapeHTML_injective (a b : jsstring) :
  escapeHTML a = escapeHTML b -> a = b.
Proof.
  unfold escapeHTML. revert b.
  induction a as [|c a IH]; intros [|d b]; cbn [flat_map]; intros H.
  - done.
  - destruct (escape_char_cases d)
      as [[_ E] | [[_ E] | [[_ E] | [[_ E] | (_ & _ & _ & _ & E)]]]];
      rewrite E in H; discriminate H.
  - destruct (escape_char_cases c)
      as [[_ E] | [[_ E] | [[_ E] | [[_ E] | (_ & _ & _ & _ & E)]]]];
      rewrite E in H; discriminate H.
  - destruct (escape_char_cases c)
      as [[-> Ec] | [[-> Ec] | [[-> Ec] | [[-> Ec] | (? & ? & ? & ? & Ec)]]]];
    destruct (escape_char_cases d)
      as [[-> Ed] | [[-> Ed] | [[-> Ed] | [[-> Ed] | (? & ? & ? & ? & Ed)]]]];
    rewrite ?Ec, ?Ed in H; cbn [app] in H;
    try discriminate H;
    injection H as ?; subst; try done;
    f_equal; by apply IH.
Qed.

Lemma escapeHTML_injective_witness : str "a<b" = str "a<b".
Proof. exact (escapeHTML_injective (str "a<b") (str "a<b") eq_refl). Defined.

End ValidationProofs.
(** ** More on the rate limiter *)

Module RateLimitExtra.

Import SecurityUtils AuthService.

Implicit Types (m : gmap jsstring attempts) (i : jsstring) (a : attempts).

(** X5.  Once the lockout deadline of an identifier is reached ([now] at or
    after a set [lockedUntil]), [checkRateLimit] allows the call and replaces
    the record by a fresh one (a count of 1, no deadline): the table is the
    one [resetRateLimit] followed by [checkRateLimit] would leave. *)
Theorem lockout_expiry_resets i (now : N) m a l :
  m !! i = Some a -> lockedUntil a = Some l -> l <> 0 -> l <= now ->
  checkRateLimit i now m
  = (RateResult true None, <[i := Attempts 1 now None]> m) /\
  snd (checkRateLimit i now m)
  = snd (checkRateLimit i now (resetRateLimit i m)).
Proof.
  intros Hm Hl Hnz Hle.
  assert (E : checkRateLimit i now m
              = (RateResult true None, <[i := Attempts 1 now None]> m)).
  { unfold checkRateLimit. rewrite Hm, Hl. simpl.
    rewrite (proj2 (N.eqb_neq l 0) Hnz). simpl.
    rewrite (proj2 (N.ltb_ge now l)) by lia.
    by rewrite (proj2 (N.leb_le l now)) by lia. }
  split; [exact E |]. rewrite E. unfold checkRateLimit, resetRateLimit.
  rewrite lookup_delete_eq. simpl. by rewrite insert_delete_eq.
Qed.

Lemma lockout_expiry_resets_witness :
  fst (checkRateLimit (Js.str "a@b.c") 906000
         {[ Js.str "a@b.c" := Attempts 5 5000 (Some 906000) ]})
  = RateResult true None.
Proof.
  destruct (lockout_expiry_resets (Js.str "a@b.c") 906000
              {[ Js.str "a@b.c" := Attempts 5 5000 (Some 906000) ]}
              (Attempts 5 5000 (Some 906000)) 906000
              (lookup_singleton_eq _ _) eq_refl ltac:(discriminate)
              ltac:(reflexivity)) as [E _].
  by rewrite E.
Defined.

(** X6.  Whatever the table, an allowed call carries no [remainingTime], and
    a refused call carries one of at least one second and leaves the
    identifier with a deadline after the time of the call. *)
Theorem refused_call_is_locked i (now : N) m :
  let r := fst (checkRateLimit i now m) in
  let m' := snd (checkRateLimit i now m) in
  (allowed r = true -> remainingTime r = None) /\
  (allowed r = false ->
   exists seconds a' l,
     remainingTime r = Some seconds /\ 1 <= seconds /\
     m' !! i = Some a' /\ lockedUntil a' = Some l /\ now < l).
Proof.
  cbv zeta. unfold checkRateLimit.
  destruct (m !! i) as [a|] eqn:Hm; [| by split].
  destruct (truthy (lockedUntil a) && (now <? value_of (lockedUntil a)))
    eqn:H1.
  - split; [done |]. intros _. cbn [fst snd remainingTime].
    apply andb_true_iff in H1 as [Ht Hlt]. apply N.ltb_lt in Hlt.
    destruct (lockedUntil a) as [l|] eqn:Hl; [| done]. simpl in Hlt.
    exists (ceil_div (l - now) 1000), a, l. simpl.
    repeat split; try done.
    pose proof (RateLimitProofs.ceil_div_bounds (l - now) 1000 ltac:(done))
      as [Hlo _].
    destruct (ceil_div (l - now) 1000); lia.
  - destruct (truthy (lockedUntil a) && (value_of (lockedUntil a) <=? now));
      [by split |].
    destruct (MAX_LOGIN_ATTEMPTS <=? count a); [| by split].
    split; [done |]. intros _. cbn [fst snd remainingTime].
    exists 900, (Attempts (count a) (lastAttempt a) (Some (now + LOCKOUT_DURATION))),
      (now + LOCKOUT_DURATION).
    rewrite lookup_insert_eq. repeat split; try done.
    unfold LOCKOUT_DURATION. lia.
Qed.

(** A call and a reset leave the records of the other identifiers alone. *)
Lemma check_frame i j (now : N) m :
  i <> j -> snd (checkRateLimit i now m) !! j = m !! j.
Proof.
  intros Hne. unfold checkRateLimit.
  destruct (m !! i) as [a|]; simpl; [| by rewrite lookup_insert_ne].
  repeat (match goal with |- context [if ?b then _ else _] => destruct b end;
          simpl); try done; by rewrite lookup_insert_ne.
Qed.

(** X7.  The attempts of the admin login and of the user login for one
    address are counted apart: the admin identifier differs from the
    address, and a call or a reset for either leaves the record of the other
    as it is. *)
Theorem admin_attempts_counted_apart (email : jsstring) (now : N) m :
  admin_identifier email <> email /\
  snd (checkRateLimit (admin_identifier email) now m) !! email = m !! email /\
  resetRateLimit (admin_identifier email) m !! email = m !! email /\
  snd (checkRateLimit email now m) !! admin_identifier email
  = m !! admin_identifier email /\
  resetRateLimit email m !! admin_identifier email
  = m !! admin_identifier email.
Proof.
  assert (Hne : admin_identifier email <> email).
  { unfold admin_identifier. intros H. apply (f_equal length) in H.
    rewrite length_app in H. vm_compute (length (Js.str "admin_")) in H. lia. }
  split; [done |]. unfold resetRateLimit.
  repeat split.
  - by apply check_frame.
  - by apply lookup_delete_ne.
  - by apply check_frame.
  - by apply lookup_delete_ne.
Qed.

End RateLimitExtra.
(** ** More on the sessions *)

Module SessionExtra.

Import Js JsValue SessionManager AuthService.

Lemma keys_differ : SESSION_KEY <> ADMIN_SESSION_KEY.
Proof. by vm_compute. Qed.

Section Sessions.

Variable StringToNumber : jsstring -> number.
Variable ObjectToNumber : value -> option number.

(** What [setAdminSession] stores. *)
Lemma setAdminSession_stored (adminId : jsstring) (adminData : value)
    (now1 now2 : N) (st : storage) :
  setAdminSession adminId adminData now1 now2 st
  = <[ADMIN_SESSION_KEY :=
        Document
          (VObject
             ((str "adminId", VString adminId)
              :: match json_roundtrip adminData with
                 | Some j => [(str "adminData", j)]
                 | None => []
                 end
              ++ [(str "timestamp", VNumber (Num (Z.of_N now1)));
                  (str "expires",
                   VNumber (Num (Z.of_N (now2 + SecurityUtils.SESSION_TIMEOUT))))]))]>
      st.
Proof.
  unfold setAdminSession, setItem_json.
  cbn [json_roundtrip omap list_omap fst snd fmap option_fmap option_map].
  by destruct (json_roundtrip adminData).
Qed.

(** X8.  After [setAdminSession adminId adminData], with [expires] 24 hours
    after the clock reading taken for it: [getAdminSession] at any time not
    past [expires] returns the stored record, which carries [adminId], the
    two times and what JSON makes of [adminData]; at a time past [expires]
    it returns [null] and removes the item, after which every
    [getAdminSession] returns [null]. *)
Theorem admin_session_lifecycle (adminId : jsstring) (adminData : value)
    (now1 now2 : N) (st : storage) :
  let st1 := setAdminSession adminId adminData now1 now2 st in
  let expires := now2 + SecurityUtils.SESSION_TIMEOUT in
  (forall now, now <= expires ->
     exists session,
       getAdminSession StringToNumber ObjectToNumber now st1
       = (Return session, st1) /\
       member session (str "adminId") = Some (VString adminId) /\
       member session (str "adminData")
       = Some (default VUndefined (json_roundtrip adminData)) /\
       member session (str "timestamp") = Some (VNumber (Num (Z.of_N now1))) /\
       member session (str "expires") = Some (VNumber (Num (Z.of_N expires)))) /\
  (forall now, expires < now ->
     getAdminSession StringToNumber ObjectToNumber now st1
     = (Return VNull, clearAdminSession st1) /\
     forall now',
       getAdminSession StringToNumber ObjectToNumber now' (clearAdminSession st1)
       = (Return VNull, clearAdminSession st1)).
Proof.
  cbv zeta. rewrite setAdminSession_stored.
  set (session := VObject _). set (st1 := <[ADMIN_SESSION_KEY := _]> st).
  assert (Hexp : member session (str "expires")
                 = Some (VNumber (Num (Z.of_N (now2 + SecurityUtils.SESSION_TIMEOUT))))).
  { subst session. by destruct (json_roundtrip adminData). }
  assert (Hget : forall now,
            getAdminSession StringToNumber ObjectToNumber now st1
            = if (Z.of_N (now2 + SecurityUtils.SESSION_TIMEOUT) <? Z.of_N now)%Z
              then (Return VNull, clearAdminSession st1)
              else (Return session, st1)).
  { intros now. unfold getAdminSession, get_body. subst st1.
    rewrite lookup_insert_eq. rewrite Hexp.
    unfold number_gt, to_number.
    by destruct (Z.of_N (now2 + SecurityUtils.SESSION_TIMEOUT) <? Z.of_N now)%Z. }
  split.
  - intros now Hnow. exists session. rewrite Hget.
    rewrite (proj2 (Z.ltb_ge _ _)) by lia.
    split; [done |]. subst session.
    by destruct (json_roundtrip adminData).
  - intros now Hnow. rewrite Hget. rewrite (proj2 (Z.ltb_lt _ _)) by lia.
    split; [done |]. intros now'.
    unfold getAdminSession, get_body, clearAdminSession.
    by rewrite lookup_delete_eq.
Qed.

(** A getter reads and changes its own item only. *)
Lemma get_body_other (key : jsstring) (clear : storage -> storage)
    (now : N) (st st' : storage) :
  st' !! key = st !! key ->
  fst (get_body StringToNumber ObjectToNumber key clear now st')
  = fst (get_body StringToNumber ObjectToNumber key clear now st).
Proof.
  intros H. unfold get_body. rewrite H.
  destruct (st !! key) as [[| |parsed]|]; try done.
  destruct (member parsed (str "expires")) as [expires|]; [| done].
  by destruct (number_gt StringToNumber ObjectToNumber now expires) as [[|]|].
Qed.

Lemma fst_catch_null (r : completion value * storage) :
  fst (catch_null r)
  = match fst r with
    | Throw => Return VNull
    | c => c
    end.
Proof. by destruct r as [[v|] st']. Qed.

Lemma getUserSession_reads_own (now : N) (st st' : storage) :
  st' !! SESSION_KEY = st !! SESSION_KEY ->
  fst (getUserSession StringToNumber ObjectToNumber now st')
  = fst (getUserSession StringToNumber ObjectToNumber now st).
Proof.
  intros H. unfold getUserSession.
  by rewrite !fst_catch_null, (get_body_other _ _ _ _ _ H).
Qed.

Lemma getAdminSession_reads_own (now : N) (st st' : storage) :
  st' !! ADMIN_SESSION_KEY = st !! ADMIN_SESSION_KEY ->
  fst (getAdminSession StringToNumber ObjectToNumber now st')
  = fst (getAdminSession StringToNumber ObjectToNumber now st).
Proof.
  intros H. unfold getAdminSession.
  by rewrite !fst_catch_null, (get_body_other _ _ _ _ _ H).
Qed.

Lemma getUserSession_keeps_admin (now : N) (st : storage) :
  snd (getUserSession StringToNumber ObjectToNumber now st) !! ADMIN_SESSION_KEY
  = st !! ADMIN_SESSION_KEY.
Proof.
  unfold getUserSession, get_body, clearUserSession.
  destruct (st !! SESSION_KEY) as [[| |parsed]|]; try done.
  destruct (member parsed (str "expires")) as [expires|]; [| done].
  destruct (number_gt StringToNumber ObjectToNumber now expires) as [[|]|];
    try done.
  simpl. apply lookup_delete_ne, keys_differ.
Qed.

Lemma getAdminSession_keeps_user (now : N) (st : storage) :
  snd (getAdminSession StringToNumber ObjectToNumber now st) !! SESSION_KEY
  = st !! SESSION_KEY.
Proof.
  unfold getAdminSession, get_body, clearAdminSession.
  destruct (st !! ADMIN_SESSION_KEY) as [[| |parsed]|]; try done.
  destruct (member parsed (str "expires")) as [expires|]; [| done].
  destruct (number_gt StringToNumber ObjectToNumber now expires) as [[|]|];
    try done.
  simpl. apply lookup_delete_ne. intros H. by apply keys_differ.
Qed.

Lemma setItem_json_other (key other : jsstring) (v : value) (st : storage) :
  key <> other -> setItem_json key v st !! other = st !! other.
Proof.
  intros Hne. unfold setItem_json.
  destruct (json_roundtrip v); by rewrite lookup_insert_ne.
Qed.

(** X9.  The user session and the admin session do not touch each other:
    what [getAdminSession] returns is the same after [setUserSession],
    after [clearUserSession] and after a [getUserSession] (which may remove
    an expired user session), and likewise with the two exchanged. *)
Theorem sessions_are_independent (id : jsstring) (data : value)
    (now1 now2 now now' : N) (st : storage) :
  let getAdmin t s := fst (getAdminSession StringToNumber ObjectToNumber t s) in
  let getUser t s := fst (getUserSession StringToNumber ObjectToNumber t s) in
  getAdmin now (setUserSession id data now1 now2 st) = getAdmin now st /\
  getAdmin now (clearUserSession st) = getAdmin now st /\
  getAdmin now (snd (getUserSession StringToNumber ObjectToNumber now' st))
  = getAdmin now st /\
  getUser now (setAdminSession id data now1 now2 st) = getUser now st /\
  getUser now (clearAdminSession st) = getUser now st /\
  getUser now (snd (getAdminSession StringToNumber ObjectToNumber now' st))
  = getUser now st.
Proof.
  cbv zeta. pose proof keys_differ as Hk.
  assert (Hk' : ADMIN_SESSION_KEY <> SESSION_KEY) by (intros H; by apply Hk).
  split; [| split; [| split; [| split; [| split]]]].
  - apply getAdminSession_reads_own. by apply setItem_json_other.
  - apply getAdminSession_reads_own. by apply lookup_delete_ne.
  - apply getAdminSession_reads_own, getUserSession_keeps_admin.
  - apply getUserSession_reads_own. by apply setItem_json_other.
  - apply getUserSession_reads_own. by apply lookup_delete_ne.
  - apply getUserSession_reads_own, getAdminSession_keeps_user.
Qed.

(** X10.  When [signOut] succeeds, [logout] leaves no session: whatever the
    storage held, both getters return [null] at every later time, with the
    storage as [logout] left it, and nobody is authenticated.  When
    [signOut] throws, [logout] leaves the storage, hence both sessions, as
    they were. *)
Theorem logout_clears_sessions (now : N) (st : storage) :
  let st' := logout (Return tt) st in
  getUserSession StringToNumber ObjectToNumber now st' = (Return VNull, st') /\
  getAdminSession StringToNumber ObjectToNumber now st' = (Return VNull, st') /\
  fst (getCurrentUser StringToNumber ObjectToNumber now st') = Return VNull /\
  fst (getCurrentAdmin StringToNumber ObjectToNumber now st') = Return VNull /\
  isAuthenticated StringToNumber ObjectToNumber now st' = false /\
  isAdminAuthenticated StringToNumber ObjectToNumber now st' = false /\
  logout Throw st = st.
Proof.
  cbv zeta. unfold logout.
  assert (Hu : getUserSession StringToNumber ObjectToNumber now
                 (clearAdminSession (clearUserSession st))
               = (Return VNull, clearAdminSession (clearUserSession st))).
  { unfold getUserSession, get_body, clearAdminSession, clearUserSession.
    rewrite lookup_delete_ne by (intros H; by apply keys_differ).
    by rewrite lookup_delete_eq. }
  assert (Ha : getAdminSession StringToNumber ObjectToNumber now
                 (clearAdminSession (clearUserSession st))
               = (Return VNull, clearAdminSession (clearUserSession st))).
  { unfold getAdminSession, get_body, clearAdminSession.
    by rewrite lookup_delete_eq. }
  unfold getCurrentUser, getCurrentAdmin, isAuthenticated, isAdminAuthenticated,
    isValidSession, isValidAdminSession.
  by rewrite Hu, Ha.
Qed.

(** X11.  After [setUserSession userId userData], [getCurrentUser] returns
    what JSON makes of [userData] at any time not past [expires] (24 hours
    after the clock reading taken for it) and [null] afterwards; and
    whatever the storage holds, [getCurrentUser] and [getCurrentAdmin]
    return a value and never end in an exception. *)
Theorem getCurrentUser_after_login (userId : jsstring) (userData : value)
    (now1 now2 : N) (st : storage) :
  let st1 := setUserSession userId userData now1 now2 st in
  let expires := now2 + SecurityUtils.SESSION_TIMEOUT in
  (forall now, now <= expires ->
     getCurrentUser StringToNumber ObjectToNumber now st1
     = (Return (default VUndefined (json_roundtrip userData)), st1)) /\
  (forall now, expires < now ->
     getCurrentUser StringToNumber ObjectToNumber now st1
     = (Return VNull, clearUserSession st1)) /\
  (forall now st0,
     (exists v st', getCurrentUser StringToNumber ObjectToNumber now st0
                    = (Return v, st')) /\
     (exists v st', getCurrentAdmin StringToNumber ObjectToNumber now st0
                    = (Return v, st'))).
Proof.
  cbv zeta. split; [| split].
  - intros now Hnow. unfold getCurrentUser, getUserSession, get_body.
    rewrite SessionProofs.setUserSession_stored, lookup_insert_eq.
    destruct (json_roundtrip userData) as [j|];
      cbn [app member own_property]; simpl;
      unfold number_gt, to_number;
      by rewrite (proj2 (Z.ltb_ge _ _)) by lia.
  - intros now Hnow. unfold getCurrentUser, getUserSession, get_body.
    rewrite SessionProofs.setUserSession_stored, lookup_insert_eq.
    destruct (json_roundtrip userData) as [j|];
      cbn [app member own_property]; simpl;
      unfold number_gt, to_number;
      by rewrite (proj2 (Z.ltb_lt _ _)) by lia.
  - intros now st0.
    assert (Hdata : forall key r,
              (exists v st', r = (Return v, st')) ->
              exists v st', data_of key r = (Return v, st')).
    { intros key r (v & st' & ->). unfold data_of.
      destruct (truthy_value v) eqn:Ht; [| by eauto].
      destruct v; try discriminate Ht; simpl; eauto. }
    split; apply Hdata.
    + unfold getUserSession, get_body.
      destruct (st0 !! SESSION_KEY) as [[| |parsed]|]; simpl; eauto.
      destruct (member parsed (str "expires")) as [e|]; simpl; eauto.
      destruct (number_gt StringToNumber ObjectToNumber now e) as [[|]|];
        simpl; eauto.
    + unfold getAdminSession, get_body.
      destruct (st0 !! ADMIN_SESSION_KEY) as [[| |parsed]|]; simpl; eauto.
      destruct (member parsed (str "expires")) as [e|]; simpl; eauto.
      destruct (number_gt StringToNumber ObjectToNumber now e) as [[|]|];
        simpl; eauto.
Qed.

End Sessions.

End SessionExtra.
(** ** More on moderation *)

Module ChatExtra.

Import Js ChatService Moderation.

(** What the two queries return, in terms of the documents stored. *)
Lemma elem_of_active_bans (userId : jsstring) (bans : gmap docid BannedUser)
    (id : docid) (b : BannedUser) :
  (id, b) ∈ active_bans userId bans <->
  bans !! id = Some b /\ ban_userId b = userId /\ isActive b = true.
Proof.
  unfold active_bans. rewrite list_elem_of_In, filter_In, <- list_elem_of_In.
  rewrite elem_of_map_to_list, andb_true_iff, !bool_decide_eq_true. simpl.
  tauto.
Qed.

Lemma elem_of_open_filter (sessions : gmap docid ChatSession)
    (id : docid) (s : ChatSession) :
  (id, s) ∈ List.filter (fun d => bool_decide (isOpen (snd d) = true))
                        (map_to_list sessions) <->
  sessions !! id = Some s /\ isOpen s = true.
Proof.
  rewrite list_elem_of_In, filter_In, <- list_elem_of_In.
  rewrite elem_of_map_to_list, bool_decide_eq_true. simpl. tauto.
Qed.

Lemma open_sessions_nil (sessions : gmap docid ChatSession) :
  open_sessions sessions = [] <->
  forall id s, sessions !! id = Some s -> isOpen s = false.
Proof.
  unfold open_sessions. split.
  - intros H id s Hs. destruct (isOpen s) eqn:Ho; [| done]. exfalso.
    assert (Hin : (id, s) ∈ List.filter
                    (fun d => bool_decide (isOpen (snd d) = true))
                    (map_to_list sessions))
      by (by apply elem_of_open_filter).
    destruct (List.filter _ _) as [|x l]; [by apply elem_of_nil in Hin | done].
  - intros H.
    destruct (List.filter _ _) as [|[id s] l] eqn:E; [done |]. exfalso.
    assert (Hin : (id, s) ∈ List.filter
                    (fun d => bool_decide (isOpen (snd d) = true))
                    (map_to_list sessions))
      by (rewrite E; by left).
    apply elem_of_open_filter in Hin as [Hs Ho].
    by rewrite (H id s Hs) in Ho.
Qed.

Lemma open_sessions_cons (sessions : gmap docid ChatSession)
    (id : docid) (s : ChatSession) rest :
  open_sessions sessions = (id, s) :: rest ->
  sessions !! id = Some s /\ isOpen s = true.
Proof.
  unfold open_sessions. intros H. apply elem_of_open_filter.
  destruct (List.filter _ _) as [|x l]; [done |].
  simpl in H. injection H as -> _. by left.
Qed.

(** The guards when their query is served, and when it is rejected. *)
Lemma request_rejected (w : world) fs :
  faults w = true :: fs -> request w = (Throw, with_faults fs w).
Proof. intros H. unfold request. by rewrite H. Qed.

Lemma isChatOpen_served (n : nat) (w : world) :
  served (S n) w ->
  exists w1,
    isChatOpen w
    = (Return (negb (bool_decide (open_sessions (chatSessions w) = []))), w1)
    /\ same_store w w1 /\ served n w1.
Proof.
  intros Hs.
  destruct (ChatProofs.request_served n w Hs) as (w1 & Hreq & Hsame & Hs1).
  exists w1. split; [| done].
  unfold isChatOpen, getDocs_openSessions, try_catch, bind, ret.
  rewrite Hreq. destruct Hsame as (_ & -> & _). done.
Qed.

Lemma isChatOpen_rejected (w : world) fs :
  faults w = true :: fs -> isChatOpen w = (Return false, with_faults fs w).
Proof.
  intros H. unfold isChatOpen, getDocs_openSessions, try_catch, bind, ret.
  by rewrite (request_rejected w fs H).
Qed.

Lemma isUserBanned_rejected (userId : jsstring) (now : N) (w : world) fs :
  faults w = true :: fs ->
  isUserBanned userId now w = (Return false, with_faults fs w).
Proof.
  intros H. unfold isUserBanned, getDocs_activeBans, try_catch, bind, ret.
  by rewrite (request_rejected w fs H).
Qed.

Lemma isUserBanned_none (n : nat) (userId : jsstring) (now : N) (w : world) :
  active_bans userId (bannedUsers w) = [] -> served (S n) w ->
  exists w1,
    isUserBanned userId now w = (Return false, w1)
    /\ same_store w w1 /\ served n w1.
Proof.
  intros Hnone Hs.
  destruct (ChatProofs.request_served n w Hs) as (w1 & Hreq & Hsame & Hs1).
  exists w1. split; [| done].
  unfold isUserBanned, getDocs_activeBans, try_catch, bind, ret.
  rewrite Hreq. destruct Hsame as (_ & _ & ->). by rewrite Hnone.
Qed.

Lemma served_with_faults (n : nat) (w : world) fs :
  served n (with_faults fs w) <-> Forall (fun r => r = false) (take n fs).
Proof. done. Qed.

(** X12.  [openChat] fails with the already-open message, changing no
    document, when [isChatOpen] reports the chat open; when [isChatOpen]
    reports it closed and the store serves the write, it succeeds and stores,
    under the identifier generated for it, an open session of the admin with
    no participant and a message count of 0, after which a served
    [isChatOpen] reports the chat open. *)
Theorem openChat_spec (adminId : jsstring) (sessionId : docid)
    (serverTime : N) (w : world) :
  let opened := isChatOpen w in
  let res := openChat adminId sessionId serverTime w in
  (fst opened = Return true ->
   fst res = Return (Result false "الدردشة مفتوحة بالفعل.")
   /\ same_store w (snd res)) /\
  (fst opened = Return false -> served 1 (snd opened) ->
   fst res = Return (Result true "تم فتح الدردشة بنجاح.") /\
   chatSessions (snd res)
   = <[sessionId := opened_session adminId serverTime]> (chatSessions w) /\
   chat (snd res) = chat w /\ bannedUsers (snd res) = bannedUsers w /\
   (served 1 (snd res) -> fst (isChatOpen (snd res)) = Return true)).
Proof.
  cbv zeta.
  destruct (ChatProofs.isChatOpen_frame w) as (o & w1 & Hopen & Hsame).
  unfold openChat, try_catch, bind, ret. rewrite Hopen. simpl. split.
  - intros [= ->]. by simpl.
  - intros [= ->] Hs.
    destruct (ChatProofs.request_served 0 w1 Hs) as (w2 & Hreq & Hsame2 & _).
    unfold setDoc_session, bind. rewrite Hreq. simpl.
    destruct Hsame as (Hc & Hss & Hb). destruct Hsame2 as (Hc2 & Hss2 & Hb2).
    rewrite Hc2, Hss2, Hb2, Hc, Hss, Hb. repeat split.
    intros Hs3.
    destruct (isChatOpen_served 0 _ Hs3) as (w3 & -> & _). simpl.
    f_equal. apply negb_true_iff, bool_decide_eq_false. intros Hnil.
    rewrite open_sessions_nil in Hnil.
    by specialize (Hnil sessionId _ (lookup_insert_eq _ _ _)).
Qed.

Lemma at_most_one_open_weakened (s s' : gmap docid ChatSession) :
  sessions_weakened s s' -> at_most_one_open s -> at_most_one_open s'.
Proof.
  intros [-> | (id & d & d' & Hd & Hopen & ->)] Hone; [done |].
  intros i j si sj Hi Hj Hoi Hoj.
  destruct (decide (id = i)) as [<- | Hni];
    destruct (decide (id = j)) as [<- | Hnj]; [done | | |].
  - rewrite lookup_insert_eq in Hi. injection Hi as <-.
    rewrite lookup_insert_ne in Hj by done.
    by apply (Hone id j d sj Hd Hj (Hopen Hoi) Hoj).
  - rewrite lookup_insert_eq in Hj. injection Hj as <-.
    rewrite lookup_insert_ne in Hi by done.
    by apply (Hone i id si d Hi Hd Hoi (Hopen Hoj)).
  - rewrite lookup_insert_ne in Hi, Hj by done.
    by apply (Hone i j si sj).
Qed.

Lemma updateDoc_session_weakens (id : docid) (f : ChatSession -> ChatSession)
    (w : world) :
  (forall d, isOpen (f d) = true -> isOpen d = true) ->
  exists c w',
    updateDoc_session id f w = (c, w') /\ chat w' = chat w /\
    bannedUsers w' = bannedUsers w /\
    sessions_weakened (chatSessions w) (chatSessions w').
Proof.
  intros Hf.
  destruct (ChatProofs.request_cases w) as (c & w1 & Hreq & (Hc & Hs & Hb) & _).
  unfold updateDoc_session, bind. rewrite Hreq.
  destruct c as [[]|].
  - destruct (chatSessions w1 !! id) as [d|] eqn:Hd.
    + eexists _, _. split; [reflexivity |]. simpl. repeat split; try done.
      right. exists id, d, (f d). rewrite <- Hs. auto.
    + eexists _, _. split; [reflexivity |]. repeat split; try done.
      left. done.
  - eexists _, _. split; [reflexivity |]. repeat split; try done. by left.
Qed.

Lemma updateSessionParticipants_frame (userId : jsstring) (w : world) :
  exists w',
    updateSessionParticipants userId w = (Return tt, w') /\
    chat w' = chat w /\ bannedUsers w' = bannedUsers w /\
    sessions_weakened (chatSessions w) (chatSessions w').
Proof.
  destruct (ChatProofs.request_cases w) as (c & w1 & Hreq & (Hc & Hs & Hb) & _).
  unfold updateSessionParticipants, getDocs_openSessions, try_catch, bind, ret.
  rewrite Hreq. destruct c as [[]|].
  - destruct (open_sessions (chatSessions w1)) as [|[sid sd] rest].
    + exists w1. repeat split; try done. left. done.
    + assert (Hupd : forall f,
                (forall d, isOpen (f d) = true -> isOpen d = true) ->
                exists w',
                  (let (c, w') := updateDoc_session sid f w1 in
                   match c with
                   | Return a => (Return a, w')
                   | Throw => (Return (), w')
                   end) = (Return (), w') /\
                  chat w' = chat w /\ bannedUsers w' = bannedUsers w /\
                  sessions_weakened (chatSessions w) (chatSessions w')).
      { intros f Hf.
        destruct (updateDoc_session_weakens sid f w1 Hf)
          as (c2 & w2 & -> & Hc2 & Hb2 & Hw).
        exists w2. rewrite <- Hs. split; [by destruct c2 as [[]|] |].
        repeat split; congruence. }
      destruct (negb (bool_decide (userId ∈ participants sd)));
        apply Hupd; by intros d.
  - exists w1. repeat split; try done. by left.
Qed.

(** X13.  That at most one chat session is open is kept by [closeChat] and
    by [sendMessage], whatever requests the store rejects, and by [openChat]
    when its query is served. *)
Theorem at_most_one_open_kept (sanitizeHTML : jsstring -> jsstring)
    (adminId userId userName message : jsstring)
    (userAvatar : option jsstring) (isAdmin : bool)
    (id : docid) (now serverTime : N) (w : world) :
  at_most_one_open (chatSessions w) ->
  at_most_one_open (chatSessions (snd (closeChat adminId serverTime w))) /\
  at_most_one_open
    (chatSessions
       (snd (sendMessage sanitizeHTML userId userName message userAvatar
               isAdmin now id serverTime w))) /\
  (served 1 w ->
   at_most_one_open (chatSessions (snd (openChat adminId id serverTime w)))).
Proof.
  intros Hone. split; [| split].
  - (* closeChat *)
    apply (at_most_one_open_weakened (chatSessions w)); [| done].
    destruct (ChatProofs.request_cases w) as (c & w1 & Hreq & (Hc & Hs & Hb) & _).
    unfold closeChat, getDocs_openSessions, try_catch, bind, ret.
    rewrite Hreq. destruct c as [[]|]; [| by left; simpl].
    destruct (open_sessions (chatSessions w1)) as [|[sid sd] rest];
      [by left; simpl |].
    destruct (updateDoc_session_weakens sid (close_session adminId serverTime) w1)
      as (c2 & w2 & -> & _ & _ & Hw); [by intros d |].
    rewrite <- Hs. by destruct c2 as [[]|].
  - (* sendMessage *)
    apply (at_most_one_open_weakened (chatSessions w)); [| done].
    unfold sendMessage, try_catch, bind, ret.
    destruct (SecurityUtils.validateMessage message); simpl; [| by left].
    destruct (ChatProofs.isUserBanned_frame userId now w)
      as (b & w1 & -> & _ & Hs1 & _).
    destruct b; simpl; [left; congruence |].
    destruct (ChatProofs.isChatOpen_frame w1) as (o & w2 & -> & _ & Hs2 & _).
    destruct o; simpl; [| left; congruence].
    destruct (ChatProofs.request_cases w2)
      as (c & w3 & Hreq & (_ & Hs3 & _) & _).
    unfold setDoc_message. cbn [msg_userAvatar].
    destruct userAvatar as [avatar|]; [| left; simpl; congruence].
    unfold bind. rewrite Hreq.
    destruct c as [[]|]; simpl; [| left; congruence].
    match goal with
    | |- context [updateSessionParticipants userId ?w'] =>
        destruct (updateSessionParticipants_frame userId w')
          as (w4 & -> & _ & _ & Hw)
    end.
    simpl in *. rewrite Hs3, Hs2, Hs1 in Hw. done.
  - (* openChat *)
    intros Hs.
    destruct (isChatOpen_served 0 w Hs) as (w1 & Hopen & (_ & Hs1 & _) & _).
    unfold openChat, try_catch, bind, ret. rewrite Hopen.
    destruct (bool_decide (open_sessions (chatSessions w) = [])) eqn:Hnil;
      simpl; [| by rewrite Hs1].
    apply bool_decide_eq_true in Hnil. rewrite open_sessions_nil in Hnil.
    destruct (ChatProofs.request_cases w1)
      as (c & w2 & Hreq & (_ & Hs2 & _) & _).
    unfold setDoc_session, bind. rewrite Hreq.
    destruct c as [[]|]; simpl; [| by rewrite Hs2, Hs1].
    rewrite Hs2, Hs1.
    intros i j si sj Hi Hj Hoi Hoj.
    destruct (decide (id = i)) as [<- | Hni];
      destruct (decide (id = j)) as [<- | Hnj]; [done | | |].
    + rewrite lookup_insert_ne in Hj by done.
      by rewrite (Hnil j sj Hj) in Hoj.
    + rewrite lookup_insert_ne in Hi by done.
      by rewrite (Hnil i si Hi) in Hoi.
    + rewrite lookup_insert_ne in Hi by done.
      by rewrite (Hnil i si Hi) in Hoi.
Qed.

Lemma at_most_one_open_kept_witness :
  at_most_one_open
    (chatSessions (snd (closeChat (str "admin") 9 open_chat_world))).
Proof.
  refine (proj1 (at_most_one_open_kept (fun s => s) (str "admin") (str "u1")
                   (str "Ann") (str "hello") None false (str "m1") 8 9
                   open_chat_world _)).
  intros i j si sj Hi Hj _ _. unfold open_chat_world in Hi, Hj.
  cbn [chatSessions] in Hi, Hj.
  apply lookup_singleton_Some in Hi as [<- _].
  by apply lookup_singleton_Some in Hj as [<- _].
Defined.

(** X14.  When the store rejects the query of [openChat] and serves its
    write, [openChat] succeeds and stores an open session whatever the store
    holds; so with a session already open under another identifier, two
    sessions are open afterwards. *)
Theorem openChat_rejected_query (adminId : jsstring) (sessionId : docid)
    (serverTime : N) (w : world) fs :
  faults w = true :: false :: fs ->
  let res := openChat adminId sessionId serverTime w in
  fst res = Return (Result true "تم فتح الدردشة بنجاح.") /\
  chatSessions (snd res)
  = <[sessionId := opened_session adminId serverTime]> (chatSessions w) /\
  (forall id0 s0,
     chatSessions w !! id0 = Some s0 -> isOpen s0 = true -> id0 <> sessionId ->
     ~ at_most_one_open (chatSessions (snd res))).
Proof.
  intros Hf. cbv zeta.
  unfold openChat, setDoc_session, try_catch, bind, ret.
  rewrite (isChatOpen_rejected w _ Hf). simpl.
  unfold request. simpl. split; [done |]. split; [done |].
  intros id0 s0 H0 Ho Hne Hone.
  apply Hne.
  apply (Hone id0 sessionId s0 (opened_session adminId serverTime));
    [by rewrite lookup_insert_ne | by rewrite lookup_insert_eq | done | done].
Qed.

Lemma openChat_rejected_query_witness :
  ~ at_most_one_open
      (chatSessions
         (snd (openChat (str "admin") (str "s2") 9
                 (with_faults [true; false] open_chat_world)))).
Proof.
  destruct (openChat_rejected_query (str "admin") (str "s2") 9
              (with_faults [true; false] open_chat_world) [] eq_refl)
    as (_ & _ & H).
  apply (H (str "s1") (opened_session (str "admin") 5));
    [apply lookup_singleton_eq | reflexivity | by vm_compute].
Defined.

(** X15.  When its query is served and finds no open session, [closeChat]
    fails with the none-open message and changes no document.  When the
    query finds an open session and the update is served too, [closeChat]
    succeeds and stores that session closed, by the admin, at the server
    time, with its participants and message count as they were; if at most
    one session was open, a served [isChatOpen] then reports the chat
    closed. *)
Theorem closeChat_spec (adminId : jsstring) (serverTime : N) (w : world) :
  let res := closeChat adminId serverTime w in
  (open_sessions (chatSessions w) = [] -> served 1 w ->
   fst res = Return (Result false "لا توجد جلسة دردشة مفتوحة.")
   /\ same_store w (snd res)) /\
  (forall sessionId session rest,
     open_sessions (chatSessions w) = (sessionId, session) :: rest ->
     served 2 w ->
     fst res = Return (Result true "تم إغلاق الدردشة بنجاح.") /\
     chatSessions (snd res)
     = <[sessionId := close_session adminId serverTime session]> (chatSessions w) /\
     chat (snd res) = chat w /\ bannedUsers (snd res) = bannedUsers w /\
     (at_most_one_open (chatSessions w) -> served 1 (snd res) ->
      fst (isChatOpen (snd res)) = Return false)).
Proof.
  cbv zeta. split.
  - intros Hnil Hs.
    destruct (ChatProofs.request_served 0 w Hs) as (w1 & Hreq & Hsame & _).
    unfold closeChat, getDocs_openSessions, try_catch, bind, ret.
    rewrite Hreq. destruct Hsame as (Hc & Hss & Hb). rewrite Hss, Hnil.
    by simpl.
  - intros sessionId session rest Hopen Hs.
    destruct (open_sessions_cons _ _ _ _ Hopen) as [Hstored Hisopen].
    destruct (ChatProofs.request_served 1 w Hs)
      as (w1 & Hreq & (Hc & Hss & Hb) & Hs1).
    destruct (ChatProofs.request_served 0 w1 Hs1)
      as (w2 & Hreq2 & (Hc2 & Hss2 & Hb2) & _).
    unfold closeChat, getDocs_openSessions, updateDoc_session, try_catch,
      bind, ret.
    rewrite Hreq, Hss, Hopen, Hreq2, Hss2, Hss, Hstored. simpl.
    rewrite Hc2, Hc, Hb2, Hb. repeat split.
    intros Hone Hs3.
    destruct (isChatOpen_served 0 _ Hs3) as (w3 & -> & _). simpl.
    f_equal. apply negb_false_iff, bool_decide_eq_true, open_sessions_nil.
    intros j sj Hj. destruct (decide (sessionId = j)) as [<- | Hne].
    + rewrite lookup_insert_eq in Hj. by injection Hj as <-.
    + rewrite lookup_insert_ne in Hj by done.
      destruct (isOpen sj) eqn:Hoj; [| done]. exfalso. apply Hne.
      by apply (Hone sessionId j session sj).
Qed.

(** X20.  [deleteMessage] fails with the not-found message, changing no
    document, when no message is stored under the identifier and the read is
    served; when one is and the two requests are served, it succeeds and
    stores the message with [isDeleted] true and [deletedBy] the admin, its
    author, body and time as they were, and no other document changes. *)
Theorem deleteMessage_spec (messageId : docid) (adminId : jsstring) (w : world) :
  let res := deleteMessage messageId adminId w in
  (chat w !! messageId = None -> served 1 w ->
   fst res = Return (Result false "الرسالة غير موجودة.")
   /\ same_store w (snd res)) /\
  (forall m, chat w !! messageId = Some m -> served 2 w ->
     fst res = Return (Result true "تم حذف الرسالة بنجاح.") /\
     chat (snd res) = <[messageId := mark_deleted adminId m]> (chat w) /\
     msg_isDeleted (mark_deleted adminId m) = true /\
     msg_deletedBy (mark_deleted adminId m) = Some adminId /\
     msg_message (mark_deleted adminId m) = msg_message m /\
     msg_userId (mark_deleted adminId m) = msg_userId m /\
     msg_timestamp (mark_deleted adminId m) = msg_timestamp m /\
     chatSessions (snd res) = chatSessions w /\
     bannedUsers (snd res) = bannedUsers w).
Proof.
  cbv zeta. split.
  - intros Hnone Hs.
    destruct (ChatProofs.request_served 0 w Hs) as (w1 & Hreq & Hsame & _).
    unfold deleteMessage, getDoc_message, try_catch, bind, ret.
    rewrite Hreq. destruct Hsame as (Hc & Hss & Hb). rewrite Hc, Hnone.
    by simpl.
  - intros m Hm Hs.
    destruct (ChatProofs.request_served 1 w Hs)
      as (w1 & Hreq & (Hc & Hss & Hb) & Hs1).
    destruct (ChatProofs.request_served 0 w1 Hs1)
      as (w2 & Hreq2 & (Hc2 & Hss2 & Hb2) & _).
    unfold deleteMessage, getDoc_message, updateDoc_message, try_catch,
      bind, ret.
    rewrite Hreq, Hc, Hm, Hreq2, Hc2, Hc, Hm. simpl.
    rewrite Hss2, Hss, Hb2, Hb. by repeat split.
Qed.

Lemma active_bans_nil (userId : jsstring) (bans : gmap docid BannedUser) :
  active_bans userId bans = [] <->
  forall id b, bans !! id = Some b -> ban_userId b = userId ->
               isActive b = false.
Proof.
  split.
  - intros H id b Hb Hu. destruct (isActive b) eqn:Ha; [| done]. exfalso.
    assert (Hin : (id, b) ∈ active_bans userId bans)
      by (by apply elem_of_active_bans).
    rewrite H in Hin. by apply elem_of_nil in Hin.
  - intros H. destruct (active_bans userId bans) as [|[id b] l] eqn:E; [done |].
    exfalso.
    assert (Hin : (id, b) ∈ active_bans userId bans) by (rewrite E; by left).
    apply elem_of_active_bans in Hin as (Hb & Hu & Ha).
    by rewrite (H id b Hb Hu) in Ha.
Qed.




Lemma isUserBanned_no_ban (userId : jsstring) (now : N) (w : world) :
  active_bans userId (bannedUsers w) = [] ->
  fst (isUserBanned userId now w) = Return false.
Proof.
  intros Hnone.
  destruct (ChatProofs.request_cases w) as (c & w1 & Hreq & (_ & _ & Hb) & _).
  unfold isUserBanned, getDocs_activeBans, try_catch, bind, ret.
  rewrite Hreq. destruct c as [[]|]; [| done]. by rewrite Hb, Hnone.
Qed.

(** X21.  [unbanUser] fails with the not-banned message, changing no
    document, when its query is served and finds no active ban of the user.
    When the query finds one and the update is served too, it succeeds and
    stores the first ban found with [isActive] false; if that was the only
    active ban of the user, [isUserBanned] reports the user not banned from
    then on, at every time and whatever requests the store rejects. *)
Theorem unbanUser_spec (userId : jsstring) (w : world) :
  let res := unbanUser userId w in
  (active_bans userId (bannedUsers w) = [] -> served 1 w ->
   fst res = Return (Result false "المستخدم غير محظور.")
   /\ same_store w (snd res)) /\
  (forall banId banData rest,
     active_bans userId (bannedUsers w) = (banId, banData) :: rest ->
     served 2 w ->
     fst res = Return (Result true "تم إلغاء حظر المستخدم بنجاح.") /\
     bannedUsers (snd res) = <[banId := deactivate banData]> (bannedUsers w) /\
     chat (snd res) = chat w /\ chatSessions (snd res) = chatSessions w /\
     (rest = [] ->
      forall now w',
        bannedUsers w' = bannedUsers (snd res) ->
        fst (isUserBanned userId now w') = Return false)).
Proof.
  cbv zeta. split.
  - intros Hnone Hs.
    destruct (ChatProofs.request_served 0 w Hs) as (w1 & Hreq & Hsame & _).
    unfold unbanUser, getDocs_activeBans, try_catch, bind, ret.
    rewrite Hreq. destruct Hsame as (Hc & Hss & Hb). rewrite Hb, Hnone.
    by simpl.
  - intros banId banData rest Hfound Hs.
    destruct (ChatProofs.active_bans_head _ _ _ _ _ Hfound)
      as (Hstored & Huser & Hactive).
    destruct (ChatProofs.request_served 1 w Hs)
      as (w1 & Hreq & (Hc & Hss & Hb) & Hs1).
    destruct (ChatProofs.request_served 0 w1 Hs1)
      as (w2 & Hreq2 & (Hc2 & Hss2 & Hb2) & _).
    unfold unbanUser, getDocs_activeBans, updateDoc_ban, try_catch, bind, ret.
    rewrite Hreq, Hb, Hfound, Hreq2, Hb2, Hb, Hstored. simpl.
    rewrite Hc2, Hc, Hss2, Hss. repeat split.
    intros -> now w' Hw'. apply isUserBanned_no_ban. rewrite Hw'.
    apply active_bans_nil. intros id b Hb' Hu.
    destruct (decide (banId = id)) as [<- | Hne].
    + rewrite lookup_insert_eq in Hb'. by injection Hb' as <-.
    + rewrite lookup_insert_ne in Hb' by done.
      destruct (isActive b) eqn:Ha; [| done]. exfalso. apply Hne.
      assert (Hin : (id, b) ∈ active_bans userId (bannedUsers w))
        by (by apply elem_of_active_bans).
      rewrite Hfound in Hin. apply list_elem_of_singleton in Hin.
      by injection Hin.
Qed.

Section Sending.

Variable sanitizeHTML : jsstring -> jsstring.

(** X16.  [isUserBanned] reports a user not banned when the store rejects
    its query, whatever bans are stored; so also a banned user's valid
    message, sent with an avatar, is stored, and [sendMessage] succeeds,
    when the store rejects that query and serves the next two requests
    while a chat session is open. *)
Theorem rejected_ban_query_lets_message_through
    (userId userName message avatar : jsstring)
    (isAdmin : bool) (now : N) (messageId : docid) (serverTime : N)
    (w : world) fs :
  faults w = true :: fs ->
  isUserBanned userId now w = (Return false, with_faults fs w) /\
  (SecurityUtils.validateMessage message = true ->
   open_sessions (chatSessions w) <> [] ->
   Forall (fun r => r = false) (take 2 fs) ->
   let res := sendMessage sanitizeHTML userId userName message (Some avatar)
                isAdmin now messageId serverTime w in
   fst res = Return (Result true "تم إرسال الرسالة بنجاح.") /\
   chat (snd res) !! messageId
   = Some (sent_message sanitizeHTML userId userName message (Some avatar)
             isAdmin serverTime)).
Proof.
  intros Hf. split; [by apply isUserBanned_rejected |].
  intros Hvalid Hopen Hs. cbv zeta.
  unfold sendMessage, try_catch, bind, ret. rewrite Hvalid. simpl.
  rewrite (isUserBanned_rejected userId now w fs Hf).
  assert (Hs' : served 2 (with_faults fs w)) by done.
  destruct (isChatOpen_served 1 _ Hs') as (w2 & -> & (Hc2 & Hss2 & _) & Hs2).
  simpl in Hss2. simpl chatSessions.
  rewrite (bool_decide_eq_false_2 _ Hopen). simpl.
  destruct (ChatProofs.request_served 0 w2 Hs2) as (w3 & Hreq & (Hc3 & _) & _).
  unfold setDoc_message, bind. cbn [msg_userAvatar]. rewrite Hreq.
  match goal with
  | |- context [updateSessionParticipants userId ?w'] =>
      destruct (updateSessionParticipants_frame userId w')
        as (w4 & -> & Hc4 & _)
  end.
  simpl. split; [done |]. rewrite Hc4. simpl. by rewrite lookup_insert_eq.
Qed.

(** X17.  [isChatOpen] reports the chat closed when the store rejects its
    query; so a valid message of a user with no active ban is refused with
    the closed-chat message, and no document changes, when the store serves
    the ban query and rejects the next one, open session or not. *)
Theorem rejected_status_query_reports_closed
    (userId userName message : jsstring) (userAvatar : option jsstring)
    (isAdmin : bool) (now : N) (messageId : docid) (serverTime : N)
    (w : world) fs :
  (faults w = true :: fs -> isChatOpen w = (Return false, with_faults fs w)) /\
  (faults w = false :: true :: fs ->
   SecurityUtils.validateMessage message = true ->
   active_bans userId (bannedUsers w) = [] ->
   let res := sendMessage sanitizeHTML userId userName message userAvatar
                isAdmin now messageId serverTime w in
   fst res = Return (Result false "الدردشة مغلقة حالياً.") /\
   same_store w (snd res)).
Proof.
  split; [by apply isChatOpen_rejected |].
  intros Hf Hvalid Hnone. cbv zeta.
  unfold sendMessage, isUserBanned, getDocs_activeBans, isChatOpen,
    getDocs_openSessions, try_catch, bind, ret, request.
  rewrite Hvalid. simpl. rewrite Hf. simpl. rewrite Hnone. simpl.
  by repeat split.
Qed.

(** The update of the open session when its two requests are served. *)
Lemma updateSessionParticipants_served (n : nat) (userId : jsstring) (w : world)
    (sessionId : docid) (session : ChatSession) rest :
  open_sessions (chatSessions w) = (sessionId, session) :: rest ->
  served (S (S n)) w ->
  exists w',
    updateSessionParticipants userId w = (Return tt, w') /\
    chat w' = chat w /\ bannedUsers w' = bannedUsers w /\
    chatSessions w'
    = <[sessionId := if bool_decide (userId ∈ participants session)
                     then count_message session session
                     else add_participant userId session session]>
        (chatSessions w) /\
    served n w'.
Proof.
  intros Hopen Hs.
  destruct (open_sessions_cons _ _ _ _ Hopen) as [Hstored _].
  destruct (ChatProofs.request_served (S n) w Hs)
    as (w1 & Hreq & (Hc & Hss & Hb) & Hs1).
  destruct (ChatProofs.request_served n w1 Hs1)
    as (w2 & Hreq2 & (Hc2 & Hss2 & Hb2) & Hs2).
  unfold updateSessionParticipants, getDocs_openSessions, updateDoc_session,
    try_catch, bind, ret.
  rewrite Hreq, Hss, Hopen.
  destruct (bool_decide (userId ∈ participants session)); simpl;
    rewrite Hreq2, Hss2, Hss, Hstored; eexists; (split; [reflexivity |]);
    simpl; rewrite Hc2, Hc, Hb2, Hb; by repeat split.
Qed.

(** X18.  A valid message of a user with no active ban, sent with an
    avatar while a session is open and the store serves the five requests
    of the call, is stored under the identifier generated for it, with the
    sanitized body and name, the server time, and [isDeleted] false; the
    open session counts one message more and has the sender among its
    participants, added at the end if absent and not repeated if present;
    [sendMessage] succeeds and no ban changes.  Sent without an avatar, the
    message carries [userAvatar: undefined], on which [setDoc] throws:
    [sendMessage] returns its error result and no document changes. *)
Theorem sendMessage_stores (userId userName message : jsstring)
    (userAvatar : option jsstring) (isAdmin : bool) (now : N)
    (messageId : docid) (serverTime : N) (w : world)
    (sessionId : docid) (session : ChatSession) rest :
  SecurityUtils.validateMessage message = true ->
  active_bans userId (bannedUsers w) = [] ->
  open_sessions (chatSessions w) = (sessionId, session) :: rest ->
  served 5 w ->
  let res := sendMessage sanitizeHTML userId userName message userAvatar
               isAdmin now messageId serverTime w in
  match userAvatar with
  | None =>
      fst res = Return (Result false "خطأ في إرسال الرسالة.")
      /\ same_store w (snd res)
  | Some _ =>
      fst res = Return (Result true "تم إرسال الرسالة بنجاح.") /\
      chat (snd res)
      = <[messageId := sent_message sanitizeHTML userId userName message
                         userAvatar isAdmin serverTime]> (chat w) /\
      bannedUsers (snd res) = bannedUsers w /\
      exists session',
        chatSessions (snd res) = <[sessionId := session']> (chatSessions w) /\
        messageCount session' = messageCount session + 1 /\
        isOpen session' = isOpen session /\
        userId ∈ participants session' /\
        (userId ∈ participants session ->
         participants session' = participants session) /\
        (userId ∉ participants session ->
         participants session' = participants session ++ [userId]) /\
        (NoDup (participants session) -> NoDup (participants session'))
  end.
Proof.
  intros Hvalid Hnone Hopen Hs. cbv zeta.
  unfold sendMessage, try_catch, bind, ret. rewrite Hvalid. simpl.
  destruct (isUserBanned_none 4 userId now w Hnone Hs)
    as (w1 & -> & (Hc1 & Hss1 & Hb1) & Hs1).
  destruct (isChatOpen_served 3 w1 Hs1) as (w2 & -> & (Hc2 & Hss2 & Hb2) & Hs2).
  rewrite Hss1, Hopen. simpl.
  unfold setDoc_message. cbn [msg_userAvatar].
  destruct userAvatar as [avatar|].
  2:{ simpl. split; [done |]. repeat split; congruence. }
  destruct (ChatProofs.request_served 2 w2 Hs2)
    as (w3 & Hreq & (Hc3 & Hss3 & Hb3) & Hs3).
  unfold bind. rewrite Hreq.
  match goal with
  | |- context [updateSessionParticipants userId ?w'] =>
      destruct (updateSessionParticipants_served 0 userId w' sessionId session rest)
        as (w4 & -> & Hc4 & Hb4 & Hss4 & _)
  end.
  { simpl. by rewrite Hss3, Hss2, Hss1. }
  { done. }
  simpl in *. split; [done |].
  rewrite Hc4, Hc3, Hc2, Hc1. split; [done |].
  rewrite Hb4, Hb3, Hb2, Hb1. split; [done |].
  rewrite Hss4, Hss3, Hss2, Hss1. eexists. split; [reflexivity |].
  destruct (decide (userId ∈ participants session)) as [Hin | Hnin].
  - rewrite (bool_decide_eq_true_2 _ Hin). simpl. by repeat split.
  - rewrite (bool_decide_eq_false_2 _ Hnin). simpl. repeat split; try done.
    + apply elem_of_app. right. by left.
    + intros Hnd. apply NoDup_app. repeat split; [done | | apply NoDup_singleton].
      intros x Hx Hx'. apply list_elem_of_singleton in Hx' as ->. done.
Qed.

(** X19.  [sendMessage] succeeds, with the message stored, also when the
    update of the session fails: for a message sent with an avatar, when
    the store rejects the query of [updateSessionParticipants], or serves
    it and rejects the update, the sessions are as they were. *)
Theorem sendMessage_ignores_session_failure
    (userId userName message avatar : jsstring)
    (isAdmin : bool) (now : N) (messageId : docid) (serverTime : N)
    (w : world) fs :
  SecurityUtils.validateMessage message = true ->
  active_bans userId (bannedUsers w) = [] ->
  open_sessions (chatSessions w) <> [] ->
  faults w = false :: false :: false :: true :: fs
  \/ faults w = false :: false :: false :: false :: true :: fs ->
  let res := sendMessage sanitizeHTML userId userName message (Some avatar)
               isAdmin now messageId serverTime w in
  fst res = Return (Result true "تم إرسال الرسالة بنجاح.") /\
  chat (snd res)
  = <[messageId := sent_message sanitizeHTML userId userName message
                     (Some avatar) isAdmin serverTime]> (chat w) /\
  chatSessions (snd res) = chatSessions w.
Proof.
  intros Hvalid Hnone Hopen Hf. cbv zeta.
  destruct (open_sessions (chatSessions w)) as [|[sid sd] rest] eqn:Eo; [done |].
  unfold sendMessage, isUserBanned, getDocs_activeBans, isChatOpen,
    updateSessionParticipants, getDocs_openSessions, setDoc_message,
    updateDoc_session, try_catch, bind, ret, request.
  rewrite Hvalid. simpl.
  destruct Hf as [Hf | Hf]; rewrite Hf; simpl; rewrite Hnone; simpl;
    rewrite Eo; simpl; [done |].
  rewrite Eo. by destruct (negb (bool_decide (userId ∈ participants sd))).
Qed.


End Sending.

Lemma rejected_ban_query_lets_message_through_witness :
  active_bans (str "u1") (bannedUsers banned_open_world) <> [] /\
  fst (sendMessage (fun s => s) (str "u1") (str "Ann") (str "hello")
         (Some (str "ann.png")) false 8 (str "m1") 9
         (with_faults [true] banned_open_world))
  = Return (Result true "تم إرسال الرسالة بنجاح.").
Proof.
  split; [by vm_compute |].
  destruct (rejected_ban_query_lets_message_through (fun s => s) (str "u1")
              (str "Ann") (str "hello") (str "ann.png") false 8 (str "m1") 9
              (with_faults [true] banned_open_world) [] eq_refl) as [_ H].
  destruct H as [-> _];
    [reflexivity | by vm_compute | constructor | reflexivity].
Defined.

Lemma sendMessage_stores_witness :
  chat (snd (sendMessage (fun s => s) (str "u1") (str "Ann") (str "hello")
               (Some (str "ann.png")) false 8 (str "m1") 9 open_chat_world))
  = <[str "m1" := sent_message (fun s => s) (str "u1") (str "Ann")
                    (str "hello") (Some (str "ann.png")) false 9]> ∅.
Proof.
  destruct (sendMessage_stores (fun s => s) (str "u1") (str "Ann")
              (str "hello") (Some (str "ann.png")) false 8 (str "m1") 9
              open_chat_world (str "s1") (opened_session (str "admin") 5) [])
    as (_ & H & _);
    [reflexivity | by vm_compute | by vm_compute | constructor | exact H].
Defined.

Lemma sendMessage_ignores_session_failure_witness :
  chatSessions
    (snd (sendMessage (fun s => s) (str "u1") (str "Ann") (str "hello")
            (Some (str "ann.png")) false 8 (str "m1") 9
            (with_faults [false; false; false; true] open_chat_world)))
  = chatSessions open_chat_world.
Proof.
  destruct (sendMessage_ignores_session_failure (fun s => s) (str "u1")
              (str "Ann") (str "hello") (str "ann.png") false 8 (str "m1") 9
              (with_faults [false; false; false; true] open_chat_world) [])
    as (_ & _ & H);
    [reflexivity | by vm_compute | by vm_compute | by left | exact H].
Defined.


Lemma mark_deleted_idemp (adminId : jsstring) (m : ChatMessage) :
  mark_deleted adminId (mark_deleted adminId m) = mark_deleted adminId m.
Proof. done. Qed.

(** The updates [clearAllMessages] starts, under the requests the store
    serves or rejects. *)
Lemma updateDoc_all_frame (adminId : jsstring)
    (docs : list (docid * ChatMessage)) (w : world) :
  exists c w',
    updateDoc_all adminId docs w = (c, w')
    /\ chatSessions w' = chatSessions w /\ bannedUsers w' = bannedUsers w
    /\ forall id, chat w' !! id = chat w !! id
                  \/ chat w' !! id = mark_deleted adminId <$> chat w !! id.
Proof.
  revert w. induction docs as [|[i m] docs IH]; intros w.
  - exists (Return tt), w. repeat split. by left.
  - cbn [updateDoc_all].
    assert (Hstep : exists c1 w1,
               updateDoc_message i (mark_deleted adminId) w = (c1, w1)
               /\ chatSessions w1 = chatSessions w
               /\ bannedUsers w1 = bannedUsers w
               /\ (chat w1 = chat w
                   \/ exists d, chat w !! i = Some d
                        /\ chat w1 = <[i := mark_deleted adminId d]> (chat w))).
    { destruct (ChatProofs.request_cases w)
        as (c & w0 & Hreq & (Hc & Hss & Hb) & _).
      unfold updateDoc_message, bind. rewrite Hreq.
      destruct c as [[]|]; [| eexists _, _; split; [done |]; auto].
      rewrite Hc. destruct (chat w !! i) as [d|] eqn:Ed.
      - eexists _, _. split; [done |]. simpl. repeat split; eauto.
      - eexists _, _. split; [done |]. auto. }
    destruct Hstep as (c1 & w1 & -> & Hss1 & Hb1 & Hc1).
    destruct (IH w1) as (c2 & w2 & -> & Hss2 & Hb2 & Hc2).
    eexists _, _. split; [done |].
    rewrite Hss2, Hss1, Hb2, Hb1. repeat split.
    intros id. specialize (Hc2 id).
    destruct Hc1 as [Hc1 | (d & Hd & Hc1)]; rewrite Hc1 in Hc2; [done |].
    destruct (decide (i = id)) as [<- | Hne].
    + rewrite lookup_insert_eq in Hc2. rewrite Hd. simpl in *. right.
      by destruct Hc2.
    + by rewrite lookup_insert_ne in Hc2.
Qed.

Lemma updateDoc_all_served (adminId : jsstring)
    (docs : list (docid * ChatMessage)) (w : world) :
  (forall id, id ∈ docs.*1 -> is_Some (chat w !! id)) ->
  served (length docs) w ->
  exists w',
    updateDoc_all adminId docs w = (Return tt, w')
    /\ forall id, chat w' !! id
                  = if bool_decide (id ∈ docs.*1)
                    then mark_deleted adminId <$> chat w !! id
                    else chat w !! id.
Proof.
  revert w. induction docs as [|[i m] docs IH]; intros w Hstored Hs.
  - exists w. split; [done |]. intros id.
    rewrite bool_decide_eq_false_2; [done | apply not_elem_of_nil].
  - cbn [updateDoc_all].
    destruct (ChatProofs.request_served _ w Hs)
      as (w0 & Hreq & (Hc & _ & _) & Hs0).
    destruct (Hstored i) as [d Hd]; [by left |].
    unfold updateDoc_message, bind. rewrite Hreq. cbv beta iota.
    rewrite Hc, Hd.
    match goal with
    | |- context [updateDoc_all adminId docs ?w1] =>
        destruct (IH w1) as (w2 & -> & Hc2)
    end.
    { intros id Hid. simpl.
      destruct (decide (i = id)) as [<- | Hne].
      - rewrite lookup_insert_eq. eauto.
      - rewrite lookup_insert_ne by done. apply Hstored. by right. }
    { done. }
    exists w2. split; [done |]. intros id. rewrite Hc2.
    cbn [chat with_chat]. rewrite fmap_cons. cbn [fst].
    destruct (decide (i = id)) as [<- | Hne].
    + rewrite lookup_insert_eq, Hd.
      rewrite (bool_decide_eq_true_2 (i ∈ i :: docs.*1)) by (by left).
      by destruct (bool_decide (i ∈ docs.*1)).
    + rewrite lookup_insert_ne by done.
      apply (f_equal (fun b : bool => if b then _ else _)).
      apply bool_decide_ext. rewrite elem_of_cons. intuition congruence.
Qed.

(** X23.  When the store serves the query of [clearAllMessages] and one
    update for each message stored, it succeeds and every message is marked:
    [isDeleted] true and [deletedBy] the admin, everything else of the
    message as it was; no message is removed or added, and no session or ban
    changes. *)
Theorem clearAllMessages_served (adminId : jsstring) (w : world) :
  served (S (size (chat w))) w ->
  let res := clearAllMessages adminId w in
  fst res = Return (Result true "تم مسح جميع الرسائل بنجاح.") /\
  chat (snd res) = mark_deleted adminId <$> chat w /\
  chatSessions (snd res) = chatSessions w /\
  bannedUsers (snd res) = bannedUsers w.
Proof.
  intros Hs. cbv zeta.
  destruct (ChatProofs.request_served _ w Hs)
    as (w0 & Hreq & (Hc & Hss & Hb) & Hs0).
  unfold clearAllMessages, getDocs_messages, try_catch, bind, ret.
  rewrite Hreq, Hc.
  destruct (updateDoc_all_frame adminId (map_to_list (chat w)) w0)
    as (c & w' & Hrun & Hss' & Hb' & _).
  destruct (updateDoc_all_served adminId (map_to_list (chat w)) w0)
    as (w'' & Hrun' & Hchat).
  { intros id Hid. rewrite Hc.
    apply list_elem_of_fmap in Hid as ([i m] & -> & Him).
    apply elem_of_map_to_list in Him. eauto. }
  { by rewrite length_map_to_list. }
  rewrite Hrun in Hrun'. injection Hrun' as -> <-. rewrite Hrun. simpl.
  rewrite Hss', Hss, Hb', Hb. repeat split.
  apply map_eq. intros id. rewrite Hchat, Hc, lookup_fmap.
  destruct (chat w !! id) as [m|] eqn:Em; [| by destruct (bool_decide _)].
  rewrite bool_decide_eq_true_2; [done |].
  apply list_elem_of_fmap. exists (id, m). split; [done |].
  by apply elem_of_map_to_list.
Qed.

Lemma clearAllMessages_served_witness :
  (msg_isDeleted
   <$> chat (snd (clearAllMessages (str "admin") one_message_world))
       !! str "m1")
  = Some true.
Proof.
  destruct (clearAllMessages_served (str "admin") one_message_world)
    as (_ & -> & _); [constructor |].
  rewrite lookup_fmap. unfold one_message_world. simpl.
  by rewrite lookup_singleton_eq.
Defined.

(** X24.  Whatever requests the store serves or rejects,
    [clearAllMessages] returns its success or its failure message and
    leaves every message either as it was or marked deleted by the admin:
    it removes no message, restores none and changes no body, also when it
    reports failure; and no session or ban changes. *)
Theorem clearAllMessages_frame (adminId : jsstring) (w : world) :
  let res := clearAllMessages adminId w in
  (fst res = Return (Result true "تم مسح جميع الرسائل بنجاح.")
   \/ fst res = Return (Result false "خطأ في مسح الرسائل.")) /\
  (forall id, chat (snd res) !! id = chat w !! id
              \/ chat (snd res) !! id = mark_deleted adminId <$> chat w !! id) /\
  chatSessions (snd res) = chatSessions w /\
  bannedUsers (snd res) = bannedUsers w.
Proof.
  cbv zeta.
  destruct (ChatProofs.request_cases w)
    as (c & w0 & Hreq & (Hc & Hss & Hb) & _).
  unfold clearAllMessages, getDocs_messages, try_catch, bind, ret.
  rewrite Hreq. destruct c as [[]|]; simpl.
  - destruct (updateDoc_all_frame adminId (map_to_list (chat w0)) w0)
      as (c & w' & -> & Hss' & Hb' & Hc').
    rewrite <- Hc, <- Hss, <- Hb.
    destruct c as [[]|]; simpl; repeat split; auto.
  - rewrite Hc, Hss, Hb. repeat split; auto.
Qed.

End ChatExtra.
(** ** The admin login *)

Module LoginProofs.

Import Js JsValue SecurityUtils SessionManager AuthService AdminLogin.

Lemma admin_identifier_inj (e1 e2 : jsstring) :
  admin_identifier e1 = admin_identifier e2 -> e1 = e2.
Proof. unfold admin_identifier. apply app_inv_head. Qed.

(** An admin session is valid until it expires. *)
Lemma isValidAdminSession_after_set
    (StringToNumber : jsstring -> number)
    (ObjectToNumber : value -> option number)
    (adminId : jsstring) (adminData : value) (now1 now2 now : N) (st : storage) :
  now <= now2 + SESSION_TIMEOUT ->
  isValidAdminSession StringToNumber ObjectToNumber now
    (setAdminSession adminId adminData now1 now2 st) = true.
Proof.
  intros Hnow. rewrite SessionExtra.setAdminSession_stored.
  unfold isValidAdminSession, getAdminSession, get_body.
  rewrite lookup_insert_eq.
  set (session := VObject _).
  assert (Hexp : member session (str "expires")
                 = Some (VNumber (Num (Z.of_N (now2 + SESSION_TIMEOUT))))).
  { subst session. by destruct (json_roundtrip adminData). }
  rewrite Hexp. unfold number_gt, to_number.
  rewrite (proj2 (Z.ltb_ge _ _)) by lia. done.
Qed.

Lemma login_request_served (n : nat) (w : login_world) :
  login_served (S n) w ->
  exists w',
    login_request w = (Return tt, w')
    /\ loginAttempts w' = loginAttempts w /\ admins w' = admins w
    /\ localStorage w' = localStorage w /\ login_served n w'.
Proof.
  unfold login_served, login_request. intros Hs.
  destruct (login_faults w) as [|[] fs] eqn:Hf.
  - exists w. repeat split. rewrite Hf. by rewrite take_nil.
  - simpl in Hs. by apply Forall_cons in Hs as [? _].
  - eexists. split; [done |]. repeat split. simpl.
    by apply Forall_cons in Hs as [_ ?].
Qed.

Lemma active_admins_head (email : jsstring) (docs : gmap jsstring AdminDoc)
    (id : jsstring) (d : AdminDoc) rest :
  active_admins email docs = (id, d) :: rest -> docs !! id = Some d.
Proof.
  intros H.
  assert (Hin : In (id, d) (active_admins email docs)) by (rewrite H; by left).
  apply filter_In in Hin as [Hin _].
  by apply list_elem_of_In, elem_of_map_to_list in Hin.
Qed.

Section Libraries.

Variable isEmail : jsstring -> bool.
Variable toLowerCase : jsstring -> jsstring.
Variable bcrypt_compare : jsstring -> jsstring -> bool.
Variable serverTimestamp : value.

(** X25.  [loginAdmin] with an address [validateEmail] rejects counts no
    attempt and changes nothing.  While the address is locked out (its
    record carries a [lockedUntil] after the time of the call),
    [loginAdmin] is refused whatever the password, with the whole minutes
    left (at least one) in its message, and it changes nothing: no attempt
    is counted, no request goes to the store and no session is set. *)
Theorem locked_login_is_frame (email password : jsstring)
    (now now1 now2 serverTime : N) (w : login_world) :
  (validateEmail isEmail email = false ->
   loginAdmin isEmail toLowerCase bcrypt_compare serverTimestamp
     email password now now1 now2 serverTime w
   = (LoginResult false "بريد إلكتروني غير صالح." None, w)) /\
  (forall a l,
     validateEmail isEmail email = true ->
     loginAttempts w !! admin_identifier email = Some a ->
     lockedUntil a = Some l -> now < l ->
     let seconds := ceil_div (l - now) 1000 in
     loginAdmin isEmail toLowerCase bcrypt_compare serverTimestamp
       email password now now1 now2 serverTime w
     = (LoginResult false (lockout_message (Some seconds)) None, w)
     /\ 1 <= ceil_div seconds 60).
Proof.
  split.
  - intros Hv. unfold loginAdmin. by rewrite Hv.
  - intros a l Hv Hrec Hl Hlt. cbv zeta. split.
    + unfold loginAdmin. rewrite Hv.
      rewrite (RateLimitProofs.check_locked _ _ _ _ _ Hrec Hl Hlt). simpl.
      by destruct w.
    + pose proof (RateLimitProofs.ceil_div_bounds (l - now) 1000 ltac:(lia))
        as [H1 _].
      pose proof (RateLimitProofs.ceil_div_bounds
                    (ceil_div (l - now) 1000) 60 ltac:(lia)) as [H2 _].
      lia.
Qed.

(** X26.  A [loginAdmin] that passes the rate limiter, finds an active
    admin for the lower-cased address and is given its password, with its
    two requests served, succeeds and returns the admin object; it removes
    the attempt record of the address and leaves the other records, stores
    the admin found with [lastLogin] the server time, and sets the admin
    session, so that [isAdminAuthenticated] holds until 24 hours after the
    clock reading of the session. *)
Theorem loginAdmin_success
    (StringToNumber : jsstring -> number)
    (ObjectToNumber : value -> option number)
    (email password : jsstring) (now now1 now2 serverTime : N) (w : login_world)
    (adminId : jsstring) (adminData : AdminDoc) rest :
  validateEmail isEmail email = true ->
  allowed (fst (checkRateLimit (admin_identifier email) now (loginAttempts w)))
  = true ->
  login_served 2 w ->
  active_admins (toLowerCase email) (admins w) = (adminId, adminData) :: rest ->
  bcrypt_compare password (admin_password adminData) = true ->
  let res := loginAdmin isEmail toLowerCase bcrypt_compare serverTimestamp
               email password now now1 now2 serverTime w in
  fst res
  = LoginResult true "تم تسجيل دخول الإدارة بنجاح."
      (Some (admin_object serverTimestamp adminId adminData)) /\
  loginAttempts (snd res) !! admin_identifier email = None /\
  (forall i, i <> admin_identifier email ->
             loginAttempts (snd res) !! i = loginAttempts w !! i) /\
  admins (snd res) = <[adminId := touch serverTime adminData]> (admins w) /\
  localStorage (snd res)
  = setAdminSession adminId (admin_object serverTimestamp adminId adminData)
      now1 now2 (localStorage w) /\
  (forall t, t <= now2 + SESSION_TIMEOUT ->
             isAdminAuthenticated StringToNumber ObjectToNumber t
               (localStorage (snd res)) = true).
Proof.
  intros Hv Hallowed Hs Hfound Hpw. cbv zeta.
  pose proof (active_admins_head _ _ _ _ _ Hfound) as Hstored.
  unfold loginAdmin. rewrite Hv. simpl.
  destruct (checkRateLimit (admin_identifier email) now (loginAttempts w))
    as [rateLimit table] eqn:Hcheck.
  simpl in Hallowed. rewrite Hallowed. simpl.
  destruct (login_request_served 1 (with_loginAttempts table w) Hs)
    as (w2 & -> & Ht2 & Ha2 & Hl2 & Hs2).
  simpl in Ht2, Ha2, Hl2. rewrite Ha2, Hfound, Hpw. simpl.
  destruct (login_request_served 0 w2 Hs2) as (w3 & -> & Ht3 & Ha3 & Hl3 & _).
  rewrite Ha3, Ha2, Hstored. simpl.
  rewrite Ht3, Ht2, Hl3, Hl2.
  assert (Htable : table = snd (checkRateLimit (admin_identifier email) now
                                  (loginAttempts w))) by (by rewrite Hcheck).
  repeat split.
  - unfold resetRateLimit. by rewrite lookup_delete_eq.
  - intros i Hi. unfold resetRateLimit. rewrite lookup_delete_ne by done.
    rewrite Htable. by apply RateLimitProofs.check_other.
  - intros t Ht. unfold isAdminAuthenticated.
    by apply isValidAdminSession_after_set.
Qed.

(** X27.  A [loginAdmin] that passes the rate limiter and whose query is
    served fails with one and the same message when no active admin has the
    address and when the password is wrong; the attempt stays counted (the
    table is the one [checkRateLimit] left), and neither the store nor the
    sessions change. *)
Theorem failed_login_is_counted (email password : jsstring)
    (now now1 now2 serverTime : N) (w : login_world) :
  validateEmail isEmail email = true ->
  allowed (fst (checkRateLimit (admin_identifier email) now (loginAttempts w)))
  = true ->
  login_served 1 w ->
  wrong_password toLowerCase bcrypt_compare email password w ->
  let res := loginAdmin isEmail toLowerCase bcrypt_compare serverTimestamp
               email password now now1 now2 serverTime w in
  fst res = LoginResult false "بيانات الدخول غير صحيحة." None /\
  loginAttempts (snd res)
  = snd (checkRateLimit (admin_identifier email) now (loginAttempts w)) /\
  admins (snd res) = admins w /\
  localStorage (snd res) = localStorage w.
Proof.
  intros Hv Hallowed Hs Hwrong. cbv zeta.
  unfold loginAdmin. rewrite Hv. simpl.
  destruct (checkRateLimit (admin_identifier email) now (loginAttempts w))
    as [rateLimit table] eqn:Hcheck.
  simpl in Hallowed. rewrite Hallowed. simpl.
  destruct (login_request_served 0 (with_loginAttempts table w) Hs)
    as (w2 & -> & Ht2 & Ha2 & Hl2 & _).
  simpl in Ht2, Ha2, Hl2. rewrite Ha2.
  unfold wrong_password in Hwrong.
  destruct (active_admins (toLowerCase email) (admins w)) as [|[id d] rest];
    [done |].
  rewrite Hwrong. by simpl.
Qed.

(** A failed call on a store that serves every request. *)
Lemma failed_login_step (email password : jsstring)
    (now now1 now2 serverTime : N) (w : login_world) :
  validateEmail isEmail email = true ->
  fst (checkRateLimit (admin_identifier email) now (loginAttempts w))
  = RateResult true None ->
  login_faults w = [] ->
  wrong_password toLowerCase bcrypt_compare email password w ->
  snd (loginAdmin isEmail toLowerCase bcrypt_compare serverTimestamp
         email password now now1 now2 serverTime w)
  = with_loginAttempts
      (snd (checkRateLimit (admin_identifier email) now (loginAttempts w))) w.
Proof.
  intros Hv Hallowed Hf Hwrong.
  unfold loginAdmin. rewrite Hv. simpl.
  destruct (checkRateLimit (admin_identifier email) now (loginAttempts w))
    as [rateLimit table] eqn:Hcheck.
  simpl in Hallowed. rewrite Hallowed. simpl.
  unfold login_request. simpl. rewrite Hf. cbn [admins with_loginAttempts].
  unfold wrong_password in Hwrong.
  destruct (active_admins (toLowerCase email) (admins w)) as [|[id d] rest];
    [done |].
  by rewrite Hwrong.
Qed.

(** The table after a run of failed calls. *)
Lemma login_run_failed (email : jsstring) (calls : list (jsstring * N)) :
  forall w,
    validateEmail isEmail email = true ->
    login_faults w = [] ->
    Forall (fun c => wrong_password toLowerCase bcrypt_compare email (fst c) w)
      calls ->
    (forall k, (k < length calls)%nat ->
       fst (checkRateLimit (admin_identifier email) (nth k (calls.*2) 0)
              (check_many (admin_identifier email) (take k (calls.*2))
                 (loginAttempts w)))
       = RateResult true None) ->
    login_run isEmail toLowerCase bcrypt_compare serverTimestamp email calls w
    = with_loginAttempts
        (check_many (admin_identifier email) (calls.*2) (loginAttempts w)) w.
Proof.
  induction calls as [|[p t] calls IH]; intros w Hv Hf Hwrong Hallowed.
  - by destruct w.
  - cbn [login_run]. apply Forall_cons in Hwrong as [Hw1 Hwrong].
    pose proof (Hallowed 0%nat ltac:(simpl; lia)) as H0. simpl in H0.
    rewrite (failed_login_step email p t t t t w Hv H0 Hf Hw1).
    rewrite IH; [done | done | done | done |].
    intros k Hk. apply (Hallowed (S k)). simpl. lia.
Qed.

Lemma check_many_other (i j : jsstring) (times : list N) m :
  i <> j -> check_many i times m !! j = m !! j.
Proof.
  intros Hne. revert m. unfold check_many.
  induction times as [|t times IH]; intros m; [done |].
  simpl. rewrite IH. by apply RateLimitProofs.check_other.
Qed.

(** The table after five failed calls for an address with no record. *)
Lemma five_failed_calls (email : jsstring) (calls : list (jsstring * N))
    (w : login_world) :
  validateEmail isEmail email = true ->
  loginAttempts w !! admin_identifier email = None ->
  login_faults w = [] ->
  Forall (fun c => wrong_password toLowerCase bcrypt_compare email (fst c) w)
    calls ->
  length calls = 5%nat ->
  exists table lastAttempt',
    login_run isEmail toLowerCase bcrypt_compare serverTimestamp email calls w
    = with_loginAttempts table w
    /\ table !! admin_identifier email = Some (Attempts 5 lastAttempt' None)
    /\ forall j, admin_identifier email <> j ->
                 table !! j = loginAttempts w !! j.
Proof.
  intros Hv Hnone Hf Hwrong Hlen.
  destruct calls as [|[p1 t1] [|[p2 t2] [|[p3 t3] [|[p4 t4] [|[p5 t5] [|]]]]]];
    try discriminate Hlen.
  eexists _, _. split; [| split].
  - apply (login_run_failed email _ w Hv Hf Hwrong).
    intros k Hk. cbn [fmap list_fmap snd].
    destruct k as [|k].
    + simpl. by rewrite (RateLimitProofs.check_fresh _ _ _ Hnone).
    + do 4 (destruct k as [|k];
            [by apply RateLimitProofs.check_many_allowed; [| simpl; lia] |]).
      simpl in Hk. lia.
  - cbn [fmap list_fmap snd].
    apply (RateLimitProofs.check_many_counts (admin_identifier email)
             [t2; t3; t4; t5] t1 (loginAttempts w) Hnone).
    simpl. lia.
  - intros j Hj. by apply check_many_other.
Qed.

(** A call for an address whose record counts five attempts and carries no
    deadline. *)
Lemma login_at_five (email password : jsstring)
    (now now1 now2 serverTime : N) (w : login_world) lastAttempt' :
  validateEmail isEmail email = true ->
  loginAttempts w !! admin_identifier email
  = Some (Attempts 5 lastAttempt' None) ->
  loginAdmin isEmail toLowerCase bcrypt_compare serverTimestamp
    email password now now1 now2 serverTime w
  = (LoginResult false (lockout_message (Some 900)) None,
     with_loginAttempts
       (<[admin_identifier email
          := Attempts 5 lastAttempt' (Some (now + LOCKOUT_DURATION))]>
          (loginAttempts w)) w).
Proof.
  intros Hv Hrec. unfold loginAdmin. rewrite Hv. simpl.
  by rewrite (RateLimitProofs.check_unlocked _ _ _ _ Hrec eq_refl).
Qed.

(** X28.  Five [loginAdmin] calls with wrong passwords for an address with
    no attempt record, at any times, on a store that serves every request,
    lock the address out: the next [loginAdmin] is refused for 15 minutes
    whatever its password, the right one too, with no request to the store
    and no session set.  The five calls change neither the store nor the
    sessions. *)
Theorem wrong_passwords_lock_out (email : jsstring)
    (calls : list (jsstring * N)) (w : login_world) :
  validateEmail isEmail email = true ->
  loginAttempts w !! admin_identifier email = None ->
  login_faults w = [] ->
  Forall (fun c => wrong_password toLowerCase bcrypt_compare email (fst c) w)
    calls ->
  length calls = 5%nat ->
  let w' := login_run isEmail toLowerCase bcrypt_compare serverTimestamp
              email calls w in
  admins w' = admins w /\ localStorage w' = localStorage w /\
  forall password now now1 now2 serverTime,
    let res := loginAdmin isEmail toLowerCase bcrypt_compare serverTimestamp
                 email password now now1 now2 serverTime w' in
    fst res = LoginResult false (lockout_message (Some 900)) None /\
    minutes_text (Some 900) = "15"%string /\
    admins (snd res) = admins w /\ localStorage (snd res) = localStorage w /\
    login_faults (snd res) = login_faults w.
Proof.
  intros Hv Hnone Hf Hwrong Hlen. cbv zeta.
  destruct (five_failed_calls email calls w Hv Hnone Hf Hwrong Hlen)
    as (table & la & -> & Hrec & _).
  split; [done |]. split; [done |].
  intros password now now1 now2 serverTime.
  by rewrite (login_at_five email password now now1 now2 serverTime
                (with_loginAttempts table w) la Hv Hrec).
Qed.

(** X29.  The attempts are counted for the address as it is spelled, and the
    admin is looked up by the lower-cased address: after five wrong
    passwords have locked one spelling out, a [loginAdmin] with the right
    password is refused for that spelling and succeeds for another
    spelling of the same address (the same in lower case) that has no
    attempt record. *)
Theorem lockout_is_per_spelling
    (email email' : jsstring) (calls : list (jsstring * N)) (w : login_world)
    (password : jsstring) (now now1 now2 serverTime : N)
    (adminId : jsstring) (adminData : AdminDoc) rest :
  validateEmail isEmail email = true ->
  loginAttempts w !! admin_identifier email = None ->
  login_faults w = [] ->
  Forall (fun c => wrong_password toLowerCase bcrypt_compare email (fst c) w)
    calls ->
  length calls = 5%nat ->
  email' <> email ->
  toLowerCase email' = toLowerCase email ->
  validateEmail isEmail email' = true ->
  loginAttempts w !! admin_identifier email' = None ->
  active_admins (toLowerCase email) (admins w) = (adminId, adminData) :: rest ->
  bcrypt_compare password (admin_password adminData) = true ->
  let w' := login_run isEmail toLowerCase bcrypt_compare serverTimestamp
              email calls w in
  fst (loginAdmin isEmail toLowerCase bcrypt_compare serverTimestamp
         email password now now1 now2 serverTime w')
  = LoginResult false (lockout_message (Some 900)) None /\
  fst (loginAdmin isEmail toLowerCase bcrypt_compare serverTimestamp
         email' password now now1 now2 serverTime w')
  = LoginResult true "تم تسجيل دخول الإدارة بنجاح."
      (Some (admin_object serverTimestamp adminId adminData)).
Proof.
  intros Hv Hnone Hf Hwrong Hlen Hne Hlower Hv' Hnone' Hfound Hpw. cbv zeta.
  destruct (five_failed_calls email calls w Hv Hnone Hf Hwrong Hlen)
    as (table & la & -> & Hrec & Hother).
  split.
  - by rewrite (login_at_five email password now now1 now2 serverTime
                  (with_loginAttempts table w) la Hv Hrec).
  - assert (Hfree : table !! admin_identifier email' = None).
    { rewrite Hother; [done |]. intros E. apply Hne.
      symmetry. by apply admin_identifier_inj. }
    unfold loginAdmin. rewrite Hv'. simpl.
    rewrite (RateLimitProofs.check_fresh _ _ _ Hfree). simpl.
    unfold login_request. simpl. rewrite Hf. cbn [admins with_loginAttempts].
    rewrite Hlower, Hfound, Hpw. simpl. rewrite Hf. simpl.
    by rewrite (active_admins_head _ _ _ _ _ Hfound).
Qed.

End Libraries.

Lemma loginAdmin_success_witness :
  success
    (fst (loginAdmin (fun _ => true) ascii_lower
            (fun p h => bool_decide (p = h)) VNull
            (str "Admin@X.io") (str "hash") 1000 1001 1002 1003
            one_admin_world))
  = true.
Proof.
  destruct (loginAdmin_success (fun _ => true) ascii_lower
              (fun p h => bool_decide (p = h)) VNull
              (fun _ => NaN) (fun _ => None)
              (str "Admin@X.io") (str "hash") 1000 1001 1002 1003
              one_admin_world (str "a1") the_admin [])
    as [-> _];
    [by vm_compute | by vm_compute | constructor | by vm_compute
     | by vm_compute | reflexivity].
Defined.

Lemma failed_login_is_counted_witness :
  (count
   <$> loginAttempts
         (snd (loginAdmin (fun _ => true) ascii_lower
                 (fun p h => bool_decide (p = h)) VNull
                 (str "admin@x.io") (str "guess") 1000 1001 1002 1003
                 one_admin_world))
       !! admin_identifier (str "admin@x.io"))
  = Some 1.
Proof.
  destruct (failed_login_is_counted (fun _ => true) ascii_lower
              (fun p h => bool_decide (p = h)) VNull
              (str "admin@x.io") (str "guess") 1000 1001 1002 1003
              one_admin_world)
    as (_ & -> & _);
    [by vm_compute | by vm_compute | constructor | by vm_compute |].
  by vm_compute.
Defined.

Lemma wrong_passwords_lock_out_witness :
  fst (loginAdmin (fun _ => true) ascii_lower
         (fun p h => bool_decide (p = h)) VNull
         (str "admin@x.io") (str "hash") 6000 6001 6002 6003
         (login_run (fun _ => true) ascii_lower
            (fun p h => bool_decide (p = h)) VNull
            (str "admin@x.io") five_wrong one_admin_world))
  = LoginResult false (lockout_message (Some 900)) None.
Proof.
  destruct (wrong_passwords_lock_out (fun _ => true) ascii_lower
              (fun p h => bool_decide (p = h)) VNull
              (str "admin@x.io") five_wrong one_admin_world)
    as (_ & _ & H);
    [by vm_compute | apply lookup_empty | reflexivity
     | repeat (apply Forall_cons_2; [by vm_compute |]); apply Forall_nil_2
     | reflexivity |].
  by destruct (H (str "hash") 6000 6001 6002 6003) as [-> _].
Defined.

Lemma lockout_is_per_spelling_witness :
  fst (loginAdmin (fun _ => true) ascii_lower
         (fun p h => bool_decide (p = h)) VNull
         (str "Admin@x.io") (str "hash") 6000 6001 6002 6003
         (login_run (fun _ => true) ascii_lower
            (fun p h => bool_decide (p = h)) VNull
            (str "admin@x.io") five_wrong one_admin_world))
  = LoginResult true "تم تسجيل دخول الإدارة بنجاح."
      (Some (admin_object VNull (str "a1") the_admin)).
Proof.
  destruct (lockout_is_per_spelling (fun _ => true) ascii_lower
              (fun p h => bool_decide (p = h)) VNull
              (str "admin@x.io") (str "Admin@x.io") five_wrong one_admin_world
              (str "hash") 6000 6001 6002 6003 (str "a1") the_admin [])
    as [_ H];
    [by vm_compute | apply lookup_empty | reflexivity
     | repeat (apply Forall_cons_2; [by vm_compute |]); apply Forall_nil_2
     | reflexivity
     | by vm_compute | by vm_compute | by vm_compute | apply lookup_empty
     | by vm_compute | by vm_compute | exact H].
Defined.

End LoginProofs.
(** ** The articles *)

Module ArticleProofs.

Import Js ArticleService.

Lemma add_views_add (n m : Z) (a : Article) :
  add_views n (add_views m a) = add_views (m + n) a.
Proof. unfold add_views. simpl. f_equal. lia. Qed.

Lemma add_likes_back (a : Article) : add_likes (-1) (add_likes 1 a) = a.
Proof.
  destruct a. unfold add_likes. simpl. f_equal. lia.
Qed.

(** An update of a stored article on a store that serves every request. *)
Lemma updateDoc_article_stored (id : jsstring) (f : Article -> Article)
    (w : article_world) (a : Article) :
  articles w !! id = Some a -> article_faults w = [] ->
  updateDoc_article id f w
  = (Return tt, with_articles (<[id := f a]> (articles w)) w).
Proof.
  intros Ha Hf. unfold updateDoc_article, article_request.
  by rewrite Hf, Ha.
Qed.

(** An update of an article that is not stored. *)
Lemma updateDoc_article_missing (id : jsstring) (f : Article -> Article)
    (w : article_world) :
  articles w !! id = None ->
  articles (snd (updateDoc_article id f w)) = articles w.
Proof.
  intros Ha. unfold updateDoc_article, article_request.
  destruct (article_faults w) as [|[] fs]; simpl; by rewrite ?Ha.
Qed.

Lemma incrementViews_many_stored (id : jsstring) (n : nat) :
  forall (w : article_world) (a : Article),
    articles w !! id = Some a -> article_faults w = [] ->
    articles (incrementViews_many id n w)
    = <[id := add_views (Z.of_nat n) a]> (articles w).
Proof.
  induction n as [|n IH]; intros w a Ha Hf.
  - simpl. symmetry. rewrite <- (insert_id (articles w) id a Ha) at 2.
    f_equal. destruct a. unfold add_views. simpl. f_equal. lia.
  - cbn [incrementViews_many]. unfold incrementViews.
    rewrite (updateDoc_article_stored id _ w a Ha Hf). cbn [snd].
    rewrite (IH _ (add_views 1 a)); [| by simpl; rewrite lookup_insert_eq | done].
    simpl. rewrite insert_insert_eq. f_equal.
    rewrite add_views_add. f_equal. lia.
Qed.

Section Libraries.

Variable validateURL : jsstring -> bool.
Variable sanitizeHTML : jsstring -> jsstring.

(** X30.  The life of an article.  A [createArticle] that succeeds has
    stored, under the identifier generated for it, the article with its
    title, description and content sanitized, 0 views, 0 likes, and a
    [publishedAt] exactly when its status is published; one that fails has
    stored nothing.  For an article stored under [id], on a store that
    serves every request: [getArticle] returns it with its [id]; [n] calls
    of [incrementViews] add [n] to its views and change nothing else; a
    like followed by an unlike leaves it as it was, and an unlike alone
    takes one from its likes, below 0 too; [deleteArticle] succeeds and
    removes it, after which [getArticle] returns [null] and the two counters
    change nothing.  With no article under [id], [deleteArticle] whose read
    is served fails with the not-found message, and the counters change no
    article whatever the store rejects. *)
Theorem article_lifecycle (articleData : ArticleData) (id : jsstring)
    (serverTime : N) (w : article_world) :
  let created := createArticle validateURL sanitizeHTML articleData id
                   serverTime w in
  let stored := sanitizedArticle sanitizeHTML articleData serverTime in
  (success (fst created) = true ->
   articleId (fst created) = Some id /\
   articles (snd created) = <[id := stored]> (articles w) /\
   art_views stored = 0%Z /\ art_likes stored = 0%Z /\
   (is_Some (art_publishedAt stored) <-> data_status articleData = Published)) /\
  (success (fst created) = false -> articles (snd created) = articles w) /\
  (forall a,
     articles w !! id = Some a -> article_faults w = [] ->
     fst (getArticle id w) = Some (id, a) /\
     (forall n,
        articles (incrementViews_many id n w)
        = <[id := add_views (Z.of_nat n) a]> (articles w)) /\
     toggleLike id false (toggleLike id true w) = w /\
     articles (toggleLike id false w)
     = <[id := add_likes (-1) a]> (articles w) /\
     let deleted := deleteArticle id w in
     fst deleted = ArticleResult true "تم حذف المقال بنجاح." None /\
     articles (snd deleted) = delete id (articles w) /\
     fst (getArticle id (snd deleted)) = None /\
     incrementViews id (snd deleted) = snd deleted /\
     forall b, toggleLike id b (snd deleted) = snd deleted) /\
  (articles w !! id = None ->
   (article_served 1 w ->
    fst (deleteArticle id w)
    = ArticleResult false "المقال غير موجود." None) /\
   articles (incrementViews id w) = articles w /\
   forall b, articles (toggleLike id b w) = articles w).
Proof.
  cbv zeta. split; [| split; [| split]].
  - (* created *)
    unfold createArticle.
    repeat (match goal with
            | |- context [if ?b then _ else _] => destruct b; [done |]
            end).
    unfold article_request.
    destruct (article_faults w) as [|[] fs]; simpl; try done;
      intros _; repeat split; try done;
      try (by intros [x Hx]; destruct (data_status articleData));
      try (by intros ->; simpl; eauto).
  - (* not created *)
    unfold createArticle.
    repeat (match goal with
            | |- context [if ?b then _ else _] => destruct b; [done |]
            end).
    unfold article_request.
    by destruct (article_faults w) as [|[] fs].
  - (* a stored article *)
    intros a Ha Hf.
    assert (Hreq : article_request w = (Return tt, w))
      by (unfold article_request; by rewrite Hf).
    split; [unfold getArticle; by rewrite Hreq, Ha |].
    split; [intros n; by apply incrementViews_many_stored |].
    split.
    { unfold toggleLike.
      rewrite (updateDoc_article_stored id _ w a Ha Hf). cbn [snd].
      rewrite (updateDoc_article_stored id _ _ (add_likes 1 a));
        [| by simpl; rewrite lookup_insert_eq | done].
      simpl. rewrite insert_insert_eq, add_likes_back, (insert_id _ _ _ Ha).
      by destruct w. }
    split.
    { unfold toggleLike.
      by rewrite (updateDoc_article_stored id _ w a Ha Hf). }
    unfold deleteArticle. rewrite Hreq, Ha, Hreq.
    split; [done |]. split; [done |]. cbn [snd].
    assert (Hreq' : forall m,
              article_request (with_articles m w) = (Return tt, with_articles m w))
      by (intros m; unfold article_request; simpl; by rewrite Hf).
    split; [unfold getArticle; by rewrite Hreq'; simpl; rewrite lookup_delete_eq |].
    assert (Hupd : forall f,
              snd (updateDoc_article id f
                     (with_articles (delete id (articles w)) w))
              = with_articles (delete id (articles w)) w).
    { intros f. unfold updateDoc_article. rewrite Hreq'. simpl.
      by rewrite lookup_delete_eq. }
    split; [apply Hupd |]. intros b. apply Hupd.
  - (* no article *)
    intros Ha. split; [| split].
    + intros Hs. unfold deleteArticle, article_request.
      unfold article_served in Hs.
      destruct (article_faults w) as [|[] fs]; simpl; rewrite ?Ha; try done.
      by apply Forall_cons in Hs as [? _].
    + by apply updateDoc_article_missing.
    + intros b. by apply updateDoc_article_missing.
Qed.

End Libraries.

End ArticleProofs.
